(** * The ChessEngineWASM binding layer

    A shallow embedding of the class [ChessEngineWASM] that wraps the
    sandbox-compiled chess engine, in its two generations:

    - [Direct]: chess/web/chess_engine_wrapper.js.  Text results are
      returned directly by the foreign-call adapter (cwrap "string"), the
      native success code is 1 and the legal-move payload is comma separated.
    - [Buffered]: the generation that passes a scratch buffer allocated
      with [_malloc] to the native side, decodes it with [_decodeCString]
      and releases it in a [finally] block.  The native success code is 0
      and the legal-move payload is separated by runs of white space.

    A third copy of the class, kept next to the buffered one, has the
    methods of [Direct] and loads its module from a script element, as
    [Buffered] does; it adds nothing to the two modules below.

    The native engine is an external collaborator: its entry points are the
    fields of a record over an abstract native state.  Every foreign call
    either returns or throws, and a thrown exception keeps the effects that
    happened before it, as in JavaScript. *)

From Stdlib Require Import List ZArith NArith String Ascii Bool Lia.
Import ListNotations.

Set Implicit Arguments.

(** ** JavaScript values *)

(** A JavaScript string is a sequence of UTF-16 code units. *)
Definition jsstring : Type := list N.

(** A string literal of the source, all of whose characters are ASCII. *)
Definition lit (s : string) : jsstring :=
  map N_of_ascii (list_ascii_of_string s).

Definition jsstring_eqb (a b : jsstring) : bool :=
  if list_eq_dec N.eq_dec a b then true else false.

(** [s ? .. : ..] and [!s] on a string: only the empty string is falsy. *)
Definition truthy (s : jsstring) : bool :=
  match s with [] => false | _ :: _ => true end.

(** The code units matched by [\s] and stripped by [trim]: the WhiteSpace
    and LineTerminator productions of ECMAScript. *)
Definition isWhiteSpace (c : N) : bool :=
  ((9 <=? c) && (c <=? 13) || (c =? 32) || (c =? 160) || (c =? 5760)
   || (8192 <=? c) && (c <=? 8202) || (c =? 8232) || (c =? 8233)
   || (c =? 8239) || (c =? 8287) || (c =? 12288) || (c =? 65279))%N.

Fixpoint trimStart (s : jsstring) : jsstring :=
  match s with
  | c :: s' => if isWhiteSpace c then trimStart s' else s
  | [] => []
  end.

(** [String.prototype.trim]. *)
Definition trim (s : jsstring) : jsstring :=
  rev (trimStart (rev (trimStart s))).

(** [s.split(sep)] for a separator string of one code unit: [cur] holds the
    piece being read, reversed.  The empty string splits into one empty
    piece. *)
Fixpoint split_on (sep : N) (cur : jsstring) (s : jsstring) : list jsstring :=
  match s with
  | [] => [rev cur]
  | c :: s' =>
      if (c =? sep)%N then rev cur :: split_on sep [] s'
      else split_on sep (c :: cur) s'
  end.

Definition split (sep : N) (s : jsstring) : list jsstring := split_on sep [] s.

(** [s.split(/\s+/)]: the separator is a maximal run of white space;
    [inrun] says that the previous code unit belonged to such a run. *)
Fixpoint split_ws (inrun : bool) (cur : jsstring) (s : jsstring)
  : list jsstring :=
  match s with
  | [] => [rev cur]
  | c :: s' =>
      if isWhiteSpace c then
        if inrun then split_ws true [] s'
        else rev cur :: split_ws true [] s'
      else split_ws false (c :: cur) s'
  end.

Definition split_whitespace (s : jsstring) : list jsstring :=
  split_ws false [] s.

(** What a [throw] carries: an [Error] object with its message, or any
    other thrown value (a number, a string), which has no [message].
    Neither the binding nor the Emscripten runtime throws [null] or
    [undefined], the two values on which reading [message] would itself
    throw. *)
Inductive js_exn : Type :=
| JsError (message : string)
| JsThrown (payload : Z).

(** [error.message] in a [catch] clause; [None] is [undefined]. *)
Definition message_of (e : js_exn) : option string :=
  match e with
  | JsError m => Some m
  | JsThrown _ => None
  end.

Inductive outcome (A : Type) : Type :=
| Ret (a : A)
| Throw (e : js_exn).
Arguments Ret {A} a.
Arguments Throw {A} e.

(** ** Computations over a mutable world

    A method is a function from the world to an outcome and the world it
    leaves behind; an exception does not roll anything back. *)
Definition M (W A : Type) : Type := W -> outcome A * W.

Definition ret {W A} (a : A) : M W A := fun w => (Ret a, w).

Definition throw {W A} (e : js_exn) : M W A := fun w => (Throw e, w).

Definition bind {W A B} (m : M W A) (k : A -> M W B) : M W B :=
  fun w =>
    match m w with
    | (Ret a, w') => k a w'
    | (Throw e, w') => (Throw e, w')
    end.

(** [try { m } catch (error) { h error }] *)
Definition try_catch {W A} (m : M W A) (h : js_exn -> M W A) : M W A :=
  fun w =>
    match m w with
    | (Ret a, w') => (Ret a, w')
    | (Throw e, w') => h e w'
    end.

(** [try { m } finally { f }]: [f] runs on every exit of [m]; the outcome
    is that of [m] unless [f] itself throws. *)
Definition try_finally {W A} (m : M W A) (f : M W unit) : M W A :=
  fun w =>
    let '(r, w') := m w in
    match f w' with
    | (Ret _, w'') => (r, w'')
    | (Throw e, w'') => (Throw e, w'')
    end.

Declare Scope js_scope.
Delimit Scope js_scope with js.
Notation "x <- m ;; k" := (bind m (fun x => k))
  (at level 61, m at next level, right associativity) : js_scope.
Notation "m ;; k" := (bind m (fun _ => k))
  (at level 61, right associativity) : js_scope.

(** ** The native module *)

(** The C symbols bound with [Module.cwrap]. *)
Inductive Sym : Type :=
| sym_chess_init
| sym_chess_cleanup
| sym_chess_set_position
| sym_chess_get_fen
| sym_chess_get_best_move
| sym_chess_make_move
| sym_chess_undo_move
| sym_chess_get_legal_moves
| sym_chess_is_checkmate
| sym_chess_is_stalemate
| sym_chess_is_in_check
| sym_chess_evaluate_position.

Definition Sym_eqb (a b : Sym) : bool :=
  match a, b with
  | sym_chess_init, sym_chess_init
  | sym_chess_cleanup, sym_chess_cleanup
  | sym_chess_set_position, sym_chess_set_position
  | sym_chess_get_fen, sym_chess_get_fen
  | sym_chess_get_best_move, sym_chess_get_best_move
  | sym_chess_make_move, sym_chess_make_move
  | sym_chess_undo_move, sym_chess_undo_move
  | sym_chess_get_legal_moves, sym_chess_get_legal_moves
  | sym_chess_is_checkmate, sym_chess_is_checkmate
  | sym_chess_is_stalemate, sym_chess_is_stalemate
  | sym_chess_is_in_check, sym_chess_is_in_check
  | sym_chess_evaluate_position, sym_chess_evaluate_position => true
  | _, _ => false
  end.

Definition all_syms : list Sym :=
  [sym_chess_init; sym_chess_cleanup; sym_chess_set_position;
   sym_chess_get_fen; sym_chess_get_best_move; sym_chess_make_move;
   sym_chess_undo_move; sym_chess_get_legal_moves; sym_chess_is_checkmate;
   sym_chess_is_stalemate; sym_chess_is_in_check;
   sym_chess_evaluate_position].

(** What the binding does to the native side, in the order it happens:
    a wrapped C function is entered, a scratch region is requested from the
    native allocator (with the handle it answered, 0 for none), a region is
    handed back. *)
Inductive Event : Type :=
| EvCall (s : Sym)
| EvMalloc (size ptr : Z)
| EvFree (ptr : Z).

(** The facets of the Emscripten [Module] object that the binding looks at
    when it binds its wrappers.  [cwrap s] is the exception thrown by
    [Module.cwrap] for the symbol [s], if any (a [Module] without [cwrap]
    throws a TypeError for every symbol). *)
Record EmModule : Type := {
  cwrap : Sym -> option js_exn;
  has_malloc : bool;
  has_free : bool;
  has_UTF8ToString : bool;
  has_UTF8ArrayToString : bool
}.

(** The object, the state of the native engine and the record of what was
    done to the native side. *)
Record World (O N : Type) : Type := {
  this : O;
  native : N;
  trace : list Event
}.

(** The three states of the lifecycle. *)
Inductive EngineState : Type :=
| Unloaded
| LoadedNotInitialized
| Initialized.

(** The value of a host-facing call, for code that handles calls
    uniformly. *)
Inductive value (R : Type) : Type :=
| VBool (b : bool)
| VNumber (z : Z)
| VNull
| VString (s : jsstring)
| VArray (l : list jsstring)
| VReport (r : R).
Arguments VBool {R} b.
Arguments VNumber {R} z.
Arguments VNull {R}.
Arguments VString {R} s.
Arguments VArray {R} l.
Arguments VReport {R} r.

(** The object literal returned by [analyzePosition]: either the one with
    [success: true] or the one with [error] alone. *)
Record GameState : Type := {
  gs_isCheckmate : bool;
  gs_isStalemate : bool;
  gs_isInCheck : bool
}.

Inductive AnalysisReport : Type :=
| SuccessReport (success : bool)
    (bestMove : option jsstring) (evaluation : Z)
    (legalMoves : list jsstring) (moveCount : nat)
    (gameState : GameState) (depth : Z) (fen : jsstring)
| ErrorReport (error : option string).

(** A parameter with a default value: [None] is an omitted argument. *)
Definition default_arg (d : Z) (a : option Z) : Z :=
  match a with Some x => x | None => d end.

Definition not_initialized : js_exn := JsError "Engine not initialized".
Definition not_loaded : js_exn := JsError "WASM module not loaded yet".
Definition not_a_function : js_exn := JsError "not a function".

Section Wrappers.
Context {O N : Type}.

(** Calling the wrapper stored in a field of the object: a field that is
    still [null] cannot be called (TypeError); otherwise the C function
    [f] runs on the native state and the call is recorded. *)
Definition call_native {A} (slot : O -> bool) (s : Sym)
    (f : N -> outcome A * N) : M (World O N) A :=
  fun w =>
    if slot (this w) then
      let '(r, n') := f (native w) in
      (r, {| this := this w; native := n'; trace := trace w ++ [EvCall s] |})
    else (Throw not_a_function, w).

(** An assignment to a field of [this]. *)
Definition assign (f : O -> O) : M (World O N) unit :=
  fun w =>
    (Ret tt, {| this := f (this w); native := native w; trace := trace w |}).

(** A sequence of host-facing calls issued one after the other by a
    caller that goes on whatever each call does. *)
Fixpoint run_calls {C V} (invoke : C -> M (World O N) V) (cs : list C)
    (w : World O N) : World O N :=
  match cs with
  | [] => w
  | c :: cs' => run_calls invoke cs' (snd (invoke c w))
  end.
End Wrappers.

(** [baseUrl.endsWith("/") ? baseUrl.slice(0, -1) : baseUrl] *)
Definition normalizeBaseUrl (baseUrl : jsstring) : jsstring :=
  match rev baseUrl with
  | c :: r => if (c =? 47)%N then rev r else baseUrl
  | [] => baseUrl
  end.

Definition default_baseUrl : jsstring := lit "./".

(** ** chess/web/chess_engine_wrapper.js *)
Module Direct.

(** The fields of the object; [wrappers s] says whether the field that
    holds the wrapper of the C symbol [s] has been assigned. *)
Record ChessEngineWASM : Type := {
  module : option EmModule;
  isReady : bool;
  isInitialized : bool;
  wrappers : Sym -> bool
}.

Definition constructor : ChessEngineWASM :=
  {| module := None; isReady := false; isInitialized := false;
     wrappers := fun _ => false |}.

Definition set_module (m : EmModule) (o : ChessEngineWASM) :=
  {| module := Some m; isReady := isReady o;
     isInitialized := isInitialized o; wrappers := wrappers o |}.

Definition set_isReady (b : bool) (o : ChessEngineWASM) :=
  {| module := module o; isReady := b;
     isInitialized := isInitialized o; wrappers := wrappers o |}.

Definition set_isInitialized (b : bool) (o : ChessEngineWASM) :=
  {| module := module o; isReady := isReady o;
     isInitialized := b; wrappers := wrappers o |}.

Definition set_wrapper (s : Sym) (o : ChessEngineWASM) :=
  {| module := module o; isReady := isReady o;
     isInitialized := isInitialized o;
     wrappers := fun s' => if Sym_eqb s s' then true else wrappers o s' |}.

Definition state_of (o : ChessEngineWASM) : EngineState :=
  if isInitialized o then Initialized
  else if isReady o then LoadedNotInitialized else Unloaded.

(** The entry points of the native engine, with the signatures given to
    [cwrap]: ["number"] results are integers, ["string"] results arrive
    already decoded. *)
Record Engine (N : Type) : Type := {
  chess_init : N -> outcome Z * N;
  chess_cleanup : N -> outcome unit * N;
  chess_set_position : jsstring -> N -> outcome Z * N;
  chess_get_fen : N -> outcome jsstring * N;
  chess_get_best_move : Z -> N -> outcome jsstring * N;
  chess_make_move : jsstring -> N -> outcome Z * N;
  chess_undo_move : N -> outcome Z * N;
  chess_get_legal_moves : N -> outcome jsstring * N;
  chess_is_checkmate : N -> outcome Z * N;
  chess_is_stalemate : N -> outcome Z * N;
  chess_is_in_check : N -> outcome Z * N;
  chess_evaluate_position : N -> outcome Z * N
}.

(** What the host answers to [import(jsPath)]: a rejection, or a
    namespace whose [default()] rejects or resolves to the module. *)
Record Host : Type := {
  dynamic_import : jsstring -> outcome (outcome EmModule)
}.

Section Methods.
Context {N : Type} (E : Engine N) (H : Host).

Local Open Scope js_scope.
Local Abbreviation W := (World ChessEngineWASM N).

Definition bind_wrapper (m : EmModule) (s : Sym) : M W unit :=
  match cwrap m s with
  | Some e => throw e
  | None => assign (set_wrapper s)
  end.

Fixpoint bind_wrappers (m : EmModule) (ss : list Sym) : M W unit :=
  match ss with
  | [] => ret tt
  | s :: ss' => bind_wrapper m s ;; bind_wrappers m ss'
  end.

Definition setupFunctionWrappers : M W unit :=
  fun w =>
    match module (this w) with
    | None => (Throw not_a_function, w)
    | Some Module =>
        bind_wrappers Module
          [sym_chess_init; sym_chess_cleanup; sym_chess_set_position;
           sym_chess_get_fen; sym_chess_get_best_move;
           sym_chess_make_move; sym_chess_undo_move;
           sym_chess_get_legal_moves; sym_chess_is_checkmate;
           sym_chess_is_stalemate; sym_chess_is_in_check;
           sym_chess_evaluate_position] w
    end.

Definition loadModule (wasmPath jsPath : jsstring) : M W bool :=
  try_catch
    (ChessEngine <- (fun w => (dynamic_import H jsPath, w)) ;;
     Module <- (fun w => (ChessEngine, w)) ;;
     assign (set_module Module) ;;
     setupFunctionWrappers ;;
     assign (set_isReady true) ;;
     ret true)
    (fun error => ret false).

Definition init : M W bool :=
  fun w =>
    if negb (isReady (this w)) then (Throw not_loaded, w)
    else
      (result <- call_native (fun o => wrappers o sym_chess_init)
                   sym_chess_init (chess_init E) ;;
       assign (set_isInitialized (result =? 1)%Z) ;;
       fun w' => (Ret (isInitialized (this w')), w')) w.

Definition cleanup : M W unit :=
  fun w =>
    if isInitialized (this w) && wrappers (this w) sym_chess_cleanup then
      (call_native (fun o => wrappers o sym_chess_cleanup)
         sym_chess_cleanup (chess_cleanup E) ;;
       assign (set_isInitialized false)) w
    else (Ret tt, w).

(** [if (!this.isInitialized) throw new Error("Engine not initialized")] *)
Definition require_initialized : M W unit :=
  fun w =>
    if isInitialized (this w) then (Ret tt, w)
    else (Throw not_initialized, w).

Definition wrapped {A} (s : Sym) (f : N -> outcome A * N) : M W A :=
  call_native (fun o => wrappers o s) s f.

Definition setPosition (fen : jsstring) : M W bool :=
  require_initialized ;;
  r <- wrapped sym_chess_set_position (chess_set_position E fen) ;;
  ret (r =? 1)%Z.

Definition getBestMove (depth : option Z) : M W (option jsstring) :=
  let depth := default_arg 4 depth in
  require_initialized ;;
  move <- wrapped sym_chess_get_best_move (chess_get_best_move E depth) ;;
  ret (if truthy move && negb (jsstring_eqb move (lit "0000"))
       then Some move else None).

Definition makeMove (move : jsstring) : M W bool :=
  require_initialized ;;
  r <- wrapped sym_chess_make_move (chess_make_move E move) ;;
  ret (r =? 1)%Z.

Definition undoMove : M W bool :=
  require_initialized ;;
  r <- wrapped sym_chess_undo_move (chess_undo_move E) ;;
  ret (r =? 1)%Z.

Definition getLegalMoves : M W (list jsstring) :=
  require_initialized ;;
  movesStr <- wrapped sym_chess_get_legal_moves
                (chess_get_legal_moves E) ;;
  ret (if truthy movesStr
       then filter (fun m => (0 <? List.length m)%nat) (split 44 movesStr)
       else []).

Definition isCheckmate : M W bool :=
  require_initialized ;;
  r <- wrapped sym_chess_is_checkmate (chess_is_checkmate E) ;;
  ret (r =? 1)%Z.

Definition isStalemate : M W bool :=
  require_initialized ;;
  r <- wrapped sym_chess_is_stalemate (chess_is_stalemate E) ;;
  ret (r =? 1)%Z.

Definition isInCheck : M W bool :=
  require_initialized ;;
  r <- wrapped sym_chess_is_in_check (chess_is_in_check E) ;;
  ret (r =? 1)%Z.

Definition evaluatePosition : M W Z :=
  require_initialized ;;
  wrapped sym_chess_evaluate_position (chess_evaluate_position E).

Definition getCurrentFen : M W jsstring :=
  require_initialized ;;
  wrapped sym_chess_get_fen (chess_get_fen E).

Definition analyzePosition (fen : jsstring) (depth : option Z)
    : M W AnalysisReport :=
  let depth := default_arg 4 depth in
  try_catch
    (ok <- setPosition fen ;;
     if negb ok then ret (ErrorReport (Some "Invalid FEN position"%string))
     else
       bestMove <- getBestMove (Some depth) ;;
       evaluation <- evaluatePosition ;;
       legalMoves <- getLegalMoves ;;
       isCheckmate <- isCheckmate ;;
       isStalemate <- isStalemate ;;
       isInCheck <- isInCheck ;;
       fen' <- getCurrentFen ;;
       ret (SuccessReport true bestMove evaluation legalMoves
              (List.length legalMoves)
              {| gs_isCheckmate := isCheckmate;
                 gs_isStalemate := isStalemate;
                 gs_isInCheck := isInCheck |}
              depth fen'))
    (fun error => ret (ErrorReport (message_of error))).

(** The Call Surface: every host-facing operation other than
    [loadModule], [init] and [cleanup]. *)
Inductive call : Type :=
| CallSetPosition (fen : jsstring)
| CallGetBestMove (depth : option Z)
| CallMakeMove (move : jsstring)
| CallUndoMove
| CallGetLegalMoves
| CallIsCheckmate
| CallIsStalemate
| CallIsInCheck
| CallEvaluatePosition
| CallGetCurrentFen.

Definition invoke (c : call) : M W (value AnalysisReport) :=
  match c with
  | CallSetPosition fen => b <- setPosition fen ;; ret (VBool b)
  | CallGetBestMove depth =>
      m <- getBestMove depth ;;
      ret (match m with Some t => VString t | None => VNull end)
  | CallMakeMove move => b <- makeMove move ;; ret (VBool b)
  | CallUndoMove => b <- undoMove ;; ret (VBool b)
  | CallGetLegalMoves => l <- getLegalMoves ;; ret (VArray l)
  | CallIsCheckmate => b <- isCheckmate ;; ret (VBool b)
  | CallIsStalemate => b <- isStalemate ;; ret (VBool b)
  | CallIsInCheck => b <- isInCheck ;; ret (VBool b)
  | CallEvaluatePosition => z <- evaluatePosition ;; ret (VNumber z)
  | CallGetCurrentFen => s <- getCurrentFen ;; ret (VString s)
  end.
End Methods.
End Direct.

(** ** The scratch-buffer generation of the wrapper *)
Module Buffered.

(** The fields of the object.  [_decodeCString] is a closure over the
    [Module] it was created from. *)
Record ChessEngineWASM : Type := {
  module : option EmModule;
  isReady : bool;
  isInitialized : bool;
  wrappers : Sym -> bool;
  _malloc : bool;
  _free : bool;
  _decodeCString : option EmModule
}.

Definition constructor : ChessEngineWASM :=
  {| module := None; isReady := false; isInitialized := false;
     wrappers := fun _ => false;
     _malloc := false; _free := false; _decodeCString := None |}.

Definition set_module (m : EmModule) (o : ChessEngineWASM) :=
  {| module := Some m; isReady := isReady o;
     isInitialized := isInitialized o; wrappers := wrappers o;
     _malloc := _malloc o; _free := _free o;
     _decodeCString := _decodeCString o |}.

Definition set_isReady (b : bool) (o : ChessEngineWASM) :=
  {| module := module o; isReady := b;
     isInitialized := isInitialized o; wrappers := wrappers o;
     _malloc := _malloc o; _free := _free o;
     _decodeCString := _decodeCString o |}.

Definition set_isInitialized (b : bool) (o : ChessEngineWASM) :=
  {| module := module o; isReady := isReady o;
     isInitialized := b; wrappers := wrappers o;
     _malloc := _malloc o; _free := _free o;
     _decodeCString := _decodeCString o |}.

Definition set_wrapper (s : Sym) (o : ChessEngineWASM) :=
  {| module := module o; isReady := isReady o;
     isInitialized := isInitialized o;
     wrappers := fun s' => if Sym_eqb s s' then true else wrappers o s';
     _malloc := _malloc o; _free := _free o;
     _decodeCString := _decodeCString o |}.

Definition set_memory_helpers (m f : bool) (o : ChessEngineWASM) :=
  {| module := module o; isReady := isReady o;
     isInitialized := isInitialized o; wrappers := wrappers o;
     _malloc := m; _free := f;
     _decodeCString := _decodeCString o |}.

Definition set_decodeCString (m : EmModule) (o : ChessEngineWASM) :=
  {| module := module o; isReady := isReady o;
     isInitialized := isInitialized o; wrappers := wrappers o;
     _malloc := _malloc o; _free := _free o;
     _decodeCString := Some m |}.

Definition state_of (o : ChessEngineWASM) : EngineState :=
  if isInitialized o then Initialized
  else if isReady o then LoadedNotInitialized else Unloaded.

(** The entry points of the native engine.  The three text-producing
    functions take the handle and the capacity of a scratch region and
    answer a status (a count for the legal moves); [malloc] answers 0 when
    it has no region to give; the two decoding helpers of the Emscripten
    runtime read the text that starts at a handle. *)
Record Engine (N : Type) : Type := {
  chess_init : N -> outcome Z * N;
  chess_cleanup : N -> outcome unit * N;
  chess_set_position : jsstring -> N -> outcome Z * N;
  chess_get_fen : Z -> Z -> N -> outcome Z * N;
  chess_get_best_move : Z -> Z -> Z -> N -> outcome Z * N;
  chess_make_move : jsstring -> N -> outcome Z * N;
  chess_undo_move : N -> outcome Z * N;
  chess_get_legal_moves : Z -> Z -> N -> outcome Z * N;
  chess_is_checkmate : N -> outcome Z * N;
  chess_is_stalemate : N -> outcome Z * N;
  chess_is_in_check : N -> outcome Z * N;
  chess_evaluate_position : N -> outcome Z * N;
  malloc : Z -> N -> Z * N;
  free : Z -> N -> N;
  UTF8ToString : Z -> N -> outcome jsstring;
  UTF8ArrayToString : Z -> N -> outcome jsstring
}.

(** What the host answers while the module is loaded: the rejection of the
    script element, if any; the global [ChessEngine] after the script ran
    ([None] when it is undefined), a factory that is given the location of
    the binary and rejects or resolves to the module. *)
Record Host : Type := {
  script_error : jsstring -> option js_exn;
  ChessEngine : jsstring -> option (jsstring -> outcome EmModule)
}.

Section Methods.
Context {N : Type} (E : Engine N) (H : Host).

Local Open Scope js_scope.
Local Abbreviation W := (World ChessEngineWASM N).

Definition loadScript (src : jsstring) : M W unit :=
  match script_error H src with
  | Some e => throw e
  | None => ret tt
  end.

Definition bind_wrapper (m : EmModule) (s : Sym) : M W unit :=
  match cwrap m s with
  | Some e => throw e
  | None => assign (set_wrapper s)
  end.

Fixpoint bind_wrappers (m : EmModule) (ss : list Sym) : M W unit :=
  match ss with
  | [] => ret tt
  | s :: ss' => bind_wrapper m s ;; bind_wrappers m ss'
  end.

Definition setupFunctionWrappers : M W unit :=
  fun w =>
    match module (this w) with
    | None => (Throw not_a_function, w)
    | Some Module =>
        (bind_wrappers Module
           [sym_chess_init; sym_chess_cleanup; sym_chess_set_position;
            sym_chess_get_fen; sym_chess_get_best_move;
            sym_chess_make_move; sym_chess_undo_move;
            sym_chess_get_legal_moves; sym_chess_is_checkmate;
            sym_chess_is_stalemate; sym_chess_is_in_check;
            sym_chess_evaluate_position] ;;
         assign (set_memory_helpers (has_malloc Module) (has_free Module)) ;;
         (if negb (has_malloc Module) || negb (has_free Module) then
            throw (JsError
              "Emscripten memory helpers (_malloc/_free) are unavailable")
          else ret tt) ;;
         assign (set_decodeCString Module)) w
    end.

Definition loadModule (baseUrl : option jsstring) : M W bool :=
  let baseUrl :=
    match baseUrl with Some u => u | None => default_baseUrl end in
  try_catch
    (let normalizedBaseUrl := normalizeBaseUrl baseUrl in
     let jsUrl := normalizedBaseUrl ++ lit "/chess_wasm.js" in
     let wasmFileUrl := normalizedBaseUrl ++ lit "/chess_wasm.wasm" in
     loadScript jsUrl ;;
     match ChessEngine H jsUrl with
     | None =>
         throw (JsError "chess_wasm.js did not expose ChessEngine function")
     | Some factory =>
         Module <- (fun w => (factory wasmFileUrl, w)) ;;
         assign (set_module Module) ;;
         setupFunctionWrappers ;;
         assign (set_isReady true) ;;
         ret true
     end)
    (fun error => ret false).

Definition init : M W bool :=
  fun w =>
    if negb (isReady (this w)) then (Throw not_loaded, w)
    else
      (result <- call_native (fun o => wrappers o sym_chess_init)
                   sym_chess_init (chess_init E) ;;
       if negb (result =? 0)%Z then ret false
       else assign (set_isInitialized true) ;; ret true) w.

Definition cleanup : M W unit :=
  fun w =>
    if isInitialized (this w) && wrappers (this w) sym_chess_cleanup then
      (call_native (fun o => wrappers o sym_chess_cleanup)
         sym_chess_cleanup (chess_cleanup E) ;;
       assign (set_isInitialized false)) w
    else (Ret tt, w).

(** [if (!this.isInitialized) throw new Error("Engine not initialized")] *)
Definition require_initialized : M W unit :=
  fun w =>
    if isInitialized (this w) then (Ret tt, w)
    else (Throw not_initialized, w).

Definition wrapped {A} (s : Sym) (f : N -> outcome A * N) : M W A :=
  call_native (fun o => wrappers o s) s f.

(** [this._malloc(bufferSize)] *)
Definition call_malloc (bufferSize : Z) : M W Z :=
  fun w =>
    if _malloc (this w) then
      let '(ptr, n') := malloc E bufferSize (native w) in
      (Ret ptr, {| this := this w; native := n';
                   trace := trace w ++ [EvMalloc bufferSize ptr] |})
    else (Throw not_a_function, w).

(** [this._free(bufferPtr)] *)
Definition call_free (bufferPtr : Z) : M W unit :=
  fun w =>
    if _free (this w) then
      (Ret tt, {| this := this w; native := free E bufferPtr (native w);
                  trace := trace w ++ [EvFree bufferPtr] |})
    else (Throw not_a_function, w).

(** [this._decodeCString(ptr)] *)
Definition decodeCString (ptr : Z) : M W jsstring :=
  fun w =>
    match _decodeCString (this w) with
    | None => (Throw not_a_function, w)
    | Some Module =>
        if (ptr =? 0)%Z then (Ret [], w)
        else if has_UTF8ToString Module then
          (UTF8ToString E ptr (native w), w)
        else if has_UTF8ArrayToString Module then
          (UTF8ArrayToString E ptr (native w), w)
        else (Throw (JsError "UTF-8 decoding helpers are unavailable"), w)
    end.

Definition setPosition (fen : jsstring) : M W bool :=
  require_initialized ;;
  r <- wrapped sym_chess_set_position (chess_set_position E fen) ;;
  ret (r =? 0)%Z.

Definition getBestMove (depth : option Z) : M W (option jsstring) :=
  let depth := default_arg 4 depth in
  require_initialized ;;
  let bufferSize := 32%Z in
  bufferPtr <- call_malloc bufferSize ;;
  if (bufferPtr =? 0)%Z then
    throw (JsError "Failed to allocate memory for best move buffer")
  else
    try_finally
      (status <- wrapped sym_chess_get_best_move
                   (chess_get_best_move E bufferPtr bufferSize depth) ;;
       if negb (status =? 0)%Z then ret None
       else
         move <- decodeCString bufferPtr ;;
         ret (if truthy move && negb (jsstring_eqb move (lit "0000"))
              then Some move else None))
      (call_free bufferPtr).

Definition makeMove (move : jsstring) : M W bool :=
  require_initialized ;;
  r <- wrapped sym_chess_make_move (chess_make_move E move) ;;
  ret (r =? 0)%Z.

Definition undoMove : M W bool :=
  require_initialized ;;
  r <- wrapped sym_chess_undo_move (chess_undo_move E) ;;
  ret (r =? 0)%Z.

Definition getLegalMoves : M W (list jsstring) :=
  require_initialized ;;
  let bufferSize := 4096%Z in
  bufferPtr <- call_malloc bufferSize ;;
  if (bufferPtr =? 0)%Z then
    throw (JsError "Failed to allocate memory for legal moves buffer")
  else
    try_finally
      (count <- wrapped sym_chess_get_legal_moves
                  (chess_get_legal_moves E bufferPtr bufferSize) ;;
       if (count <? 0)%Z then ret []
       else
         decoded <- decodeCString bufferPtr ;;
         let movesStr := trim decoded in
         if negb (truthy movesStr) then ret []
         else ret (filter truthy (split_whitespace movesStr)))
      (call_free bufferPtr).

Definition isCheckmate : M W bool :=
  require_initialized ;;
  r <- wrapped sym_chess_is_checkmate (chess_is_checkmate E) ;;
  ret (r =? 1)%Z.

Definition isStalemate : M W bool :=
  require_initialized ;;
  r <- wrapped sym_chess_is_stalemate (chess_is_stalemate E) ;;
  ret (r =? 1)%Z.

Definition isInCheck : M W bool :=
  require_initialized ;;
  r <- wrapped sym_chess_is_in_check (chess_is_in_check E) ;;
  ret (r =? 1)%Z.

Definition evaluatePosition : M W Z :=
  require_initialized ;;
  wrapped sym_chess_evaluate_position (chess_evaluate_position E).

Definition getCurrentFen : M W jsstring :=
  require_initialized ;;
  let bufferSize := 128%Z in
  bufferPtr <- call_malloc bufferSize ;;
  if (bufferPtr =? 0)%Z then
    throw (JsError "Failed to allocate memory for FEN buffer")
  else
    try_finally
      (status <- wrapped sym_chess_get_fen
                   (chess_get_fen E bufferPtr bufferSize) ;;
       if negb (status =? 0)%Z then ret []
       else decodeCString bufferPtr)
      (call_free bufferPtr).

Definition analyzePosition (fen : jsstring) (depth : option Z)
    : M W AnalysisReport :=
  let depth := default_arg 4 depth in
  try_catch
    (ok <- setPosition fen ;;
     if negb ok then ret (ErrorReport (Some "Invalid FEN position"%string))
     else
       bestMove <- getBestMove (Some depth) ;;
       evaluation <- evaluatePosition ;;
       legalMoves <- getLegalMoves ;;
       isCheckmate <- isCheckmate ;;
       isStalemate <- isStalemate ;;
       isInCheck <- isInCheck ;;
       fen' <- getCurrentFen ;;
       ret (SuccessReport true bestMove evaluation legalMoves
              (List.length legalMoves)
              {| gs_isCheckmate := isCheckmate;
                 gs_isStalemate := isStalemate;
                 gs_isInCheck := isInCheck |}
              depth fen'))
    (fun error => ret (ErrorReport (message_of error))).

(** The Call Surface: every host-facing operation other than
    [loadModule], [init] and [cleanup]. *)
Inductive call : Type :=
| CallSetPosition (fen : jsstring)
| CallGetBestMove (depth : option Z)
| CallMakeMove (move : jsstring)
| CallUndoMove
| CallGetLegalMoves
| CallIsCheckmate
| CallIsStalemate
| CallIsInCheck
| CallEvaluatePosition
| CallGetCurrentFen.

Definition invoke (c : call) : M W (value AnalysisReport) :=
  match c with
  | CallSetPosition fen => b <- setPosition fen ;; ret (VBool b)
  | CallGetBestMove depth =>
      m <- getBestMove depth ;;
      ret (match m with Some t => VString t | None => VNull end)
  | CallMakeMove move => b <- makeMove move ;; ret (VBool b)
  | CallUndoMove => b <- undoMove ;; ret (VBool b)
  | CallGetLegalMoves => l <- getLegalMoves ;; ret (VArray l)
  | CallIsCheckmate => b <- isCheckmate ;; ret (VBool b)
  | CallIsStalemate => b <- isStalemate ;; ret (VBool b)
  | CallIsInCheck => b <- isInCheck ;; ret (VBool b)
  | CallEvaluatePosition => z <- evaluatePosition ;; ret (VNumber z)
  | CallGetCurrentFen => s <- getCurrentFen ;; ret (VString s)
  end.
End Methods.
End Buffered.

(** ** Observations on worlds and traces *)

(** The scratch regions acquired in a trace: the requests that the native
    allocator answered with a region (a non-zero handle). *)
Fixpoint acquired (t : list Event) : nat :=
  match t with
  | [] => 0
  | EvMalloc _ ptr :: t' =>
      if (ptr =? 0)%Z then acquired t' else S (acquired t')
  | _ :: t' => acquired t'
  end.

(** The scratch regions released in a trace. *)
Fixpoint released (t : list Event) : nat :=
  match t with
  | [] => 0
  | EvFree _ :: t' => S (released t')
  | _ :: t' => released t'
  end.

(** The handles acquired and not yet released, oldest first. *)
Fixpoint remove_first (p : Z) (l : list Z) : list Z :=
  match l with
  | [] => []
  | q :: l' => if (p =? q)%Z then l' else q :: remove_first p l'
  end.

Fixpoint outstanding (held : list Z) (t : list Event) : list Z :=
  match t with
  | [] => held
  | EvMalloc _ ptr :: t' =>
      if (ptr =? 0)%Z then outstanding held t'
      else outstanding (held ++ [ptr]) t'
  | EvFree ptr :: t' => outstanding (remove_first ptr held) t'
  | EvCall _ :: t' => outstanding held t'
  end.

(** The first exception met by a caller that issues the calls [cs] in
    order and stops at the first one that throws. *)
Fixpoint first_fault {W C V} (invoke : C -> M W V) (cs : list C) (w : W)
    : option (js_exn * W) :=
  match cs with
  | [] => None
  | c :: cs' =>
      match invoke c w with
      | (Throw e, w') => Some (e, w')
      | (Ret _, w') => first_fault invoke cs' w'
      end
  end.



(** ** The notation of a move token, as the specification words it *)

Definition is_file (c : N) : bool := ((97 <=? c) && (c <=? 104))%N.
Definition is_rank (c : N) : bool := ((49 <=? c) && (c <=? 56))%N.
Definition is_promotion (c : N) : bool :=
  ((c =? 113) || (c =? 114) || (c =? 98) || (c =? 110))%N.

(** Four or five characters in algebraic coordinate form: a square, a
    square and possibly the piece promoted to, as in "e2e4" and "e7e8q". *)
Definition well_formed_move (t : jsstring) : bool :=
  match t with
  | [f1; r1; f2; r2] => is_file f1 && is_rank r1 && is_file f2 && is_rank r2
  | [f1; r1; f2; r2; p] =>
      is_file f1 && is_rank r1 && is_file f2 && is_rank r2 && is_promotion p
  | _ => false
  end.

(** The "no move" sentinel. *)
Definition no_move : jsstring := lit "0000".

(** ** Sample engines and hosts, on which the model runs *)
Module Samples.

Definition start_fen : jsstring :=
  lit "rnbqkbnr/pppppppp/8/8/8/8/PPPPPPPP/RNBQKBNR w KQkq - 0 1".

(** A module that exports everything the binding asks for. *)
Definition full_module : EmModule :=
  {| cwrap := fun _ => None; has_malloc := true; has_free := true;
     has_UTF8ToString := true; has_UTF8ArrayToString := false |}.

(** A module in which binding the symbol [s] throws. *)
Definition module_missing (s : Sym) : EmModule :=
  {| cwrap := fun s' =>
       if Sym_eqb s s' then Some (JsError "symbol missing") else None;
     has_malloc := true; has_free := true;
     has_UTF8ToString := true; has_UTF8ArrayToString := false |}.

(** A module without the memory helpers. *)
Definition module_without_malloc : EmModule :=
  {| cwrap := fun _ => None; has_malloc := false; has_free := false;
     has_UTF8ToString := true; has_UTF8ArrayToString := false |}.

(** The native state of the sample engines counts the teardown attempts;
    the first [faults] attempts trap.  An empty FEN is rejected. *)
Definition direct_engine (init_status : Z) (faults : nat)
    (best legal : jsstring) : Direct.Engine nat :=
  {| Direct.chess_init := fun n => (Ret init_status, n);
     Direct.chess_cleanup := fun n =>
       (if (n <? faults)%nat then Throw (JsError "teardown trapped")
        else Ret tt, S n);
     Direct.chess_set_position := fun fen n =>
       (Ret (if truthy fen then 1 else 0)%Z, n);
     Direct.chess_get_fen := fun n => (Ret start_fen, n);
     Direct.chess_get_best_move := fun _ n => (Ret best, n);
     Direct.chess_make_move := fun _ n => (Ret 1%Z, n);
     Direct.chess_undo_move := fun n => (Ret 1%Z, n);
     Direct.chess_get_legal_moves := fun n => (Ret legal, n);
     Direct.chess_is_checkmate := fun n => (Ret 0%Z, n);
     Direct.chess_is_stalemate := fun n => (Ret 0%Z, n);
     Direct.chess_is_in_check := fun n => (Ret 0%Z, n);
     Direct.chess_evaluate_position := fun n => (Ret 25%Z, n) |}.

Definition direct_host (answer : outcome (outcome EmModule)) : Direct.Host :=
  {| Direct.dynamic_import := fun _ => answer |}.

Definition direct_new : World Direct.ChessEngineWASM nat :=
  {| this := Direct.constructor; native := 0%nat; trace := [] |}.

Definition direct_loaded : World Direct.ChessEngineWASM nat :=
  snd (Direct.loadModule (direct_host (Ret (Ret full_module)))
         (lit "chess_wasm.wasm") (lit "chess_wasm.js") direct_new).

Definition direct_ready (E : Direct.Engine nat)
    : World Direct.ChessEngineWASM nat :=
  snd (Direct.init E direct_loaded).

(** The native state of the buffered sample engines: the teardown attempts
    and the text last written to the scratch region.  The allocator always
    answers [region]. *)
Definition buffered_engine (init_status : Z) (faults : nat) (region : Z)
    (best_status : Z) (best : jsstring) (count : Z) (legal : jsstring)
    : Buffered.Engine (nat * jsstring) :=
  {| Buffered.chess_init := fun n => (Ret init_status, n);
     Buffered.chess_cleanup := fun n =>
       (if (fst n <? faults)%nat then Throw (JsError "teardown trapped")
        else Ret tt, (S (fst n), snd n));
     Buffered.chess_set_position := fun fen n =>
       (Ret (if truthy fen then 0 else -1)%Z, n);
     Buffered.chess_get_fen := fun _ _ n => (Ret 0%Z, (fst n, start_fen));
     Buffered.chess_get_best_move := fun _ _ _ n =>
       (Ret best_status, (fst n, best));
     Buffered.chess_make_move := fun _ n => (Ret 0%Z, n);
     Buffered.chess_undo_move := fun n => (Ret 0%Z, n);
     Buffered.chess_get_legal_moves := fun _ _ n =>
       (Ret count, (fst n, legal));
     Buffered.chess_is_checkmate := fun n => (Ret 0%Z, n);
     Buffered.chess_is_stalemate := fun n => (Ret 0%Z, n);
     Buffered.chess_is_in_check := fun n => (Ret 0%Z, n);
     Buffered.chess_evaluate_position := fun n => (Ret 25%Z, n);
     Buffered.malloc := fun _ n => (region, n);
     Buffered.free := fun _ n => n;
     Buffered.UTF8ToString := fun _ n => Ret (snd n);
     Buffered.UTF8ArrayToString := fun _ n => Ret (snd n) |}.

Definition buffered_host (script : option js_exn)
    (factory : option (outcome EmModule)) : Buffered.Host :=
  {| Buffered.script_error := fun _ => script;
     Buffered.ChessEngine := fun _ =>
       match factory with
       | Some r => Some (fun _ => r)
       | None => None
       end |}.

Definition buffered_new : World Buffered.ChessEngineWASM (nat * jsstring) :=
  {| this := Buffered.constructor; native := (0%nat, []); trace := [] |}.

Definition buffered_loaded
    : World Buffered.ChessEngineWASM (nat * jsstring) :=
  snd (Buffered.loadModule (buffered_host None (Some (Ret full_module)))
         None buffered_new).

Definition buffered_ready (E : Buffered.Engine (nat * jsstring))
    : World Buffered.ChessEngineWASM (nat * jsstring) :=
  snd (Buffered.init E buffered_loaded).

(** A well-behaved engine of each generation, and the ones used to probe
    the corners of the binding. *)
Definition direct_good : Direct.Engine nat :=
  direct_engine 1 0 (lit "e2e4") (lit "e2e4,d2d4").

Definition buffered_good : Buffered.Engine (nat * jsstring) :=
  buffered_engine 0 0 1024 0 (lit "e2e4") 2 (lit "e2e4 d2d4").

(** Engines whose init entry point answers a failure status, in the
    convention of each generation. *)
Definition direct_refusing : Direct.Engine nat :=
  direct_engine 0 0 (lit "e2e4") (lit "e2e4,d2d4").

Definition buffered_refusing : Buffered.Engine (nat * jsstring) :=
  buffered_engine 1 0 1024 0 (lit "e2e4") 2 (lit "e2e4 d2d4").

(** Hosts on which the load fails: the fetch of the script is rejected,
    the binary is malformed, a symbol is missing, the memory helpers are
    missing. *)
Definition direct_host_offline : Direct.Host :=
  direct_host (Throw (JsError "Failed to fetch")).

Definition buffered_host_malformed : Buffered.Host :=
  buffered_host None (Some (Throw (JsError "CompileError"))).

Definition buffered_host_missing : Buffered.Host :=
  buffered_host None (Some (Ret (module_missing sym_chess_get_fen))).

Definition buffered_host_helpless : Buffered.Host :=
  buffered_host None (Some (Ret module_without_malloc)).

(** Engines whose first teardown traps. *)
Definition direct_trapping : Direct.Engine nat :=
  direct_engine 1 1 (lit "e2e4") (lit "e2e4,d2d4").

Definition buffered_trapping : Buffered.Engine (nat * jsstring) :=
  buffered_engine 0 1 1024 0 (lit "e2e4") 2 (lit "e2e4 d2d4").

(** Engines whose best-move entry point answers a token that is no move
    notation, and one that reports success and writes nothing. *)
Definition direct_garbled : Direct.Engine nat :=
  direct_engine 1 0 (lit "zz") (lit "e2e4,d2d4").

Definition buffered_silent : Buffered.Engine (nat * jsstring) :=
  buffered_engine 0 0 1024 0 [] 2 (lit "e2e4 d2d4").

(** Engines for a position without legal moves: an empty payload, and a
    payload of white space with a count of 0. *)
Definition direct_mated : Direct.Engine nat :=
  direct_engine 1 0 no_move [].

Definition buffered_mated : Buffered.Engine (nat * jsstring) :=
  buffered_engine 0 0 1024 0 no_move 0 (lit "  ").

(** Engines at the corners of the legal-move payload: a payload of one
    space in the comma-separated generation, and a count of 0 over a region
    that still holds a token. *)
Definition direct_spaced : Direct.Engine nat :=
  direct_engine 1 0 no_move (lit " ").

Definition buffered_stale : Buffered.Engine (nat * jsstring) :=
  buffered_engine 0 0 1024 0 no_move 0 (lit "e2e4").

(** An engine whose legal-move entry point reports a failure. *)
Definition buffered_failing : Buffered.Engine (nat * jsstring) :=
  buffered_engine 0 0 1024 0 no_move (-1) (lit "e2e4").

(** An engine whose allocator has no region left. *)
Definition buffered_exhausted : Buffered.Engine (nat * jsstring) :=
  buffered_engine 0 0 0 0 (lit "e2e4") 2 (lit "e2e4 d2d4").
(** An engine whose FEN entry point traps. *)
Definition buffered_crashing : Buffered.Engine (nat * jsstring) :=
  {| Buffered.chess_init := Buffered.chess_init buffered_good;
     Buffered.chess_cleanup := Buffered.chess_cleanup buffered_good;
     Buffered.chess_set_position := Buffered.chess_set_position buffered_good;
     Buffered.chess_get_fen := fun _ _ n =>
       (Throw (JsError "memory access out of bounds"), n);
     Buffered.chess_get_best_move :=
       Buffered.chess_get_best_move buffered_good;
     Buffered.chess_make_move := Buffered.chess_make_move buffered_good;
     Buffered.chess_undo_move := Buffered.chess_undo_move buffered_good;
     Buffered.chess_get_legal_moves :=
       Buffered.chess_get_legal_moves buffered_good;
     Buffered.chess_is_checkmate := Buffered.chess_is_checkmate buffered_good;
     Buffered.chess_is_stalemate := Buffered.chess_is_stalemate buffered_good;
     Buffered.chess_is_in_check := Buffered.chess_is_in_check buffered_good;
     Buffered.chess_evaluate_position :=
       Buffered.chess_evaluate_position buffered_good;
     Buffered.malloc := Buffered.malloc buffered_good;
     Buffered.free := Buffered.free buffered_good;
     Buffered.UTF8ToString := Buffered.UTF8ToString buffered_good;
     Buffered.UTF8ArrayToString := Buffered.UTF8ArrayToString buffered_good |}.




(** A module that exports the allocator and not the release helper, and a
    binding that was loaded, initialized, and then loaded once more, in
    vain, from such a module. *)
Definition module_without_free : EmModule :=
  {| cwrap := fun _ => None; has_malloc := true; has_free := false;
     has_UTF8ToString := true; has_UTF8ArrayToString := false |}.

Definition buffered_host_unreleasing : Buffered.Host :=
  buffered_host None (Some (Ret module_without_free)).

Definition buffered_reloaded (E : Buffered.Engine (nat * jsstring))
    : World Buffered.ChessEngineWASM (nat * jsstring) :=
  snd (Buffered.loadModule buffered_host_unreleasing None (buffered_ready E)).
End Samples.

(** The calls that [analyzePosition] issues once the position is set. *)
Definition Direct_analysis_calls (depth : Z) : list Direct.call :=
  [Direct.CallGetBestMove (Some depth); Direct.CallEvaluatePosition;
   Direct.CallGetLegalMoves; Direct.CallIsCheckmate; Direct.CallIsStalemate;
   Direct.CallIsInCheck; Direct.CallGetCurrentFen].

Definition Buffered_analysis_calls (depth : Z) : list Buffered.call :=
  [Buffered.CallGetBestMove (Some depth); Buffered.CallEvaluatePosition;
   Buffered.CallGetLegalMoves; Buffered.CallIsCheckmate;
   Buffered.CallIsStalemate; Buffered.CallIsInCheck;
   Buffered.CallGetCurrentFen].

(** ** The ways a load can fail *)

Definition throws (m : EmModule) (s : Sym) : bool :=
  match cwrap m s with Some _ => true | None => false end.

(** The dynamic import rejects (fetch or IO failure), the factory of the
    module rejects (malformed binary), or binding one of the symbols
    throws (symbol missing). *)
Definition Direct_load_fault (H : Direct.Host) (jsPath : jsstring) : bool :=
  match Direct.dynamic_import H jsPath with
  | Throw _ => true
  | Ret (Throw _) => true
  | Ret (Ret Module) => existsb (throws Module) all_syms
  end.

(** The script element reports an error, the script does not define
    [ChessEngine], the factory rejects, binding one of the symbols throws,
    or a memory helper is missing. *)
Definition Buffered_load_fault (H : Buffered.Host) (baseUrl : option jsstring)
    : bool :=
  let base :=
    normalizeBaseUrl
      (match baseUrl with Some u => u | None => default_baseUrl end) in
  let jsUrl := base ++ lit "/chess_wasm.js" in
  match Buffered.script_error H jsUrl with
  | Some _ => true
  | None =>
      match Buffered.ChessEngine H jsUrl with
      | None => true
      | Some factory =>
          match factory (base ++ lit "/chess_wasm.wasm") with
          | Throw _ => true
          | Ret Module =>
              existsb (throws Module) all_syms
              || negb (has_malloc Module) || negb (has_free Module)
          end
      end
  end.

(** What a load never touches: the native state, the record of native
    activity and the flag [isInitialized]. *)
Definition Direct_load_frame {N} (w w' : World Direct.ChessEngineWASM N)
    : Prop :=
  native w' = native w /\ trace w' = trace w /\
  Direct.isInitialized (this w') = Direct.isInitialized (this w).

Definition Buffered_load_frame {N} (w w' : World Buffered.ChessEngineWASM N)
    : Prop :=
  native w' = native w /\ trace w' = trace w /\
  Buffered.isInitialized (this w') = Buffered.isInitialized (this w).

(** ** The shape of a call that uses a scratch region

    The three text-producing methods of the buffered generation are
    instances of one shape: the guard, the request of a region of a fixed
    capacity, the failure on a null handle, and a body run under a [finally]
    that releases the region. *)
Definition Buffered_with_scratch {N A} (E : Buffered.Engine N)
    (bufferSize : Z) (message : string)
    (body : Z -> M (World Buffered.ChessEngineWASM N) A)
    : M (World Buffered.ChessEngineWASM N) A :=
  (Buffered.require_initialized ;;
   bufferPtr <- Buffered.call_malloc E bufferSize ;;
   if (bufferPtr =? 0)%Z then throw (JsError message)
   else try_finally (body bufferPtr) (Buffered.call_free E bufferPtr))%js.

(** ** Accounting for scratch regions *)

(** A computation that leaves the fields of the object alone and adds to
    the record of native activity neither an acquisition nor a release. *)
Definition quiet {O N A} (m : M (World O N) A) : Prop :=
  forall w,
    this (snd (m w)) = this w /\
    exists t, trace (snd (m w)) = trace w ++ t /\
              acquired t = 0%nat /\ released t = 0%nat.

(** A step between two worlds that releases every region it acquires. *)
Definition balanced {O N} (w w' : World O N) : Prop :=
  this w' = this w /\
  exists t, trace w' = trace w ++ t /\
            acquired t = released t /\ outstanding [] t = [].

(** ** Vocabulary of the further properties *)

(** The world after one wrapped native call that left the native state
    [n']: the object is as it was and the call is recorded. *)
Definition after_call {O N} (w : World O N) (s : Sym) (n' : N) : World O N :=
  {| this := this w; native := n'; trace := trace w ++ [EvCall s] |}.

(** The host value made of a native outcome: a returned value is
    translated, an exception goes through. *)
Definition map_outcome {A B} (f : A -> B) (r : outcome A) : outcome B :=
  match r with
  | Ret a => Ret (f a)
  | Throw e => Throw e
  end.

(** The native functions entered in a trace, in order. *)
Fixpoint calls_of (t : list Event) : list Sym :=
  match t with
  | [] => []
  | EvCall s :: t' => s :: calls_of t'
  | _ :: t' => calls_of t'
  end.

(** The native function that stands behind each Call Surface operation. *)
Definition Direct_symbol_of (c : Direct.call) : Sym :=
  match c with
  | Direct.CallSetPosition _ => sym_chess_set_position
  | Direct.CallGetBestMove _ => sym_chess_get_best_move
  | Direct.CallMakeMove _ => sym_chess_make_move
  | Direct.CallUndoMove => sym_chess_undo_move
  | Direct.CallGetLegalMoves => sym_chess_get_legal_moves
  | Direct.CallIsCheckmate => sym_chess_is_checkmate
  | Direct.CallIsStalemate => sym_chess_is_stalemate
  | Direct.CallIsInCheck => sym_chess_is_in_check
  | Direct.CallEvaluatePosition => sym_chess_evaluate_position
  | Direct.CallGetCurrentFen => sym_chess_get_fen
  end.

Definition Buffered_symbol_of (c : Buffered.call) : Sym :=
  match c with
  | Buffered.CallSetPosition _ => sym_chess_set_position
  | Buffered.CallGetBestMove _ => sym_chess_get_best_move
  | Buffered.CallMakeMove _ => sym_chess_make_move
  | Buffered.CallUndoMove => sym_chess_undo_move
  | Buffered.CallGetLegalMoves => sym_chess_get_legal_moves
  | Buffered.CallIsCheckmate => sym_chess_is_checkmate
  | Buffered.CallIsStalemate => sym_chess_is_stalemate
  | Buffered.CallIsInCheck => sym_chess_is_in_check
  | Buffered.CallEvaluatePosition => sym_chess_evaluate_position
  | Buffered.CallGetCurrentFen => sym_chess_get_fen
  end.

(** The native functions that [analyzePosition] enters when nothing stops
    it, in the order of the source. *)
Definition analysis_order : list Sym :=
  [sym_chess_set_position; sym_chess_get_best_move;
   sym_chess_evaluate_position; sym_chess_get_legal_moves;
   sym_chess_is_checkmate; sym_chess_is_stalemate; sym_chess_is_in_check;
   sym_chess_get_fen].

(** The text a native side writes for a list of tokens: the tokens with the
    separator between them ([Array.prototype.join] with a separator of one
    code unit). *)
Fixpoint join (sep : N) (l : list jsstring) : jsstring :=
  match l with
  | [] => []
  | [t] => t
  | t :: l' => t ++ sep :: join sep l'
  end.







(** The module that the host resolves a load to, when the script loads,
    defines the factory and the factory resolves. *)
Definition Buffered_module_of (H : Buffered.Host) (baseUrl : option jsstring)
    : option EmModule :=
  let base :=
    normalizeBaseUrl
      (match baseUrl with Some u => u | None => default_baseUrl end) in
  let jsUrl := base ++ lit "/chess_wasm.js" in
  match Buffered.script_error H jsUrl with
  | Some _ => None
  | None =>
      match Buffered.ChessEngine H jsUrl with
      | None => None
      | Some factory =>
          match factory (base ++ lit "/chess_wasm.wasm") with
          | Ret Module => Some Module
          | Throw _ => None
          end
      end
  end.

(** A computation that leaves the fields of the object alone and enters
    the native function [s] once, or not at all when it throws before the
    call (from the guard, from an unbound helper or wrapper, or from an
    allocator without a region). *)
Definition enters {O N A} (s : Sym) (m : M (World O N) A) : Prop :=
  forall w,
    this (snd (m w)) = this w /\
    exists t, trace (snd (m w)) = trace w ++ t /\
              (calls_of t = [s] \/
               (calls_of t = [] /\ exists e, fst (m w) = Throw e)).

(** A computation that leaves the fields of the object alone and enters
    native functions in the order of [l], from its head on and without a
    gap. *)
Definition in_order {O N A} (l : list Sym) (m : M (World O N) A) : Prop :=
  forall w,
    this (snd (m w)) = this w /\
    exists t, trace (snd (m w)) = trace w ++ t /\
              exists k, calls_of t = firstn k l.

(** * Properties *)

(** ** The computation monad *)

Lemma bind_ret_eq {W A B} (m : M W A) (k : A -> M W B) w a w' :
  m w = (Ret a, w') -> bind m k w = k a w'.
Proof. intros Hm. unfold bind. rewrite Hm. reflexivity. Qed.

Lemma bind_throw_eq {W A B} (m : M W A) (k : A -> M W B) w e w' :
  m w = (Throw e, w') -> bind m k w = (Throw e, w').
Proof. intros Hm. unfold bind. rewrite Hm. reflexivity. Qed.

Lemma try_catch_returns {W A} (m : M W A) (h : js_exn -> M W A) w :
  (forall e w1, exists a w2, h e w1 = (Ret a, w2)) ->
  exists a w', try_catch m h w = (Ret a, w').
Proof.
  intros Hh. unfold try_catch. destruct (m w) as [[a | e] w1].
  - exists a, w1. reflexivity.
  - apply Hh.
Qed.

Lemma jsstring_eqb_eq (a b : jsstring) : jsstring_eqb a b = true <-> a = b.
Proof.
  unfold jsstring_eqb. destruct (list_eq_dec N.eq_dec a b); split;
    intros; congruence.
Qed.

(** ** The lifecycle states *)

Lemma Direct_not_initialized (o : Direct.ChessEngineWASM) :
  Direct.state_of o <> Initialized <-> Direct.isInitialized o = false.
Proof.
  unfold Direct.state_of.
  destruct (Direct.isInitialized o), (Direct.isReady o); split;
    intros; congruence.
Qed.

Lemma Buffered_not_initialized (o : Buffered.ChessEngineWASM) :
  Buffered.state_of o <> Initialized <-> Buffered.isInitialized o = false.
Proof.
  unfold Buffered.state_of.
  destruct (Buffered.isInitialized o), (Buffered.isReady o); split;
    intros; congruence.
Qed.

Lemma Direct_guard_throws {N} (w : World Direct.ChessEngineWASM N) :
  Direct.isInitialized (this w) = false ->
  Direct.require_initialized w = (Throw not_initialized, w).
Proof. intros Hi. unfold Direct.require_initialized. rewrite Hi. reflexivity. Qed.

Lemma Buffered_guard_throws {N} (w : World Buffered.ChessEngineWASM N) :
  Buffered.isInitialized (this w) = false ->
  Buffered.require_initialized w = (Throw not_initialized, w).
Proof.
  intros Hi. unfold Buffered.require_initialized. rewrite Hi. reflexivity.
Qed.

(** A guarded method stops at its first statement. *)
Ltac stop_at_guard H :=
  repeat split;
  (apply bind_throw_eq;
   first [ apply Direct_guard_throws | apply Buffered_guard_throws ];
   exact H).

(** ** The Call Surface outside the Initialized state *)

(** C1.  In both generations, each of the ten Call Surface operations
    (setPosition, getBestMove, makeMove, undoMove, getLegalMoves,
    isCheckmate, isStalemate, isInCheck, evaluatePosition, getCurrentFen),
    invoked in a state other than Initialized, throws the error "Engine not
    initialized" and leaves the whole world as it was: no native call and no
    allocation is recorded and the native state is untouched. *)
Theorem call_surface_requires_initialized :
  (forall N (E : Direct.Engine N) (w : World Direct.ChessEngineWASM N)
          (fen move : jsstring) (depth : option Z),
      Direct.state_of (this w) <> Initialized ->
      Direct.setPosition E fen w = (Throw not_initialized, w) /\
      Direct.getBestMove E depth w = (Throw not_initialized, w) /\
      Direct.makeMove E move w = (Throw not_initialized, w) /\
      Direct.undoMove E w = (Throw not_initialized, w) /\
      Direct.getLegalMoves E w = (Throw not_initialized, w) /\
      Direct.isCheckmate E w = (Throw not_initialized, w) /\
      Direct.isStalemate E w = (Throw not_initialized, w) /\
      Direct.isInCheck E w = (Throw not_initialized, w) /\
      Direct.evaluatePosition E w = (Throw not_initialized, w) /\
      Direct.getCurrentFen E w = (Throw not_initialized, w)) /\
  (forall N (E : Buffered.Engine N) (w : World Buffered.ChessEngineWASM N)
          (fen move : jsstring) (depth : option Z),
      Buffered.state_of (this w) <> Initialized ->
      Buffered.setPosition E fen w = (Throw not_initialized, w) /\
      Buffered.getBestMove E depth w = (Throw not_initialized, w) /\
      Buffered.makeMove E move w = (Throw not_initialized, w) /\
      Buffered.undoMove E w = (Throw not_initialized, w) /\
      Buffered.getLegalMoves E w = (Throw not_initialized, w) /\
      Buffered.isCheckmate E w = (Throw not_initialized, w) /\
      Buffered.isStalemate E w = (Throw not_initialized, w) /\
      Buffered.isInCheck E w = (Throw not_initialized, w) /\
      Buffered.evaluatePosition E w = (Throw not_initialized, w) /\
      Buffered.getCurrentFen E w = (Throw not_initialized, w)).
Proof.
  split; intros N E w fen move depth Hs.
  - apply Direct_not_initialized in Hs. stop_at_guard Hs.
  - apply Buffered_not_initialized in Hs. stop_at_guard Hs.
Qed.

Lemma call_surface_requires_initialized_witness :
  Direct.state_of (this Samples.direct_loaded) <> Initialized /\
  Direct.getLegalMoves Samples.direct_good Samples.direct_loaded
    = (Throw not_initialized, Samples.direct_loaded) /\
  Buffered.state_of (this Samples.buffered_new) <> Initialized /\
  Buffered.getBestMove Samples.buffered_good (Some 6%Z) Samples.buffered_new
    = (Throw not_initialized, Samples.buffered_new).
Proof.
  assert (Hd : Direct.state_of (this Samples.direct_loaded) <> Initialized)
    by (vm_compute; discriminate).
  assert (Hb : Buffered.state_of (this Samples.buffered_new) <> Initialized)
    by (vm_compute; discriminate).
  split; [exact Hd | split]; [| split; [exact Hb |]].
  - exact (proj1 (proj2 (proj2 (proj2 (proj2
      (proj1 call_surface_requires_initialized _ Samples.direct_good
         Samples.direct_loaded [] [] None Hd)))))).
  - exact (proj1 (proj2
      (proj2 call_surface_requires_initialized _ Samples.buffered_good
         Samples.buffered_new [] [] (Some 6%Z) Hb))).
Defined.

(** ** The Analysis Orchestrator *)

(** Case analysis on the next call of a chain of calls. *)
Ltac next_call :=
  match goal with
  | |- context [match ?X with pair _ _ => _ end] =>
      lazymatch X with
      | context [match _ with pair _ _ => _ end] => fail
      | _ => idtac
      end;
      let a := fresh "a" in
      let e := fresh "e" in
      let w := fresh "w" in
      destruct X as [[a | e] w]
  end.

Lemma Direct_analyzePosition_returns {N} (E : Direct.Engine N) fen depth w :
  exists r w', Direct.analyzePosition E fen depth w = (Ret r, w').
Proof.
  unfold Direct.analyzePosition. apply try_catch_returns.
  intros e w1. eexists _, _. reflexivity.
Qed.

Lemma Buffered_analyzePosition_returns {N} (E : Buffered.Engine N)
    fen depth w :
  exists r w', Buffered.analyzePosition E fen depth w = (Ret r, w').
Proof.
  unfold Buffered.analyzePosition. apply try_catch_returns.
  intros e w1. eexists _, _. reflexivity.
Qed.

Lemma Direct_analyzePosition_fault {N} (E : Direct.Engine N) fen depth w :
  (forall e w1,
      Direct.setPosition E fen w = (Throw e, w1) ->
      Direct.analyzePosition E fen depth w
        = (Ret (ErrorReport (message_of e)), w1)) /\
  (forall w1 e w2,
      Direct.setPosition E fen w = (Ret true, w1) ->
      first_fault (Direct.invoke E)
        (Direct_analysis_calls (default_arg 4 depth)) w1 = Some (e, w2) ->
      Direct.analyzePosition E fen depth w
        = (Ret (ErrorReport (message_of e)), w2)).
Proof.
  split.
  - intros e w1 Hset. unfold Direct.analyzePosition, try_catch.
    rewrite (bind_throw_eq _ _ _ Hset). reflexivity.
  - intros w1 e w2 Hset. unfold Direct.analyzePosition, try_catch.
    rewrite (bind_ret_eq _ _ _ Hset).
    unfold Direct_analysis_calls, first_fault, Direct.invoke, bind, ret.
    cbn [negb].
    repeat (next_call; [| intros Hf; injection Hf as <- <-; reflexivity]).
    intros Hf. discriminate Hf.
Qed.

Lemma Buffered_analyzePosition_fault {N} (E : Buffered.Engine N)
    fen depth w :
  (forall e w1,
      Buffered.setPosition E fen w = (Throw e, w1) ->
      Buffered.analyzePosition E fen depth w
        = (Ret (ErrorReport (message_of e)), w1)) /\
  (forall w1 e w2,
      Buffered.setPosition E fen w = (Ret true, w1) ->
      first_fault (Buffered.invoke E)
        (Buffered_analysis_calls (default_arg 4 depth)) w1 = Some (e, w2) ->
      Buffered.analyzePosition E fen depth w
        = (Ret (ErrorReport (message_of e)), w2)).
Proof.
  split.
  - intros e w1 Hset. unfold Buffered.analyzePosition, try_catch.
    rewrite (bind_throw_eq _ _ _ Hset). reflexivity.
  - intros w1 e w2 Hset. unfold Buffered.analyzePosition, try_catch.
    rewrite (bind_ret_eq _ _ _ Hset).
    unfold Buffered_analysis_calls, first_fault, Buffered.invoke, bind, ret.
    cbn [negb].
    repeat (next_call; [| intros Hf; injection Hf as <- <-; reflexivity]).
    intros Hf. discriminate Hf.
Qed.

(** C4.  In both generations [analyzePosition] returns a report for every
    FEN, every depth and every world, whatever the engine does: no exception
    leaves it.  When [setPosition] throws, or when one of the calls issued
    after it (best move, evaluation, legal moves, the three state queries,
    the FEN) throws, the report is the one that carries the [error] field,
    holding the message of what was thrown. *)
Theorem analyzePosition_never_throws :
  (forall N (E : Direct.Engine N) (fen : jsstring) (depth : option Z)
          (w : World Direct.ChessEngineWASM N),
      (exists r w', Direct.analyzePosition E fen depth w = (Ret r, w')) /\
      (forall e w1,
          Direct.setPosition E fen w = (Throw e, w1) ->
          Direct.analyzePosition E fen depth w
            = (Ret (ErrorReport (message_of e)), w1)) /\
      (forall w1 e w2,
          Direct.setPosition E fen w = (Ret true, w1) ->
          first_fault (Direct.invoke E)
            (Direct_analysis_calls (default_arg 4 depth)) w1 = Some (e, w2) ->
          Direct.analyzePosition E fen depth w
            = (Ret (ErrorReport (message_of e)), w2))) /\
  (forall N (E : Buffered.Engine N) (fen : jsstring) (depth : option Z)
          (w : World Buffered.ChessEngineWASM N),
      (exists r w', Buffered.analyzePosition E fen depth w = (Ret r, w')) /\
      (forall e w1,
          Buffered.setPosition E fen w = (Throw e, w1) ->
          Buffered.analyzePosition E fen depth w
            = (Ret (ErrorReport (message_of e)), w1)) /\
      (forall w1 e w2,
          Buffered.setPosition E fen w = (Ret true, w1) ->
          first_fault (Buffered.invoke E)
            (Buffered_analysis_calls (default_arg 4 depth)) w1
            = Some (e, w2) ->
          Buffered.analyzePosition E fen depth w
            = (Ret (ErrorReport (message_of e)), w2))).
Proof.
  split; intros N E fen depth w.
  - split; [apply Direct_analyzePosition_returns |].
    apply Direct_analyzePosition_fault.
  - split; [apply Buffered_analyzePosition_returns |].
    apply Buffered_analyzePosition_fault.
Qed.

Lemma analyzePosition_never_throws_witness :
  Buffered.analyzePosition Samples.buffered_exhausted Samples.start_fen None
    (Samples.buffered_ready Samples.buffered_exhausted)
  = (Ret (ErrorReport
            (Some "Failed to allocate memory for best move buffer"%string)),
     snd (Buffered.getBestMove Samples.buffered_exhausted (Some 4%Z)
            (snd (Buffered.setPosition Samples.buffered_exhausted
                    Samples.start_fen
                    (Samples.buffered_ready Samples.buffered_exhausted))))).
Proof.
  apply (proj2 (proj2 (proj2 analyzePosition_never_throws _
           Samples.buffered_exhausted Samples.start_fen None
           (Samples.buffered_ready Samples.buffered_exhausted)))
           (snd (Buffered.setPosition Samples.buffered_exhausted
                   Samples.start_fen
                   (Samples.buffered_ready Samples.buffered_exhausted)))
           (JsError "Failed to allocate memory for best move buffer")).
  - vm_compute. reflexivity.
  - vm_compute. reflexivity.
Defined.

(** C5.  In both generations, when [setPosition(fen)] answers false inside
    [analyzePosition], the report is the one whose only field is [error],
    with the message "Invalid FEN position", and the world that
    [analyzePosition] leaves is the world that [setPosition] left: nothing
    was called, allocated or changed after it. *)
Theorem analyzePosition_invalid_fen :
  (forall N (E : Direct.Engine N) (fen : jsstring) (depth : option Z)
          (w w1 : World Direct.ChessEngineWASM N),
      Direct.setPosition E fen w = (Ret false, w1) ->
      Direct.analyzePosition E fen depth w
        = (Ret (ErrorReport (Some "Invalid FEN position"%string)), w1)) /\
  (forall N (E : Buffered.Engine N) (fen : jsstring) (depth : option Z)
          (w w1 : World Buffered.ChessEngineWASM N),
      Buffered.setPosition E fen w = (Ret false, w1) ->
      Buffered.analyzePosition E fen depth w
        = (Ret (ErrorReport (Some "Invalid FEN position"%string)), w1)).
Proof.
  split; intros N E fen depth w w1 Hset.
  - unfold Direct.analyzePosition, try_catch.
    rewrite (bind_ret_eq _ _ _ Hset). reflexivity.
  - unfold Buffered.analyzePosition, try_catch.
    rewrite (bind_ret_eq _ _ _ Hset). reflexivity.
Qed.

Lemma analyzePosition_invalid_fen_witness :
  trace (snd (Direct.analyzePosition Samples.direct_good [] (Some 3%Z)
                (Samples.direct_ready Samples.direct_good)))
    = [EvCall sym_chess_init; EvCall sym_chess_set_position] /\
  trace (snd (Buffered.analyzePosition Samples.buffered_good [] (Some 3%Z)
                (Samples.buffered_ready Samples.buffered_good)))
    = [EvCall sym_chess_init; EvCall sym_chess_set_position].
Proof.
  assert (Hd : Direct.setPosition Samples.direct_good []
                 (Samples.direct_ready Samples.direct_good)
               = (Ret false,
                  snd (Direct.setPosition Samples.direct_good []
                         (Samples.direct_ready Samples.direct_good))))
    by (vm_compute; reflexivity).
  assert (Hb : Buffered.setPosition Samples.buffered_good []
                 (Samples.buffered_ready Samples.buffered_good)
               = (Ret false,
                  snd (Buffered.setPosition Samples.buffered_good []
                         (Samples.buffered_ready Samples.buffered_good))))
    by (vm_compute; reflexivity).
  split.
  - rewrite (proj1 analyzePosition_invalid_fen _ Samples.direct_good []
               (Some 3%Z) _ _ Hd).
    vm_compute. reflexivity.
  - rewrite (proj2 analyzePosition_invalid_fen _ Samples.buffered_good []
               (Some 3%Z) _ _ Hb).
    vm_compute. reflexivity.
Defined.



(** ** The Lifecycle Controller *)

Lemma Direct_set_isInitialized_same (o : Direct.ChessEngineWASM) :
  Direct.set_isInitialized (Direct.isInitialized o) o = o.
Proof. destruct o. reflexivity. Qed.

Lemma Buffered_state_loaded (o : Buffered.ChessEngineWASM) :
  Buffered.state_of o = LoadedNotInitialized <->
  Buffered.isReady o = true /\ Buffered.isInitialized o = false.
Proof.
  unfold Buffered.state_of.
  destruct (Buffered.isInitialized o), (Buffered.isReady o); split;
    intros; try tauto; try discriminate; destruct H; discriminate.
Qed.

Lemma Direct_state_loaded (o : Direct.ChessEngineWASM) :
  Direct.state_of o = LoadedNotInitialized <->
  Direct.isReady o = true /\ Direct.isInitialized o = false.
Proof.
  unfold Direct.state_of.
  destruct (Direct.isInitialized o), (Direct.isReady o); split;
    intros; try tauto; try discriminate; destruct H; discriminate.
Qed.

(** C8.  In both generations, when [init] is called in the state
    Loaded-NotInitialized and the native init entry point answers a status
    other than the success code (1 in the direct generation, 0 in the
    buffered one), [init] answers false and the object is left as it was:
    the state is still Loaded-NotInitialized, not Initialized.  Only the
    native call itself is recorded. *)
Theorem init_native_failure :
  (forall N (E : Direct.Engine N) (w : World Direct.ChessEngineWASM N)
          (status : Z) (n' : N),
      Direct.state_of (this w) = LoadedNotInitialized ->
      Direct.wrappers (this w) sym_chess_init = true ->
      Direct.chess_init E (native w) = (Ret status, n') ->
      status <> 1%Z ->
      Direct.init E w
        = (Ret false,
           {| this := this w; native := n';
              trace := trace w ++ [EvCall sym_chess_init] |}) /\
      Direct.state_of (this (snd (Direct.init E w))) = LoadedNotInitialized) /\
  (forall N (E : Buffered.Engine N) (w : World Buffered.ChessEngineWASM N)
          (status : Z) (n' : N),
      Buffered.state_of (this w) = LoadedNotInitialized ->
      Buffered.wrappers (this w) sym_chess_init = true ->
      Buffered.chess_init E (native w) = (Ret status, n') ->
      status <> 0%Z ->
      Buffered.init E w
        = (Ret false,
           {| this := this w; native := n';
              trace := trace w ++ [EvCall sym_chess_init] |}) /\
      Buffered.state_of (this (snd (Buffered.init E w)))
        = LoadedNotInitialized).
Proof.
  split; intros N E w status n' Hs Hb Hn Hst.
  - pose proof Hs as Hs'. apply Direct_state_loaded in Hs' as [Hr Hi].
    assert (Hrun : Direct.init E w
                   = (Ret false,
                      {| this := this w; native := n';
                         trace := trace w ++ [EvCall sym_chess_init] |})).
    { unfold Direct.init, bind, call_native, assign. rewrite Hr, Hb, Hn.
      cbn. apply Z.eqb_neq in Hst. rewrite Hst.
      rewrite <- Hi at 1 2. rewrite Direct_set_isInitialized_same.
      rewrite Hi. reflexivity. }
    rewrite Hrun. split; [reflexivity | exact Hs].
  - pose proof Hs as Hs'. apply Buffered_state_loaded in Hs' as [Hr Hi].
    assert (Hrun : Buffered.init E w
                   = (Ret false,
                      {| this := this w; native := n';
                         trace := trace w ++ [EvCall sym_chess_init] |})).
    { unfold Buffered.init, bind, call_native, assign, ret.
      rewrite Hr, Hb, Hn. cbn. apply Z.eqb_neq in Hst. rewrite Hst.
      reflexivity. }
    rewrite Hrun. split; [reflexivity | exact Hs].
Qed.

Lemma init_native_failure_witness :
  fst (Direct.init Samples.direct_refusing Samples.direct_loaded) = Ret false /\
  fst (Buffered.init Samples.buffered_refusing Samples.buffered_loaded)
    = Ret false.
Proof.
  split.
  - rewrite (proj1 (proj1 init_native_failure _ Samples.direct_refusing
                      Samples.direct_loaded 0%Z 0%nat
                      ltac:(vm_compute; reflexivity)
                      ltac:(vm_compute; reflexivity)
                      ltac:(vm_compute; reflexivity)
                      ltac:(discriminate))).
    reflexivity.
  - rewrite (proj1 (proj2 init_native_failure _ Samples.buffered_refusing
                      Samples.buffered_loaded 1%Z (0%nat, [])
                      ltac:(vm_compute; reflexivity)
                      ltac:(vm_compute; reflexivity)
                      ltac:(vm_compute; reflexivity)
                      ltac:(discriminate))).
    reflexivity.
Defined.

Lemma Direct_state_initialized (o : Direct.ChessEngineWASM) :
  Direct.state_of o = Initialized <-> Direct.isInitialized o = true.
Proof.
  unfold Direct.state_of.
  destruct (Direct.isInitialized o), (Direct.isReady o); split;
    intros; congruence.
Qed.

Lemma Buffered_state_initialized (o : Buffered.ChessEngineWASM) :
  Buffered.state_of o = Initialized <-> Buffered.isInitialized o = true.
Proof.
  unfold Buffered.state_of.
  destruct (Buffered.isInitialized o), (Buffered.isReady o); split;
    intros; congruence.
Qed.

(** The claim C6 as it stands fails on an engine whose teardown traps: the
    first [cleanup] from the Initialized state throws to its caller and
    leaves the state Initialized, and a second call, whose teardown goes
    through, ends in Loaded-NotInitialized; two calls are not one. *)
Lemma cleanup_propagates_teardown_trap :
  Direct.state_of (this (Samples.direct_ready Samples.direct_trapping))
    = Initialized /\
  fst (Direct.cleanup Samples.direct_trapping
         (Samples.direct_ready Samples.direct_trapping))
    = Throw (JsError "teardown trapped") /\
  Direct.state_of
    (this (snd (Direct.cleanup Samples.direct_trapping
                  (Samples.direct_ready Samples.direct_trapping))))
    = Initialized /\
  Direct.state_of
    (this (snd (Direct.cleanup Samples.direct_trapping
             (snd (Direct.cleanup Samples.direct_trapping
                     (Samples.direct_ready Samples.direct_trapping))))))
    = LoadedNotInitialized /\
  fst (Buffered.cleanup Samples.buffered_trapping
         (Samples.buffered_ready Samples.buffered_trapping))
    = Throw (JsError "teardown trapped") /\
  Buffered.state_of
    (this (snd (Buffered.cleanup Samples.buffered_trapping
                  (Samples.buffered_ready Samples.buffered_trapping))))
    = Initialized.
Proof. vm_compute. repeat split. Qed.

(** C6, amended.  In both generations [cleanup] is a no-op unless the state
    is Initialized.  From the Initialized state of a loaded engine, when the
    native teardown returns, [cleanup] returns, the state becomes
    Loaded-NotInitialized and a second [cleanup] in a row changes nothing
    and calls nothing: two calls are one.  When the native teardown throws,
    [cleanup] lets the exception out and the object stays as it was,
    Initialized. *)
Theorem cleanup_idempotent_unless_teardown_throws :
  (forall N (E : Direct.Engine N) (w : World Direct.ChessEngineWASM N),
      (Direct.state_of (this w) <> Initialized ->
       Direct.cleanup E w = (Ret tt, w)) /\
      (forall n',
          Direct.state_of (this w) = Initialized ->
          Direct.isReady (this w) = true ->
          Direct.wrappers (this w) sym_chess_cleanup = true ->
          Direct.chess_cleanup E (native w) = (Ret tt, n') ->
          let w1 := {| this := Direct.set_isInitialized false (this w);
                       native := n';
                       trace := trace w ++ [EvCall sym_chess_cleanup] |} in
          Direct.cleanup E w = (Ret tt, w1) /\
          Direct.state_of (this w1) = LoadedNotInitialized /\
          Direct.cleanup E w1 = (Ret tt, w1)) /\
      (forall e n',
          Direct.state_of (this w) = Initialized ->
          Direct.wrappers (this w) sym_chess_cleanup = true ->
          Direct.chess_cleanup E (native w) = (Throw e, n') ->
          Direct.cleanup E w
            = (Throw e,
               {| this := this w; native := n';
                  trace := trace w ++ [EvCall sym_chess_cleanup] |}))) /\
  (forall N (E : Buffered.Engine N) (w : World Buffered.ChessEngineWASM N),
      (Buffered.state_of (this w) <> Initialized ->
       Buffered.cleanup E w = (Ret tt, w)) /\
      (forall n',
          Buffered.state_of (this w) = Initialized ->
          Buffered.isReady (this w) = true ->
          Buffered.wrappers (this w) sym_chess_cleanup = true ->
          Buffered.chess_cleanup E (native w) = (Ret tt, n') ->
          let w1 := {| this := Buffered.set_isInitialized false (this w);
                       native := n';
                       trace := trace w ++ [EvCall sym_chess_cleanup] |} in
          Buffered.cleanup E w = (Ret tt, w1) /\
          Buffered.state_of (this w1) = LoadedNotInitialized /\
          Buffered.cleanup E w1 = (Ret tt, w1)) /\
      (forall e n',
          Buffered.state_of (this w) = Initialized ->
          Buffered.wrappers (this w) sym_chess_cleanup = true ->
          Buffered.chess_cleanup E (native w) = (Throw e, n') ->
          Buffered.cleanup E w
            = (Throw e,
               {| this := this w; native := n';
                  trace := trace w ++ [EvCall sym_chess_cleanup] |}))).
Proof.
  split; intros N E w; (split; [| split]).
  - intros Hs. apply Direct_not_initialized in Hs.
    unfold Direct.cleanup. rewrite Hs. reflexivity.
  - intros n' Hs Hr Hb Hn w1. apply Direct_state_initialized in Hs.
    split; [| split].
    + unfold Direct.cleanup, bind, call_native, assign.
      rewrite Hs, Hb, Hn. reflexivity.
    + unfold Direct.state_of. cbn. rewrite Hr. reflexivity.
    + reflexivity.
  - intros e n' Hs Hb Hn. apply Direct_state_initialized in Hs.
    unfold Direct.cleanup, bind, call_native, assign.
    rewrite Hs, Hb, Hn. reflexivity.
  - intros Hs. apply Buffered_not_initialized in Hs.
    unfold Buffered.cleanup. rewrite Hs. reflexivity.
  - intros n' Hs Hr Hb Hn w1. apply Buffered_state_initialized in Hs.
    split; [| split].
    + unfold Buffered.cleanup, bind, call_native, assign.
      rewrite Hs, Hb, Hn. reflexivity.
    + unfold Buffered.state_of. cbn. rewrite Hr. reflexivity.
    + reflexivity.
  - intros e n' Hs Hb Hn. apply Buffered_state_initialized in Hs.
    unfold Buffered.cleanup, bind, call_native, assign.
    rewrite Hs, Hb, Hn. reflexivity.
Qed.

Lemma cleanup_idempotent_unless_teardown_throws_witness :
  Direct.state_of
    (this (snd (Direct.cleanup Samples.direct_good
                  (Samples.direct_ready Samples.direct_good))))
    = LoadedNotInitialized /\
  Buffered.cleanup Samples.buffered_good Samples.buffered_new
    = (Ret tt, Samples.buffered_new) /\
  fst (Buffered.cleanup Samples.buffered_trapping
         (Samples.buffered_ready Samples.buffered_trapping))
    = Throw (JsError "teardown trapped").
Proof.
  split; [| split].
  - rewrite (proj1 (proj1 (proj2 (proj1
               cleanup_idempotent_unless_teardown_throws _
               Samples.direct_good
               (Samples.direct_ready Samples.direct_good)))
               1%nat
               ltac:(vm_compute; reflexivity) ltac:(vm_compute; reflexivity)
               ltac:(vm_compute; reflexivity) ltac:(vm_compute; reflexivity))).
    vm_compute. reflexivity.
  - apply (proj1 (proj2 cleanup_idempotent_unless_teardown_throws _
                    Samples.buffered_good Samples.buffered_new)).
    vm_compute. discriminate.
  - rewrite (proj2 (proj2 (proj2 cleanup_idempotent_unless_teardown_throws _
               Samples.buffered_trapping
               (Samples.buffered_ready Samples.buffered_trapping)))
               (JsError "teardown trapped") (1%nat, [])
               ltac:(vm_compute; reflexivity) ltac:(vm_compute; reflexivity)
               ltac:(vm_compute; reflexivity)).
    reflexivity.
Defined.

(** ** Loading *)

Lemma Direct_bind_wrappers_frame {N} (m : EmModule) (ss : list Sym)
    (w : World Direct.ChessEngineWASM N) :
  Direct_load_frame w (snd (Direct.bind_wrappers m ss w)) /\
  Direct.isReady (this (snd (Direct.bind_wrappers m ss w)))
    = Direct.isReady (this w) /\
  (if existsb (throws m) ss
   then exists e, fst (Direct.bind_wrappers m ss w) = Throw e
   else fst (Direct.bind_wrappers m ss w) = Ret tt).
Proof.
  revert w. induction ss as [| s ss IH]; intros w.
  - cbn. unfold Direct_load_frame. auto.
  - cbn [Direct.bind_wrappers existsb]. unfold bind, Direct.bind_wrapper, throws.
    destruct (cwrap m s) as [e |] eqn:Hc.
    + cbn. unfold Direct_load_frame. repeat split; eauto.
    + unfold assign at 1 2 3 4.
      specialize (IH {| this := Direct.set_wrapper s (this w);
                        native := native w; trace := trace w |}).
      destruct IH as [[Hn [Ht Hi]] [Hr Hf]].
      cbn [orb]. unfold Direct_load_frame.
      rewrite Hn, Ht, Hi, Hr. repeat split. exact Hf.
Qed.

Lemma Buffered_bind_wrappers_frame {N} (m : EmModule) (ss : list Sym)
    (w : World Buffered.ChessEngineWASM N) :
  Buffered_load_frame w (snd (Buffered.bind_wrappers m ss w)) /\
  Buffered.isReady (this (snd (Buffered.bind_wrappers m ss w)))
    = Buffered.isReady (this w) /\
  (if existsb (throws m) ss
   then exists e, fst (Buffered.bind_wrappers m ss w) = Throw e
   else fst (Buffered.bind_wrappers m ss w) = Ret tt).
Proof.
  revert w. induction ss as [| s ss IH]; intros w.
  - cbn. unfold Buffered_load_frame. auto.
  - cbn [Buffered.bind_wrappers existsb].
    unfold bind, Buffered.bind_wrapper, throws.
    destruct (cwrap m s) as [e |] eqn:Hc.
    + cbn. unfold Buffered_load_frame. repeat split; eauto.
    + unfold assign at 1 2 3 4.
      specialize (IH {| this := Buffered.set_wrapper s (this w);
                        native := native w; trace := trace w |}).
      destruct IH as [[Hn [Ht Hi]] [Hr Hf]].
      cbn [orb]. unfold Buffered_load_frame.
      rewrite Hn, Ht, Hi, Hr. repeat split. exact Hf.
Qed.

Lemma Direct_loadModule_spec {N} (H : Direct.Host) (wasmPath jsPath : jsstring)
    (w : World Direct.ChessEngineWASM N) :
  fst (Direct.loadModule H wasmPath jsPath w)
    = Ret (negb (Direct_load_fault H jsPath)) /\
  Direct_load_frame w (snd (Direct.loadModule H wasmPath jsPath w)) /\
  Direct.isReady (this (snd (Direct.loadModule H wasmPath jsPath w)))
    = (if Direct_load_fault H jsPath then Direct.isReady (this w) else true).
Proof.
  destruct (Direct.loadModule H wasmPath jsPath w) as [r w'] eqn:Hrun.
  revert Hrun.
  unfold Direct.loadModule, try_catch, bind, Direct_load_fault,
    Direct_load_frame.
  destruct (Direct.dynamic_import H jsPath) as [[m | e] | e];
    [| cbn; intros [= <- <-]; auto ..].
  unfold assign, Direct.setupFunctionWrappers.
  cbn [this Direct.set_module Direct.module].
  set (w0 := {| this := Direct.set_module m (this w);
                native := native w; trace := trace w |}).
  pose proof (Direct_bind_wrappers_frame m all_syms w0)
    as [[Hn [Ht Hi]] [Hr Hf]].
  unfold all_syms in *.
  match goal with
  | |- context [Direct.bind_wrappers ?m ?l ?w] =>
      destruct (Direct.bind_wrappers m l w) as [[[] | e1] w1]
  end;
    destruct (existsb _ _); cbn in *;
    try (destruct Hf; discriminate); try discriminate;
    intros [= <- <-]; cbn; rewrite ?Hn, ?Ht, ?Hi, ?Hr; auto.
Qed.

Lemma Buffered_loadModule_spec {N} (H : Buffered.Host)
    (baseUrl : option jsstring) (w : World Buffered.ChessEngineWASM N) :
  fst (Buffered.loadModule H baseUrl w)
    = Ret (negb (Buffered_load_fault H baseUrl)) /\
  Buffered_load_frame w (snd (Buffered.loadModule H baseUrl w)) /\
  Buffered.isReady (this (snd (Buffered.loadModule H baseUrl w)))
    = (if Buffered_load_fault H baseUrl
       then Buffered.isReady (this w) else true).
Proof.
  destruct (Buffered.loadModule H baseUrl w) as [r w'] eqn:Hrun.
  revert Hrun.
  unfold Buffered.loadModule, try_catch, bind, Buffered_load_fault,
    Buffered_load_frame, Buffered.loadScript.
  cbv zeta.
  destruct (Buffered.script_error H _) as [e |];
    [cbn; intros [= <- <-]; auto |].
  unfold ret at 1.
  destruct (Buffered.ChessEngine H _) as [factory |];
    [| cbn; intros [= <- <-]; auto].
  destruct (factory _) as [m | e];
    [| cbn; intros [= <- <-]; auto].
  unfold assign, Buffered.setupFunctionWrappers.
  cbn [this Buffered.set_module Buffered.module]. unfold bind, assign.
  set (w0 := {| this := Buffered.set_module m (this w);
                native := native w; trace := trace w |}).
  pose proof (Buffered_bind_wrappers_frame m all_syms w0)
    as [[Hn [Ht Hi]] [Hr Hf]].
  unfold all_syms in *.
  match goal with
  | |- context [Buffered.bind_wrappers ?m ?l ?w] =>
      destruct (Buffered.bind_wrappers m l w) as [[[] | e1] w1]
  end;
    destruct (existsb _ _); cbn in *;
    try (destruct Hf; discriminate); try discriminate;
    destruct (has_malloc m), (has_free m); cbn;
    intros [= <- <-]; cbn; rewrite ?Hn, ?Ht, ?Hi, ?Hr; auto.
Qed.

Lemma Direct_invoke_not_initialized {N} (E : Direct.Engine N)
    (c : Direct.call) (w : World Direct.ChessEngineWASM N) :
  Direct.isInitialized (this w) = false ->
  Direct.invoke E c w = (Throw not_initialized, w).
Proof.
  intros Hi. destruct c; unfold Direct.invoke; apply bind_throw_eq;
    apply bind_throw_eq; apply Direct_guard_throws; exact Hi.
Qed.

Lemma Buffered_invoke_not_initialized {N} (E : Buffered.Engine N)
    (c : Buffered.call) (w : World Buffered.ChessEngineWASM N) :
  Buffered.isInitialized (this w) = false ->
  Buffered.invoke E c w = (Throw not_initialized, w).
Proof.
  intros Hi. destruct c; unfold Buffered.invoke; apply bind_throw_eq;
    apply bind_throw_eq; apply Buffered_guard_throws; exact Hi.
Qed.

Lemma Direct_state_unloaded (o : Direct.ChessEngineWASM) :
  Direct.state_of o = Unloaded <->
  Direct.isReady o = false /\ Direct.isInitialized o = false.
Proof.
  unfold Direct.state_of.
  destruct (Direct.isInitialized o), (Direct.isReady o); split;
    intros; try tauto; try discriminate; destruct H; discriminate.
Qed.

Lemma Buffered_state_unloaded (o : Buffered.ChessEngineWASM) :
  Buffered.state_of o = Unloaded <->
  Buffered.isReady o = false /\ Buffered.isInitialized o = false.
Proof.
  unfold Buffered.state_of.
  destruct (Buffered.isInitialized o), (Buffered.isReady o); split;
    intros; try tauto; try discriminate; destruct H; discriminate.
Qed.

(** A load without a fault answers true and marks the binding ready. *)
Lemma loadModule_success :
  (forall N (H : Direct.Host) (wasmPath jsPath : jsstring)
          (w : World Direct.ChessEngineWASM N),
      Direct_load_fault H jsPath = false ->
      fst (Direct.loadModule H wasmPath jsPath w) = Ret true /\
      Direct.isReady (this (snd (Direct.loadModule H wasmPath jsPath w)))
        = true) /\
  (forall N (H : Buffered.Host) (baseUrl : option jsstring)
          (w : World Buffered.ChessEngineWASM N),
      Buffered_load_fault H baseUrl = false ->
      fst (Buffered.loadModule H baseUrl w) = Ret true /\
      Buffered.isReady (this (snd (Buffered.loadModule H baseUrl w)))
        = true).
Proof.
  split.
  - intros N H wasmPath jsPath w Hf.
    destruct (Direct_loadModule_spec H wasmPath jsPath w) as [Hr [_ Hy]].
    rewrite Hf in Hr, Hy. auto.
  - intros N H baseUrl w Hf.
    destruct (Buffered_loadModule_spec H baseUrl w) as [Hr [_ Hy]].
    rewrite Hf in Hr, Hy. auto.
Qed.

(** C9.  In both generations, when the load meets a fault (the fetch of the
    script or of the module is rejected, the binary is refused by its
    factory, the script does not define the factory, binding a symbol
    throws, a memory helper is missing), [loadModule] does not throw: it
    answers false, its failure result.  Called in the state Unloaded it
    leaves the state Unloaded: the binding is not marked ready, the native
    state and the record of native activity are untouched, and no wrapper
    can be reached through the binding, since [init] throws "WASM module not
    loaded yet" and every Call Surface operation throws "Engine not
    initialized", without a native call. *)
Theorem loadModule_failure_stays_unloaded :
  (forall N (E : Direct.Engine N) (H : Direct.Host)
          (wasmPath jsPath : jsstring) (w : World Direct.ChessEngineWASM N),
      Direct_load_fault H jsPath = true ->
      Direct.state_of (this w) = Unloaded ->
      exists w',
        Direct.loadModule H wasmPath jsPath w = (Ret false, w') /\
        Direct.state_of (this w') = Unloaded /\
        Direct.isReady (this w') = false /\
        native w' = native w /\ trace w' = trace w /\
        Direct.init E w' = (Throw not_loaded, w') /\
        (forall c, Direct.invoke E c w' = (Throw not_initialized, w'))) /\
  (forall N (E : Buffered.Engine N) (H : Buffered.Host)
          (baseUrl : option jsstring) (w : World Buffered.ChessEngineWASM N),
      Buffered_load_fault H baseUrl = true ->
      Buffered.state_of (this w) = Unloaded ->
      exists w',
        Buffered.loadModule H baseUrl w = (Ret false, w') /\
        Buffered.state_of (this w') = Unloaded /\
        Buffered.isReady (this w') = false /\
        native w' = native w /\ trace w' = trace w /\
        Buffered.init E w' = (Throw not_loaded, w') /\
        (forall c, Buffered.invoke E c w' = (Throw not_initialized, w'))).
Proof.
  split.
  - intros N E H wasmPath jsPath w Hf Hs.
    apply Direct_state_unloaded in Hs as [Hr Hi].
    destruct (Direct_loadModule_spec H wasmPath jsPath w)
      as [Hres [[Hn [Ht Hi']] Hr']].
    destruct (Direct.loadModule H wasmPath jsPath w) as [r w'].
    cbn [fst snd] in *. rewrite Hf in Hres, Hr'. cbn in Hres. subst r.
    rewrite Hr in Hr'. rewrite Hi in Hi'.
    exists w'. repeat split; auto.
    + apply Direct_state_unloaded. auto.
    + unfold Direct.init. rewrite Hr'. reflexivity.
    + intros c. apply Direct_invoke_not_initialized. exact Hi'.
  - intros N E H baseUrl w Hf Hs.
    apply Buffered_state_unloaded in Hs as [Hr Hi].
    destruct (Buffered_loadModule_spec H baseUrl w)
      as [Hres [[Hn [Ht Hi']] Hr']].
    destruct (Buffered.loadModule H baseUrl w) as [r w'].
    cbn [fst snd] in *. rewrite Hf in Hres, Hr'. cbn in Hres. subst r.
    rewrite Hr in Hr'. rewrite Hi in Hi'.
    exists w'. repeat split; auto.
    + apply Buffered_state_unloaded. auto.
    + unfold Buffered.init. rewrite Hr'. reflexivity.
    + intros c. apply Buffered_invoke_not_initialized. exact Hi'.
Qed.

Lemma loadModule_failure_stays_unloaded_witness :
  (exists w',
      Direct.loadModule Samples.direct_host_offline (lit "chess_wasm.wasm")
        (lit "chess_wasm.js") Samples.direct_new = (Ret false, w') /\
      Direct.state_of (this w') = Unloaded) /\
  (exists w',
      Buffered.loadModule Samples.buffered_host_missing None
        Samples.buffered_new = (Ret false, w') /\
      Buffered.state_of (this w') = Unloaded).
Proof.
  split.
  - destruct (proj1 loadModule_failure_stays_unloaded _ Samples.direct_good
                Samples.direct_host_offline (lit "chess_wasm.wasm")
                (lit "chess_wasm.js") Samples.direct_new
                ltac:(vm_compute; reflexivity) ltac:(vm_compute; reflexivity))
      as [w' [Hrun [Hs _]]].
    exists w'. split; assumption.
  - destruct (proj2 loadModule_failure_stays_unloaded _ Samples.buffered_good
                Samples.buffered_host_missing None Samples.buffered_new
                ltac:(vm_compute; reflexivity) ltac:(vm_compute; reflexivity))
      as [w' [Hrun [Hs _]]].
    exists w'. split; assumption.
Defined.

(** ** The best move *)

(** The translation of the native token into the host result. *)
Lemma token_translation (token : jsstring) :
  (token = [] \/ token = no_move ->
   (if truthy token && negb (jsstring_eqb token (lit "0000"))
    then Some token else None) = None) /\
  (token <> [] -> token <> no_move ->
   (if truthy token && negb (jsstring_eqb token (lit "0000"))
    then Some token else None) = Some token).
Proof.
  split.
  - intros [-> | ->]; reflexivity.
  - intros Hne Hns. destruct token as [| c token]; [congruence |].
    cbn [truthy andb].
    destruct (jsstring_eqb (c :: token) (lit "0000")) eqn:Heq;
      [| reflexivity].
    apply jsstring_eqb_eq in Heq. contradiction.
Qed.

Lemma token_translation_inv (token m : jsstring) :
  (if truthy token && negb (jsstring_eqb token (lit "0000"))
   then Some token else None) = Some m ->
  m = token /\ m <> [] /\ m <> no_move.
Proof.
  destruct token as [| c token]; [discriminate |]. cbn [truthy andb].
  destruct (jsstring_eqb (c :: token) (lit "0000")) eqn:Heq;
    [discriminate |].
  intros [= <-]. repeat split; [discriminate |].
  intros Hs. rewrite Hs in Heq. vm_compute in Heq. discriminate Heq.
Qed.

(** The claim C2 as it stands fails in two ways.  The binding does not
    check the notation: a native token "zz" is returned as it is.  And the
    result is null also for an empty token, which is not the sentinel,
    under a success status. *)
Lemma getBestMove_returns_unchecked_token :
  fst (Direct.getBestMove Samples.direct_garbled None
         (Samples.direct_ready Samples.direct_garbled))
    = Ret (Some (lit "zz")) /\
  well_formed_move (lit "zz") = false /\
  fst (Buffered.getBestMove Samples.buffered_silent None
         (Samples.buffered_ready Samples.buffered_silent))
    = Ret None /\
  Buffered.chess_get_best_move Samples.buffered_silent 1024 32 4
    (native (Samples.buffered_ready Samples.buffered_silent))
    = (Ret 0%Z, (0%nat, [])) /\
  jsstring_eqb [] no_move = false.
Proof. vm_compute. repeat split. Qed.

(** A call that uses a scratch region, when the region is granted: the body
    runs in the world that holds the region and the region is released on
    the way out, whatever the outcome of the body. *)
Lemma Buffered_with_scratch_run {N A} (E : Buffered.Engine N)
    (bufferSize : Z) (message : string)
    (body : Z -> M (World Buffered.ChessEngineWASM N) A)
    (w : World Buffered.ChessEngineWASM N) (ptr : Z) (n1 : N) :
  Buffered.isInitialized (this w) = true ->
  Buffered._malloc (this w) = true ->
  Buffered.malloc E bufferSize (native w) = (ptr, n1) ->
  ptr <> 0%Z ->
  Buffered_with_scratch E bufferSize message body w
    = try_finally (body ptr) (Buffered.call_free E ptr)
        {| this := this w; native := n1;
           trace := trace w ++ [EvMalloc bufferSize ptr] |}.
Proof.
  intros Hi Hm Ha Hp.
  unfold Buffered_with_scratch, bind, Buffered.require_initialized,
    Buffered.call_malloc.
  rewrite Hi, Hm, Ha. apply Z.eqb_neq in Hp. rewrite Hp. reflexivity.
Qed.

(** C2, amended.  The host result of [getBestMove] on an Initialized
    engine.  In the direct generation it is null when the native token is
    empty or is the sentinel "0000", and otherwise the native token itself,
    unchanged and unchecked.  In the buffered generation, on a binding
    whose release helper [_free] is bound and once the region is granted,
    it is null when the native status is not 0, and when the status is 0
    and the decoded token is empty or the sentinel; otherwise it is the
    decoded token itself.  In both, a move that is returned is never empty
    and never "0000", and it is the token the native side gave.  What the
    buffered generation does when [_free] is not bound is a defect of the
    code and is left out here. *)
Theorem getBestMove_translates_native_token :
  (forall N (E : Direct.Engine N) (w : World Direct.ChessEngineWASM N)
          (depth : option Z) (token : jsstring) (n' : N),
      Direct.state_of (this w) = Initialized ->
      Direct.wrappers (this w) sym_chess_get_best_move = true ->
      Direct.chess_get_best_move E (default_arg 4 depth) (native w)
        = (Ret token, n') ->
      let w' := {| this := this w; native := n';
                   trace := trace w ++ [EvCall sym_chess_get_best_move] |} in
      (token = [] \/ token = no_move ->
       Direct.getBestMove E depth w = (Ret None, w')) /\
      (token <> [] -> token <> no_move ->
       Direct.getBestMove E depth w = (Ret (Some token), w'))) /\
  (forall N (E : Buffered.Engine N) (w : World Buffered.ChessEngineWASM N)
          (depth : option Z) (ptr status : Z) (n1 n2 : N),
      Buffered.state_of (this w) = Initialized ->
      Buffered._malloc (this w) = true ->
      Buffered._free (this w) = true ->
      Buffered.wrappers (this w) sym_chess_get_best_move = true ->
      Buffered.malloc E 32 (native w) = (ptr, n1) ->
      ptr <> 0%Z ->
      Buffered.chess_get_best_move E ptr 32 (default_arg 4 depth) n1
        = (Ret status, n2) ->
      let w2 := {| this := this w; native := n2;
                   trace := trace w ++ [EvMalloc 32 ptr;
                                        EvCall sym_chess_get_best_move] |} in
      let w' := {| this := this w; native := Buffered.free E ptr n2;
                   trace := trace w ++ [EvMalloc 32 ptr;
                                        EvCall sym_chess_get_best_move;
                                        EvFree ptr] |} in
      (status <> 0%Z -> Buffered.getBestMove E depth w = (Ret None, w')) /\
      (forall token,
          status = 0%Z ->
          Buffered.decodeCString E ptr w2 = (Ret token, w2) ->
          (token = [] \/ token = no_move ->
           Buffered.getBestMove E depth w = (Ret None, w')) /\
          (token <> [] -> token <> no_move ->
           Buffered.getBestMove E depth w = (Ret (Some token), w')))) /\
  (forall N (E : Direct.Engine N) (w w' : World Direct.ChessEngineWASM N)
          (depth : option Z) (m : jsstring),
      Direct.getBestMove E depth w = (Ret (Some m), w') ->
      m <> [] /\ m <> no_move) /\
  (forall N (E : Buffered.Engine N) (w w' : World Buffered.ChessEngineWASM N)
          (depth : option Z) (m : jsstring),
      Buffered.getBestMove E depth w = (Ret (Some m), w') ->
      m <> [] /\ m <> no_move).
Proof.
  split; [| split; [| split]].
  - intros N E w depth token n' Hs Hb Hn w'.
    apply Direct_state_initialized in Hs.
    assert (Hrun : Direct.getBestMove E depth w
              = (Ret (if truthy token && negb (jsstring_eqb token (lit "0000"))
                      then Some token else None), w')).
    { unfold Direct.getBestMove, bind, Direct.require_initialized,
        Direct.wrapped, call_native, ret.
      rewrite Hs. cbn [this native trace]. rewrite Hb, Hn. reflexivity. }
    rewrite Hrun. destruct (token_translation token) as [Hnull Hmove].
    split; intros; [rewrite Hnull | rewrite Hmove]; auto.
  - intros N E w depth ptr status n1 n2 Hs Hm Hf Hb Ha Hp Hn w2 w'.
    apply Buffered_state_initialized in Hs.
    change (Buffered.getBestMove E depth w)
      with (Buffered_with_scratch E 32
              "Failed to allocate memory for best move buffer"
              (fun bufferPtr =>
                 (status <- Buffered.wrapped sym_chess_get_best_move
                    (Buffered.chess_get_best_move E bufferPtr 32
                       (default_arg 4 depth)) ;;
                  if negb (status =? 0)%Z then ret None
                  else
                    move <- Buffered.decodeCString E bufferPtr ;;
                    ret (if truthy move
                            && negb (jsstring_eqb move (lit "0000"))
                         then Some move else None))%js) w).
    rewrite (@Buffered_with_scratch_run _ _ E _ _ _ _ _ _ Hs Hm Ha Hp).
    unfold try_finally, bind, Buffered.wrapped, call_native.
    cbn [this native trace]. rewrite Hb, Hn.
    rewrite <- app_assoc. cbn [app]. fold w2.
    split.
    + intros Hst. apply Z.eqb_neq in Hst. rewrite Hst. cbn [negb].
      unfold ret, Buffered.call_free, w2. cbn [this native trace]. rewrite Hf.
      unfold w'. rewrite <- app_assoc. reflexivity.
    + intros token -> Hd. cbn [Z.eqb negb]. rewrite Hd.
      unfold ret, Buffered.call_free, w2. cbn [this native trace]. rewrite Hf.
      unfold w'. rewrite <- app_assoc. cbn [app].
      destruct (token_translation token) as [Hnull Hmove].
      split; intros; [rewrite Hnull | rewrite Hmove]; auto.
  - intros N E w w' depth m.
    unfold Direct.getBestMove, bind, ret.
    destruct (Direct.require_initialized w) as [[[] | e] w1];
      [| discriminate].
    destruct (Direct.wrapped _ _ w1) as [[token | e] w2]; [| discriminate].
    intros [= Hm _]. apply token_translation_inv in Hm. tauto.
  - intros N E w w' depth m.
    unfold Buffered.getBestMove, bind, ret, try_finally.
    destruct (Buffered.require_initialized w) as [[[] | e] w1];
      [| discriminate].
    destruct (Buffered.call_malloc E 32 w1) as [[ptr | e] w2];
      [| discriminate].
    destruct (ptr =? 0)%Z; [discriminate |].
    destruct (Buffered.wrapped _ _ w2) as [[status | e] w3].
    + destruct (negb (status =? 0)%Z).
      * destruct (Buffered.call_free E ptr w3) as [[[] | e] w4];
          discriminate.
      * destruct (Buffered.decodeCString E ptr w3) as [[token | e] w4];
          destruct (Buffered.call_free E ptr w4) as [[[] | e'] w5];
          try discriminate.
        intros [= Hm _]. apply token_translation_inv in Hm. tauto.
    + destruct (Buffered.call_free E ptr w3) as [[[] | e'] w4];
        discriminate.
Qed.

Lemma getBestMove_translates_native_token_witness :
  fst (Direct.getBestMove Samples.direct_good None
         (Samples.direct_ready Samples.direct_good))
    = Ret (Some (lit "e2e4")) /\
  fst (Buffered.getBestMove Samples.buffered_good (Some 6%Z)
         (Samples.buffered_ready Samples.buffered_good))
    = Ret (Some (lit "e2e4")) /\
  lit "e2e4" <> no_move.
Proof.
  destruct getBestMove_translates_native_token as [Hd [Hb [Hnd Hnb]]].
  assert (Hne : lit "e2e4" <> []) by (vm_compute; discriminate).
  assert (Hns : lit "e2e4" <> no_move) by (vm_compute; discriminate).
  split; [| split].
  - destruct (Hd _ Samples.direct_good
                (Samples.direct_ready Samples.direct_good) None
                (lit "e2e4") 0%nat
                ltac:(vm_compute; reflexivity) ltac:(vm_compute; reflexivity)
                ltac:(vm_compute; reflexivity)) as [_ Hmove].
    rewrite (Hmove Hne Hns). reflexivity.
  - destruct (Hb _ Samples.buffered_good
                (Samples.buffered_ready Samples.buffered_good) (Some 6%Z)
                1024%Z 0%Z (0%nat, []) (0%nat, lit "e2e4")
                ltac:(vm_compute; reflexivity) ltac:(vm_compute; reflexivity)
                ltac:(vm_compute; reflexivity) ltac:(vm_compute; reflexivity)
                ltac:(vm_compute; reflexivity) ltac:(discriminate)
                ltac:(vm_compute; reflexivity)) as [_ Hok].
    destruct (Hok (lit "e2e4") eq_refl ltac:(vm_compute; reflexivity))
      as [_ Hmove].
    rewrite (Hmove Hne Hns). reflexivity.
  - apply (Hnb _ Samples.buffered_good
             (Samples.buffered_ready Samples.buffered_good)
             (snd (Buffered.getBestMove Samples.buffered_good (Some 6%Z)
                     (Samples.buffered_ready Samples.buffered_good)))
             (Some 6%Z) (lit "e2e4")).
    vm_compute. reflexivity.
Defined.

(** ** The legal moves *)

Lemma filter_length_no_empty (l : list jsstring) :
  ~ In [] (filter (fun m : jsstring => (0 <? List.length m)%nat) l).
Proof.
  intros Hin. apply filter_In in Hin as [_ Hlen]. discriminate Hlen.
Qed.

Lemma filter_truthy_no_empty (l : list jsstring) :
  ~ In [] (filter truthy l).
Proof.
  intros Hin. apply filter_In in Hin as [_ Ht]. discriminate Ht.
Qed.

Lemma trimStart_blank (s : jsstring) :
  forallb isWhiteSpace s = true -> trimStart s = [].
Proof.
  induction s as [| c s IH]; [reflexivity |].
  cbn [forallb trimStart]. intros Hb.
  apply andb_true_iff in Hb as [Hc Hs]. rewrite Hc. exact (IH Hs).
Qed.

Lemma trim_blank (s : jsstring) :
  forallb isWhiteSpace s = true -> trim s = [].
Proof.
  intros Hb. unfold trim. rewrite (trimStart_blank s Hb). reflexivity.
Qed.

(** The claim C7 as it stands fails at two corners.  The comma-separated
    generation does not trim: on an Initialized engine a blank payload of
    one space is returned as one token, the space, not as the empty
    sequence.  The buffered generation reads the native count only as a
    failure flag: under a count of 0, zero legal moves, it still returns the
    token found in the region. *)
Lemma getLegalMoves_payload_corners :
  Direct.state_of (this (Samples.direct_ready Samples.direct_spaced))
    = Initialized /\
  Direct.chess_get_legal_moves Samples.direct_spaced
    (native (Samples.direct_ready Samples.direct_spaced))
    = (Ret (lit " "), 0%nat) /\
  forallb isWhiteSpace (lit " ") = true /\
  fst (Direct.getLegalMoves Samples.direct_spaced
         (Samples.direct_ready Samples.direct_spaced)) = Ret [lit " "] /\
  Buffered.state_of (this (Samples.buffered_ready Samples.buffered_stale))
    = Initialized /\
  fst (Buffered.chess_get_legal_moves Samples.buffered_stale 1024 4096
         (native (Samples.buffered_ready Samples.buffered_stale)))
    = Ret 0%Z /\
  fst (Buffered.getLegalMoves Samples.buffered_stale
         (Samples.buffered_ready Samples.buffered_stale))
    = Ret [lit "e2e4"].
Proof. vm_compute. repeat split. Qed.

(** C7, amended.  In both generations a sequence returned by
    [getLegalMoves] never holds an empty token, so it is never the
    one-element sequence of an empty token.  On an Initialized engine the
    direct generation splits the payload on the comma and drops the empty
    pieces, which gives the empty sequence for the empty payload; the
    buffered generation, on a binding whose release helper [_free] is bound
    and once the region is granted, gives the empty sequence when the
    native count is negative and, otherwise, trims the decoded payload,
    splits it on runs of white space and drops the empty pieces, which
    gives the empty sequence for a payload that is empty or all white
    space.  What the buffered generation does when [_free] is not bound is
    a defect of the code and is left out here. *)
Theorem getLegalMoves_never_empty_token :
  (forall N (E : Direct.Engine N) (w w' : World Direct.ChessEngineWASM N)
          (l : list jsstring),
      Direct.getLegalMoves E w = (Ret l, w') -> ~ In [] l) /\
  (forall N (E : Buffered.Engine N) (w w' : World Buffered.ChessEngineWASM N)
          (l : list jsstring),
      Buffered.getLegalMoves E w = (Ret l, w') -> ~ In [] l) /\
  (forall N (E : Direct.Engine N) (w : World Direct.ChessEngineWASM N)
          (payload : jsstring) (n' : N),
      Direct.state_of (this w) = Initialized ->
      Direct.wrappers (this w) sym_chess_get_legal_moves = true ->
      Direct.chess_get_legal_moves E (native w) = (Ret payload, n') ->
      let w' := {| this := this w; native := n';
                   trace := trace w ++ [EvCall sym_chess_get_legal_moves] |} in
      Direct.getLegalMoves E w
        = (Ret (filter (fun m : jsstring => (0 <? List.length m)%nat)
                  (split 44 payload)), w') /\
      (payload = [] -> Direct.getLegalMoves E w = (Ret [], w'))) /\
  (forall N (E : Buffered.Engine N) (w : World Buffered.ChessEngineWASM N)
          (ptr count : Z) (n1 n2 : N),
      Buffered.state_of (this w) = Initialized ->
      Buffered._malloc (this w) = true ->
      Buffered._free (this w) = true ->
      Buffered.wrappers (this w) sym_chess_get_legal_moves = true ->
      Buffered.malloc E 4096 (native w) = (ptr, n1) ->
      ptr <> 0%Z ->
      Buffered.chess_get_legal_moves E ptr 4096 n1 = (Ret count, n2) ->
      let w2 := {| this := this w; native := n2;
                   trace := trace w ++ [EvMalloc 4096 ptr;
                                        EvCall sym_chess_get_legal_moves] |} in
      let w' := {| this := this w; native := Buffered.free E ptr n2;
                   trace := trace w ++ [EvMalloc 4096 ptr;
                                        EvCall sym_chess_get_legal_moves;
                                        EvFree ptr] |} in
      ((count < 0)%Z -> Buffered.getLegalMoves E w = (Ret [], w')) /\
      (forall payload,
          (0 <= count)%Z ->
          Buffered.decodeCString E ptr w2 = (Ret payload, w2) ->
          Buffered.getLegalMoves E w
            = (Ret (filter truthy (split_whitespace (trim payload))), w') /\
          (forallb isWhiteSpace payload = true ->
           Buffered.getLegalMoves E w = (Ret [], w')))).
Proof.
  split; [| split; [| split]].
  - intros N E w w' l.
    unfold Direct.getLegalMoves, bind, ret.
    destruct (Direct.require_initialized w) as [[[] | e] w1];
      [| discriminate].
    destruct (Direct.wrapped _ _ w1) as [[payload | e] w2]; [| discriminate].
    intros [= <- _]. destruct (truthy payload);
      [apply filter_length_no_empty | intros []].
  - intros N E w w' l.
    unfold Buffered.getLegalMoves, bind, ret, try_finally.
    destruct (Buffered.require_initialized w) as [[[] | e] w1];
      [| discriminate].
    destruct (Buffered.call_malloc E 4096 w1) as [[ptr | e] w2];
      [| discriminate].
    destruct (ptr =? 0)%Z; [discriminate |].
    destruct (Buffered.wrapped _ _ w2) as [[count | e] w3].
    + destruct (count <? 0)%Z.
      * destruct (Buffered.call_free E ptr w3) as [[[] | e] w4];
          [| discriminate].
        intros [= <- _]. intros [].
      * destruct (Buffered.decodeCString E ptr w3) as [[payload | e] w4].
        -- destruct (negb (truthy (trim payload)));
             destruct (Buffered.call_free E ptr w4) as [[[] | e'] w5];
             try discriminate; intros [= <- _];
             [intros [] | apply filter_truthy_no_empty].
        -- destruct (Buffered.call_free E ptr w4) as [[[] | e'] w5];
             discriminate.
    + destruct (Buffered.call_free E ptr w3) as [[[] | e'] w4];
        discriminate.
  - intros N E w payload n' Hs Hb Hn w'.
    apply Direct_state_initialized in Hs.
    assert (Hrun : Direct.getLegalMoves E w
              = (Ret (filter (fun m : jsstring => (0 <? List.length m)%nat)
                        (split 44 payload)), w')).
    { unfold Direct.getLegalMoves, bind, Direct.require_initialized,
        Direct.wrapped, call_native, ret.
      rewrite Hs. cbn [this native trace]. rewrite Hb, Hn.
      destruct payload; reflexivity. }
    split; [exact Hrun |]. intros ->. exact Hrun.
  - intros N E w ptr count n1 n2 Hs Hm Hf Hb Ha Hp Hn w2 w'.
    apply Buffered_state_initialized in Hs.
    change (Buffered.getLegalMoves E w)
      with (Buffered_with_scratch E 4096
              "Failed to allocate memory for legal moves buffer"
              (fun bufferPtr =>
                 (count <- Buffered.wrapped sym_chess_get_legal_moves
                    (Buffered.chess_get_legal_moves E bufferPtr 4096) ;;
                  if (count <? 0)%Z then ret []
                  else
                    decoded <- Buffered.decodeCString E bufferPtr ;;
                    let movesStr := trim decoded in
                    if negb (truthy movesStr) then ret []
                    else ret (filter truthy (split_whitespace movesStr)))%js)
              w).
    rewrite (@Buffered_with_scratch_run _ _ E _ _ _ _ _ _ Hs Hm Ha Hp).
    unfold try_finally, bind, Buffered.wrapped, call_native.
    cbn [this native trace]. rewrite Hb, Hn.
    rewrite <- app_assoc. cbn [app]. fold w2.
    split.
    + intros Hc. apply Z.ltb_lt in Hc. rewrite Hc.
      unfold ret, Buffered.call_free, w2. cbn [this native trace]. rewrite Hf.
      unfold w'. rewrite <- app_assoc. reflexivity.
    + intros payload Hc Hd. apply Z.ltb_ge in Hc. rewrite Hc, Hd.
      assert (Hrun :
        (let '(r, w'0) :=
           (if negb (truthy (trim payload)) then ret []
            else ret (filter truthy (split_whitespace (trim payload)))) w2 in
         match Buffered.call_free E ptr w'0 with
         | (Ret _, w'') => (r, w'')
         | (Throw e, w'') => (Throw e, w'')
         end)
        = (Ret (filter truthy (split_whitespace (trim payload))), w')).
      { destruct (trim payload) as [| c t]; cbn [truthy negb];
          unfold ret, Buffered.call_free, w2; cbn [this native trace];
          rewrite Hf; unfold w'; rewrite <- app_assoc; reflexivity. }
      split; [exact Hrun |].
      intros Hblank. rewrite Hrun, (trim_blank payload Hblank). reflexivity.
Qed.

Lemma getLegalMoves_never_empty_token_witness :
  fst (Direct.getLegalMoves Samples.direct_mated
         (Samples.direct_ready Samples.direct_mated)) = Ret [] /\
  fst (Buffered.getLegalMoves Samples.buffered_mated
         (Samples.buffered_ready Samples.buffered_mated)) = Ret [] /\
  fst (Buffered.getLegalMoves Samples.buffered_failing
         (Samples.buffered_ready Samples.buffered_failing)) = Ret [] /\
  ~ In [] [lit "e2e4"; lit "d2d4"].
Proof.
  destruct getLegalMoves_never_empty_token as [Hd [Hb [Hrd Hrb]]].
  split; [| split; [| split]].
  - destruct (Hrd _ Samples.direct_mated
                (Samples.direct_ready Samples.direct_mated) [] 0%nat
                ltac:(vm_compute; reflexivity) ltac:(vm_compute; reflexivity)
                ltac:(vm_compute; reflexivity)) as [_ Hempty].
    rewrite (Hempty eq_refl). reflexivity.
  - destruct (Hrb _ Samples.buffered_mated
                (Samples.buffered_ready Samples.buffered_mated)
                1024%Z 0%Z (0%nat, []) (0%nat, lit "  ")
                ltac:(vm_compute; reflexivity) ltac:(vm_compute; reflexivity)
                ltac:(vm_compute; reflexivity) ltac:(vm_compute; reflexivity)
                ltac:(vm_compute; reflexivity) ltac:(discriminate)
                ltac:(vm_compute; reflexivity)) as [_ Hok].
    destruct (Hok (lit "  ") ltac:(lia) ltac:(vm_compute; reflexivity))
      as [_ Hblank].
    rewrite (Hblank ltac:(vm_compute; reflexivity)). reflexivity.
  - destruct (Hrb _ Samples.buffered_failing
                (Samples.buffered_ready Samples.buffered_failing)
                1024%Z (-1)%Z (0%nat, []) (0%nat, lit "e2e4")
                ltac:(vm_compute; reflexivity) ltac:(vm_compute; reflexivity)
                ltac:(vm_compute; reflexivity) ltac:(vm_compute; reflexivity)
                ltac:(vm_compute; reflexivity) ltac:(discriminate)
                ltac:(vm_compute; reflexivity)) as [Hneg _].
    rewrite (Hneg ltac:(lia)). reflexivity.
  - apply (Hd _ Samples.direct_good
             (Samples.direct_ready Samples.direct_good)
             (snd (Direct.getLegalMoves Samples.direct_good
                     (Samples.direct_ready Samples.direct_good)))).
    vm_compute. reflexivity.
Defined.

(** ** The Buffer Arena *)

Lemma acquired_app (t1 t2 : list Event) :
  acquired (t1 ++ t2) = (acquired t1 + acquired t2)%nat.
Proof.
  induction t1 as [| [s | size ptr | ptr] t1 IH]; cbn; auto.
  destruct (ptr =? 0)%Z; cbn; auto.
Qed.

Lemma released_app (t1 t2 : list Event) :
  released (t1 ++ t2) = (released t1 + released t2)%nat.
Proof.
  induction t1 as [| [s | size ptr | ptr] t1 IH]; cbn; auto.
Qed.

Lemma outstanding_app (held : list Z) (t1 t2 : list Event) :
  outstanding held (t1 ++ t2) = outstanding (outstanding held t1) t2.
Proof.
  revert held. induction t1 as [| [s | size ptr | ptr] t1 IH]; intros held;
    cbn; auto.
  destruct (ptr =? 0)%Z; auto.
Qed.

Lemma outstanding_quiet (held : list Z) (t : list Event) :
  acquired t = 0%nat -> released t = 0%nat -> outstanding held t = held.
Proof.
  revert held. induction t as [| [s | size ptr | ptr] t IH]; intros held;
    cbn; auto; try discriminate.
  destruct (ptr =? 0)%Z; [auto | discriminate].
Qed.

Lemma quiet_ret {O N A} (a : A) : quiet (@ret (World O N) A a).
Proof.
  intros w. cbn. split; [reflexivity |].
  exists []. rewrite app_nil_r. auto.
Qed.

Lemma quiet_throw {O N A} (e : js_exn) : quiet (@throw (World O N) A e).
Proof.
  intros w. cbn. split; [reflexivity |].
  exists []. rewrite app_nil_r. auto.
Qed.

Lemma quiet_bind {O N A B} (m : M (World O N) A) (k : A -> M (World O N) B) :
  quiet m -> (forall a, quiet (k a)) -> quiet (bind m k).
Proof.
  intros Hm Hk w. unfold bind. specialize (Hm w).
  destruct (m w) as [[a | e] w1]; cbn [snd] in *; [| exact Hm].
  destruct Hm as [Ho [t1 [Ht1 [Ha1 Hr1]]]].
  destruct (Hk a w1) as [Ho2 [t2 [Ht2 [Ha2 Hr2]]]].
  split; [congruence |].
  exists (t1 ++ t2). rewrite Ht2, Ht1, app_assoc, acquired_app, released_app.
  rewrite Ha1, Ha2, Hr1, Hr2. auto.
Qed.

Lemma quiet_call_native {O N A} (slot : O -> bool) (s : Sym)
    (f : N -> outcome A * N) :
  quiet (call_native slot s f).
Proof.
  intros w. unfold call_native. destruct (slot (this w)).
  - destruct (f (native w)) as [r n']. cbn. split; [reflexivity |].
    exists [EvCall s]. auto.
  - cbn. split; [reflexivity |]. exists []. rewrite app_nil_r. auto.
Qed.

Lemma Direct_quiet_guard {N} : quiet (@Direct.require_initialized N).
Proof.
  intros w. unfold Direct.require_initialized.
  destruct (Direct.isInitialized (this w)); cbn;
    (split; [reflexivity |]); exists []; rewrite app_nil_r; auto.
Qed.

Lemma Buffered_quiet_guard {N} : quiet (@Buffered.require_initialized N).
Proof.
  intros w. unfold Buffered.require_initialized.
  destruct (Buffered.isInitialized (this w)); cbn;
    (split; [reflexivity |]); exists []; rewrite app_nil_r; auto.
Qed.

Lemma Buffered_quiet_decode {N} (E : Buffered.Engine N) (ptr : Z) :
  quiet (Buffered.decodeCString E ptr).
Proof.
  intros w. unfold Buffered.decodeCString.
  destruct (Buffered._decodeCString (this w)) as [m |];
    [destruct (ptr =? 0)%Z;
     [| destruct (has_UTF8ToString m);
        [| destruct (has_UTF8ArrayToString m)]] |];
    cbn; (split; [reflexivity |]); exists []; rewrite app_nil_r; auto.
Qed.

(** Quietness of a method built from the guard, wrapped calls, decoding
    and tests. *)
Ltac prove_quiet :=
  repeat first
    [ apply quiet_ret
    | apply quiet_throw
    | apply quiet_call_native
    | apply Direct_quiet_guard
    | apply Buffered_quiet_guard
    | apply Buffered_quiet_decode
    | apply quiet_bind; [| intros ?]
    | match goal with
      | |- quiet (if ?b then _ else _) => destruct b
      | |- quiet (match ?x with Some _ => _ | None => _ end) => destruct x
      end ].

Lemma quiet_balanced {O N A} (m : M (World O N) A) (w : World O N) :
  quiet m -> balanced w (snd (m w)).
Proof.
  intros Hm. destruct (Hm w) as [Ho [t [Ht [Ha Hr]]]].
  split; [exact Ho |]. exists t. split; [exact Ht |].
  split; [congruence | apply outstanding_quiet; assumption].
Qed.

Lemma balanced_refl {O N} (w : World O N) : balanced w w.
Proof.
  split; [reflexivity |]. exists []. rewrite app_nil_r. auto.
Qed.

Lemma balanced_trans {O N} (w1 w2 w3 : World O N) :
  balanced w1 w2 -> balanced w2 w3 -> balanced w1 w3.
Proof.
  intros [Ho1 [t1 [Ht1 [Hc1 Hh1]]]] [Ho2 [t2 [Ht2 [Hc2 Hh2]]]].
  split; [congruence |]. exists (t1 ++ t2).
  rewrite Ht2, Ht1, app_assoc, acquired_app, released_app, outstanding_app.
  rewrite Hh1, Hh2, Hc1, Hc2. auto.
Qed.

(** A call that uses a scratch region releases what it acquires on every
    exit: when the guard throws, when the allocator is not bound or has no
    region, when the body returns and when the body throws. *)
Lemma Buffered_with_scratch_balanced {N A} (E : Buffered.Engine N)
    (bufferSize : Z) (message : string)
    (body : Z -> M (World Buffered.ChessEngineWASM N) A)
    (w : World Buffered.ChessEngineWASM N) :
  (forall ptr, quiet (body ptr)) ->
  (Buffered.isInitialized (this w) = true -> Buffered._free (this w) = true) ->
  balanced w (snd (Buffered_with_scratch E bufferSize message body w)).
Proof.
  intros Hbody Hfree.
  unfold Buffered_with_scratch, bind, Buffered.require_initialized.
  destruct (Buffered.isInitialized (this w)); [| apply balanced_refl].
  specialize (Hfree eq_refl). unfold Buffered.call_malloc.
  destruct (Buffered._malloc (this w)); [| apply balanced_refl].
  destruct (Buffered.malloc E bufferSize (native w)) as [ptr n1].
  destruct (ptr =? 0)%Z eqn:Hp.
  - cbn. split; [reflexivity |]. exists [EvMalloc bufferSize ptr].
    cbn. rewrite Hp. auto.
  - unfold try_finally.
    set (w1 := {| this := this w; native := n1;
                  trace := trace w ++ [EvMalloc bufferSize ptr] |}).
    destruct (Hbody ptr w1) as [Ho [t [Ht [Ha Hr]]]].
    destruct (body ptr w1) as [r w2]. cbn [snd] in *.
    unfold Buffered.call_free. rewrite Ho. cbn [this w1]. rewrite Hfree.
    cbn [snd this trace]. split; [reflexivity |].
    exists ([EvMalloc bufferSize ptr] ++ t ++ [EvFree ptr]).
    rewrite Ht. cbn [trace w1]. rewrite <- !app_assoc.
    split; [reflexivity |].
    rewrite !acquired_app, !released_app, !outstanding_app, Ha, Hr.
    cbn. rewrite Hp. cbn.
    rewrite (outstanding_quiet [ptr] t Ha Hr). cbn.
    rewrite Z.eqb_refl. auto.
Qed.

Lemma bind_ret_world {W A B} (m : M W A) (f : A -> B) (w : W) :
  snd (bind m (fun a => ret (f a)) w) = snd (m w).
Proof. unfold bind, ret. destruct (m w) as [[a | e] w1]; reflexivity. Qed.

Lemma Buffered_invoke_balanced {N} (E : Buffered.Engine N)
    (c : Buffered.call) (w : World Buffered.ChessEngineWASM N) :
  (Buffered.isInitialized (this w) = true -> Buffered._free (this w) = true) ->
  balanced w (snd (Buffered.invoke E c w)).
Proof.
  intros Hfree. destruct c; unfold Buffered.invoke; rewrite bind_ret_world;
    try solve [ apply quiet_balanced;
                unfold Buffered.setPosition, Buffered.makeMove,
                  Buffered.undoMove, Buffered.isCheckmate,
                  Buffered.isStalemate, Buffered.isInCheck,
                  Buffered.evaluatePosition, Buffered.wrapped;
                prove_quiet ].
  - change (Buffered.getBestMove E depth)
      with (Buffered_with_scratch E 32
              "Failed to allocate memory for best move buffer"
              (fun bufferPtr =>
                 (status <- Buffered.wrapped sym_chess_get_best_move
                    (Buffered.chess_get_best_move E bufferPtr 32
                       (default_arg 4 depth)) ;;
                  if negb (status =? 0)%Z then ret None
                  else
                    move <- Buffered.decodeCString E bufferPtr ;;
                    ret (if truthy move
                            && negb (jsstring_eqb move (lit "0000"))
                         then Some move else None))%js)).
    apply Buffered_with_scratch_balanced; [| exact Hfree].
    intros ptr. unfold Buffered.wrapped. prove_quiet.
  - change (Buffered.getLegalMoves E)
      with (Buffered_with_scratch E 4096
              "Failed to allocate memory for legal moves buffer"
              (fun bufferPtr =>
                 (count <- Buffered.wrapped sym_chess_get_legal_moves
                    (Buffered.chess_get_legal_moves E bufferPtr 4096) ;;
                  if (count <? 0)%Z then ret []
                  else
                    decoded <- Buffered.decodeCString E bufferPtr ;;
                    let movesStr := trim decoded in
                    if negb (truthy movesStr) then ret []
                    else ret (filter truthy (split_whitespace movesStr)))%js)).
    apply Buffered_with_scratch_balanced; [| exact Hfree].
    intros ptr. unfold Buffered.wrapped. cbv zeta. prove_quiet.
  - change (Buffered.getCurrentFen E)
      with (Buffered_with_scratch E 128
              "Failed to allocate memory for FEN buffer"
              (fun bufferPtr =>
                 (status <- Buffered.wrapped sym_chess_get_fen
                    (Buffered.chess_get_fen E bufferPtr 128) ;;
                  if negb (status =? 0)%Z then ret []
                  else Buffered.decodeCString E bufferPtr)%js)).
    apply Buffered_with_scratch_balanced; [| exact Hfree].
    intros ptr. unfold Buffered.wrapped. prove_quiet.
Qed.

Lemma Direct_invoke_quiet {N} (E : Direct.Engine N) (c : Direct.call) :
  quiet (Direct.invoke E c).
Proof.
  destruct c; unfold Direct.invoke, Direct.setPosition, Direct.getBestMove,
    Direct.makeMove, Direct.undoMove, Direct.getLegalMoves,
    Direct.isCheckmate, Direct.isStalemate, Direct.isInCheck,
    Direct.evaluatePosition, Direct.getCurrentFen, Direct.wrapped;
    cbv zeta; prove_quiet.
Qed.

(** X23.  Where the release helper is bound, no region leaks.  In the
    buffered generation, for every sequence of Call Surface calls (among
    them getBestMove, getLegalMoves and getCurrentFen, the ones that use a
    scratch region) issued from a world in which the engine is not
    initialized or [_free] is bound, as a [loadModule] that answered true
    leaves it, and whatever each call does (it returns a value, returns a
    failure value, or throws from the guard, the allocator, the native call
    or the decoding), the regions acquired over the sequence are as many as
    the regions released, and no handle is left outstanding at the end.
    The direct generation acquires and releases no region at all. *)
Theorem scratch_regions_never_leak :
  (forall N (E : Buffered.Engine N) (cs : list Buffered.call)
          (w : World Buffered.ChessEngineWASM N),
      (Buffered.isInitialized (this w) = true ->
       Buffered._free (this w) = true) ->
      exists t,
        trace (run_calls (Buffered.invoke E) cs w) = trace w ++ t /\
        acquired t = released t /\ outstanding [] t = []) /\
  (forall N (E : Direct.Engine N) (cs : list Direct.call)
          (w : World Direct.ChessEngineWASM N),
      exists t,
        trace (run_calls (Direct.invoke E) cs w) = trace w ++ t /\
        acquired t = 0%nat /\ released t = 0%nat).
Proof.
  split.
  - intros N E cs w Hfree.
    assert (Hb : balanced w (run_calls (Buffered.invoke E) cs w)).
    { revert w Hfree. induction cs as [| c cs IH]; intros w Hfree.
      - apply balanced_refl.
      - cbn [run_calls].
        pose proof (Buffered_invoke_balanced E c w Hfree) as Hstep.
        apply (balanced_trans Hstep). apply IH.
        destruct Hstep as [Ho _]. rewrite Ho. exact Hfree. }
    destruct Hb as [_ Ht]. exact Ht.
  - intros N E cs w. revert w. induction cs as [| c cs IH]; intros w.
    + exists []. cbn. rewrite app_nil_r. auto.
    + cbn [run_calls].
      destruct (Direct_invoke_quiet E c w) as [_ [t1 [Ht1 [Ha1 Hr1]]]].
      destruct (IH (snd (Direct.invoke E c w))) as [t2 [Ht2 [Ha2 Hr2]]].
      exists (t1 ++ t2).
      rewrite Ht2, Ht1, app_assoc, acquired_app, released_app.
      rewrite Ha1, Ha2, Hr1, Hr2. auto.
Qed.

Lemma scratch_regions_never_leak_witness :
  exists t,
    trace (run_calls (Buffered.invoke Samples.buffered_good)
             [Buffered.CallGetBestMove None; Buffered.CallGetLegalMoves;
              Buffered.CallGetCurrentFen]
             (Samples.buffered_ready Samples.buffered_good))
      = trace (Samples.buffered_ready Samples.buffered_good) ++ t /\
    acquired t = released t /\ outstanding [] t = [].
Proof.
  apply (proj1 scratch_regions_never_leak).
  intros _. vm_compute. reflexivity.
Defined.

(** C3.  The claim fails on the code.  Take a binding that was loaded and
    initialized, and load it once more from a module that exports [_malloc]
    and not [_free].  The load answers false and the engine is still
    Initialized, but [setupFunctionWrappers] stored the helpers of the
    module before it checked them, so [_free] is no longer bound.  Then
    [getBestMove] is granted a region and enters the native function, the
    call of [_free] in the finally block throws, and the region is never
    released: one region acquired, none released, its handle outstanding.
    Over [getBestMove], [getLegalMoves] and [getCurrentFen] in a row three
    regions are acquired and none is released. *)
Theorem scratch_region_leaks_after_failed_reload :
  let E := Samples.buffered_good in
  let w := Samples.buffered_reloaded E in
  let w1 := snd (Buffered.getBestMove E None w) in
  let w3 := run_calls (Buffered.invoke E)
              [Buffered.CallGetBestMove None; Buffered.CallGetLegalMoves;
               Buffered.CallGetCurrentFen] w in
  fst (Buffered.loadModule Samples.buffered_host_unreleasing None
         (Samples.buffered_ready E)) = Ret false /\
  Buffered.state_of (this w) = Initialized /\
  Buffered._free (this w) = false /\
  fst (Buffered.getBestMove E None w) = Throw not_a_function /\
  (exists t,
      trace w1 = trace w ++ t /\
      t = [EvMalloc 32 1024; EvCall sym_chess_get_best_move] /\
      acquired t = 1%nat /\ released t = 0%nat /\
      outstanding [] t = [1024%Z]) /\
  (exists t,
      trace w3 = trace w ++ t /\
      acquired t = 3%nat /\ released t = 0%nat /\
      outstanding [] t <> []).
Proof.
  cbv zeta. split; [vm_compute; reflexivity |].
  split; [vm_compute; reflexivity |].
  split; [vm_compute; reflexivity |].
  split; [vm_compute; reflexivity |].
  split.
  - exists [EvMalloc 32 1024; EvCall sym_chess_get_best_move].
    vm_compute. repeat split.
  - exists [EvMalloc 32 1024; EvCall sym_chess_get_best_move;
            EvMalloc 4096 1024; EvCall sym_chess_get_legal_moves;
            EvMalloc 128 1024; EvCall sym_chess_get_fen].
    vm_compute. repeat split. discriminate.
Qed.

(** ** What a successful load and a successful init establish *)

Lemma Sym_eqb_refl (s : Sym) : Sym_eqb s s = true.
Proof. destruct s; reflexivity. Qed.

Lemma Direct_bind_wrappers_bound {N} (m : EmModule) (ss : list Sym)
    (w w' : World Direct.ChessEngineWASM N) (s : Sym) :
  Direct.bind_wrappers m ss w = (Ret tt, w') ->
  In s ss \/ Direct.wrappers (this w) s = true ->
  Direct.wrappers (this w') s = true.
Proof.
  revert w. induction ss as [| s0 ss IH]; intros w.
  - cbn. intros [= <-] [[] | Hb]. exact Hb.
  - cbn [Direct.bind_wrappers]. unfold bind, Direct.bind_wrapper.
    destruct (cwrap m s0); [discriminate |]. unfold assign at 1.
    intros Hrun Hs. apply (IH _ Hrun). cbn [this Direct.set_wrapper
      Direct.wrappers].
    destruct Hs as [[-> | Hin] | Hb].
    + right. rewrite Sym_eqb_refl. reflexivity.
    + left. exact Hin.
    + right. rewrite Hb. destruct (Sym_eqb s0 s); reflexivity.
Qed.

Lemma Buffered_bind_wrappers_bound {N} (m : EmModule) (ss : list Sym)
    (w w' : World Buffered.ChessEngineWASM N) (s : Sym) :
  Buffered.bind_wrappers m ss w = (Ret tt, w') ->
  In s ss \/ Buffered.wrappers (this w) s = true ->
  Buffered.wrappers (this w') s = true.
Proof.
  revert w. induction ss as [| s0 ss IH]; intros w.
  - cbn. intros [= <-] [[] | Hb]. exact Hb.
  - cbn [Buffered.bind_wrappers]. unfold bind, Buffered.bind_wrapper.
    destruct (cwrap m s0); [discriminate |]. unfold assign at 1.
    intros Hrun Hs. apply (IH _ Hrun). cbn [this Buffered.set_wrapper
      Buffered.wrappers].
    destruct Hs as [[-> | Hin] | Hb].
    + right. rewrite Sym_eqb_refl. reflexivity.
    + left. exact Hin.
    + right. rewrite Hb. destruct (Sym_eqb s0 s); reflexivity.
Qed.

Lemma all_syms_complete (s : Sym) : In s all_syms.
Proof. destruct s; cbn; tauto. Qed.

(** The flag [isInitialized] is only raised on a binding that is marked
    ready: after an [init] that answered true the state is Initialized and
    the binding is ready, with its fields otherwise as they were. *)
Lemma init_success :
  (forall N (E : Direct.Engine N) (w w' : World Direct.ChessEngineWASM N),
      Direct.init E w = (Ret true, w') ->
      Direct.isReady (this w') = true /\
      Direct.isInitialized (this w') = true /\
      Direct.wrappers (this w') = Direct.wrappers (this w)) /\
  (forall N (E : Buffered.Engine N) (w w' : World Buffered.ChessEngineWASM N),
      Buffered.init E w = (Ret true, w') ->
      Buffered.isReady (this w') = true /\
      Buffered.isInitialized (this w') = true /\
      Buffered.wrappers (this w') = Buffered.wrappers (this w) /\
      Buffered._malloc (this w') = Buffered._malloc (this w) /\
      Buffered._free (this w') = Buffered._free (this w)).
Proof.
  split.
  - intros N E w w'. unfold Direct.init, bind, call_native, assign.
    destruct (Direct.isReady (this w)) eqn:Hr; [| discriminate].
    cbn [negb]. destruct (Direct.wrappers (this w) sym_chess_init);
      [| discriminate].
    destruct (Direct.chess_init E (native w)) as [[result | e] n'];
      [| discriminate].
    cbn. intros [= Hres <-]. cbn. auto.
  - intros N E w w'. unfold Buffered.init, bind, call_native, assign, ret.
    destruct (Buffered.isReady (this w)) eqn:Hr; [| discriminate].
    cbn [negb]. destruct (Buffered.wrappers (this w) sym_chess_init);
      [| discriminate].
    destruct (Buffered.chess_init E (native w)) as [[result | e] n'];
      [| discriminate].
    destruct (negb (result =? 0)%Z); [discriminate |].
    cbn. intros [= <-]. cbn. auto.
Qed.

(** ** Remarks on the corners of the model *)

(** What a failed load leaves in the fields of the object: the module and
    the wrappers bound before the fault stay assigned, while the flag
    [isReady], on which every entry of the binding depends, stays down. *)
Lemma failed_load_leaves_fields :
  let w' := snd (Buffered.loadModule Samples.buffered_host_missing None
                   Samples.buffered_new) in
  Buffered.isReady (this w') = false /\
  Buffered.module (this w') = Some (Samples.module_missing sym_chess_get_fen) /\
  Buffered.wrappers (this w') sym_chess_init = true /\
  Buffered.wrappers (this w') sym_chess_get_fen = false /\
  Buffered._malloc (this w') = false.
Proof. vm_compute. repeat split. Qed.

(** The other faults of a load are answered in the same way. *)
Lemma loadModule_fault_samples :
  fst (Buffered.loadModule Samples.buffered_host_malformed None
         Samples.buffered_new) = Ret false /\
  fst (Buffered.loadModule Samples.buffered_host_helpless
         (Some (lit "/engine/")) Samples.buffered_new) = Ret false /\
  fst (Buffered.loadModule (Samples.buffered_host None None) None
         Samples.buffered_new) = Ret false /\
  fst (Direct.loadModule
         (Samples.direct_host (Ret (Throw (JsError "CompileError"))))
         (lit "chess_wasm.wasm") (lit "chess_wasm.js") Samples.direct_new)
    = Ret false /\
  normalizeBaseUrl (lit "/engine/") = lit "/engine".
Proof. vm_compute. repeat split. Qed.

(** The standard opening position of the sample engines is analysed into a
    success report, and the regions used on the way are all released. *)
Lemma analyzePosition_sample_run :
  let r := Buffered.analyzePosition Samples.buffered_good Samples.start_fen
             None (Samples.buffered_ready Samples.buffered_good) in
  fst r = Ret (SuccessReport true (Some (lit "e2e4")) 25
                 [lit "e2e4"; lit "d2d4"] 2
                 {| gs_isCheckmate := false; gs_isStalemate := false;
                    gs_isInCheck := false |}
                 4 Samples.start_fen) /\
  acquired (trace (snd r)) = 3%nat /\ released (trace (snd r)) = 3%nat /\
  outstanding [] (trace (snd r)) = [].
Proof. vm_compute. repeat split. Qed.

(** * Further properties of the binding *)

(** ** The lifecycle: init *)

(** X1.  In both generations [init] on a binding that is not marked ready
    throws "WASM module not loaded yet" and touches nothing: there is no
    way from Unloaded to Initialized that skips the load. *)
Theorem init_requires_loaded :
  (forall N (E : Direct.Engine N) (w : World Direct.ChessEngineWASM N),
      Direct.isReady (this w) = false ->
      Direct.init E w = (Throw not_loaded, w)) /\
  (forall N (E : Buffered.Engine N) (w : World Buffered.ChessEngineWASM N),
      Buffered.isReady (this w) = false ->
      Buffered.init E w = (Throw not_loaded, w)).
Proof.
  split; intros N E w Hr.
  - unfold Direct.init. rewrite Hr. reflexivity.
  - unfold Buffered.init. rewrite Hr. reflexivity.
Qed.

Lemma init_requires_loaded_witness :
  Direct.init Samples.direct_good Samples.direct_new
    = (Throw not_loaded, Samples.direct_new) /\
  Buffered.init Samples.buffered_good Samples.buffered_new
    = (Throw not_loaded, Samples.buffered_new).
Proof.
  split.
  - apply (proj1 init_requires_loaded). vm_compute. reflexivity.
  - apply (proj2 init_requires_loaded). vm_compute. reflexivity.
Defined.

(** X2.  In both generations, on a ready binding whose init wrapper is
    bound, a native init that answers the success code (1 in the direct
    generation, 0 in the buffered one) makes [init] answer true and raise
    [isInitialized], and nothing else of the object changes; the state is
    then Initialized. *)
Theorem init_native_success :
  (forall N (E : Direct.Engine N) (w : World Direct.ChessEngineWASM N)
          (n' : N),
      Direct.isReady (this w) = true ->
      Direct.wrappers (this w) sym_chess_init = true ->
      Direct.chess_init E (native w) = (Ret 1%Z, n') ->
      Direct.init E w
        = (Ret true,
           {| this := Direct.set_isInitialized true (this w); native := n';
              trace := trace w ++ [EvCall sym_chess_init] |}) /\
      Direct.state_of (this (snd (Direct.init E w))) = Initialized) /\
  (forall N (E : Buffered.Engine N) (w : World Buffered.ChessEngineWASM N)
          (n' : N),
      Buffered.isReady (this w) = true ->
      Buffered.wrappers (this w) sym_chess_init = true ->
      Buffered.chess_init E (native w) = (Ret 0%Z, n') ->
      Buffered.init E w
        = (Ret true,
           {| this := Buffered.set_isInitialized true (this w); native := n';
              trace := trace w ++ [EvCall sym_chess_init] |}) /\
      Buffered.state_of (this (snd (Buffered.init E w))) = Initialized).
Proof.
  split; intros N E w n' Hr Hb Hn.
  - assert (Hrun : Direct.init E w
              = (Ret true,
                 {| this := Direct.set_isInitialized true (this w);
                    native := n';
                    trace := trace w ++ [EvCall sym_chess_init] |})).
    { unfold Direct.init, bind, call_native, assign.
      rewrite Hr, Hb, Hn. reflexivity. }
    rewrite Hrun. split; reflexivity.
  - assert (Hrun : Buffered.init E w
              = (Ret true,
                 {| this := Buffered.set_isInitialized true (this w);
                    native := n';
                    trace := trace w ++ [EvCall sym_chess_init] |})).
    { unfold Buffered.init, bind, call_native, assign, ret.
      rewrite Hr, Hb, Hn. reflexivity. }
    rewrite Hrun. split; reflexivity.
Qed.

Lemma init_native_success_witness :
  Direct.state_of (this (Samples.direct_ready Samples.direct_good))
    = Initialized /\
  Buffered.state_of (this (Samples.buffered_ready Samples.buffered_good))
    = Initialized.
Proof.
  split.
  - apply (proj1 init_native_success _ Samples.direct_good
             Samples.direct_loaded 0%nat);
      vm_compute; reflexivity.
  - apply (proj2 init_native_success _ Samples.buffered_good
             Samples.buffered_loaded (0%nat, []));
      vm_compute; reflexivity.
Defined.

(** X3.  The two generations differ on an [init] that fails on an engine
    that is already Initialized.  The direct generation assigns the outcome
    to [isInitialized], so the engine falls back to Loaded-NotInitialized;
    the buffered generation returns before the assignment, so the engine
    stays Initialized. *)
Theorem init_failure_when_initialized :
  (forall N (E : Direct.Engine N) (w : World Direct.ChessEngineWASM N)
          (status : Z) (n' : N),
      Direct.state_of (this w) = Initialized ->
      Direct.isReady (this w) = true ->
      Direct.wrappers (this w) sym_chess_init = true ->
      Direct.chess_init E (native w) = (Ret status, n') ->
      status <> 1%Z ->
      fst (Direct.init E w) = Ret false /\
      Direct.state_of (this (snd (Direct.init E w)))
        = LoadedNotInitialized) /\
  (forall N (E : Buffered.Engine N) (w : World Buffered.ChessEngineWASM N)
          (status : Z) (n' : N),
      Buffered.state_of (this w) = Initialized ->
      Buffered.isReady (this w) = true ->
      Buffered.wrappers (this w) sym_chess_init = true ->
      Buffered.chess_init E (native w) = (Ret status, n') ->
      status <> 0%Z ->
      fst (Buffered.init E w) = Ret false /\
      this (snd (Buffered.init E w)) = this w /\
      Buffered.state_of (this (snd (Buffered.init E w))) = Initialized).
Proof.
  split; intros N E w status n' Hs Hr Hb Hn Hst.
  - unfold Direct.init, bind, call_native, assign.
    rewrite Hr, Hb, Hn. apply Z.eqb_neq in Hst. cbn. rewrite Hst.
    split; [reflexivity |]. unfold Direct.state_of. cbn. rewrite Hr.
    reflexivity.
  - unfold Buffered.init, bind, call_native, assign, ret.
    rewrite Hr, Hb, Hn. apply Z.eqb_neq in Hst. cbn. rewrite Hst. cbn. auto.
Qed.

Lemma init_failure_when_initialized_witness :
  Direct.state_of
    (this (snd (Direct.init Samples.direct_refusing
                  (Samples.direct_ready Samples.direct_good))))
    = LoadedNotInitialized /\
  Buffered.state_of
    (this (snd (Buffered.init Samples.buffered_refusing
                  (Samples.buffered_ready Samples.buffered_good))))
    = Initialized.
Proof.
  split.
  - apply (proj1 init_failure_when_initialized _ Samples.direct_refusing
             (Samples.direct_ready Samples.direct_good) 0%Z 0%nat);
      first [ discriminate | vm_compute; reflexivity ].
  - apply (proj2 init_failure_when_initialized _ Samples.buffered_refusing
             (Samples.buffered_ready Samples.buffered_good) 1%Z (0%nat, []));
      first [ discriminate | vm_compute; reflexivity ].
Defined.

Lemma Direct_reinitialized_same (o : Direct.ChessEngineWASM) :
  Direct.isInitialized o = true ->
  Direct.set_isInitialized true (Direct.set_isInitialized false o) = o.
Proof. destruct o. cbn. intros ->. reflexivity. Qed.

Lemma Buffered_reinitialized_same (o : Buffered.ChessEngineWASM) :
  Buffered.isInitialized o = true ->
  Buffered.set_isInitialized true (Buffered.set_isInitialized false o) = o.
Proof. destruct o. cbn. intros ->. reflexivity. Qed.

(** X4.  In both generations, a [cleanup] whose teardown returns followed by
    an [init] whose native init answers the success code brings an
    Initialized engine back to the very object it was: the engine can be
    initialized again after a cleanup, and the two native calls are the only
    activity. *)
Theorem cleanup_then_init_restores :
  (forall N (E : Direct.Engine N) (w : World Direct.ChessEngineWASM N)
          (n1 n2 : N),
      Direct.state_of (this w) = Initialized ->
      Direct.isReady (this w) = true ->
      Direct.wrappers (this w) sym_chess_cleanup = true ->
      Direct.wrappers (this w) sym_chess_init = true ->
      Direct.chess_cleanup E (native w) = (Ret tt, n1) ->
      Direct.chess_init E n1 = (Ret 1%Z, n2) ->
      Direct.init E (snd (Direct.cleanup E w))
        = (Ret true,
           {| this := this w; native := n2;
              trace := trace w ++ [EvCall sym_chess_cleanup;
                                   EvCall sym_chess_init] |})) /\
  (forall N (E : Buffered.Engine N) (w : World Buffered.ChessEngineWASM N)
          (n1 n2 : N),
      Buffered.state_of (this w) = Initialized ->
      Buffered.isReady (this w) = true ->
      Buffered.wrappers (this w) sym_chess_cleanup = true ->
      Buffered.wrappers (this w) sym_chess_init = true ->
      Buffered.chess_cleanup E (native w) = (Ret tt, n1) ->
      Buffered.chess_init E n1 = (Ret 0%Z, n2) ->
      Buffered.init E (snd (Buffered.cleanup E w))
        = (Ret true,
           {| this := this w; native := n2;
              trace := trace w ++ [EvCall sym_chess_cleanup;
                                   EvCall sym_chess_init] |})).
Proof.
  split; intros N E w n1 n2 Hs Hr Hbc Hbi Hc Hi.
  - apply Direct_state_initialized in Hs.
    unfold Direct.cleanup, bind, call_native, assign.
    rewrite Hs, Hbc, Hc. cbn [andb snd].
    unfold Direct.init, bind, call_native, assign.
    cbn [this native trace Direct.set_isInitialized Direct.isReady
         Direct.wrappers].
    rewrite Hr, Hbi, Hi. cbn [negb Z.eqb Pos.eqb].
    cbn [this native trace]. rewrite <- app_assoc. cbn [app].
    change {| Direct.module := Direct.module (this w);
              Direct.isReady := Direct.isReady (this w);
              Direct.isInitialized := true;
              Direct.wrappers := Direct.wrappers (this w) |}
      with (Direct.set_isInitialized true
              (Direct.set_isInitialized false (this w))).
    rewrite (Direct_reinitialized_same _ Hs), Hs. reflexivity.
  - apply Buffered_state_initialized in Hs.
    unfold Buffered.cleanup, bind, call_native, assign.
    rewrite Hs, Hbc, Hc. cbn [andb snd].
    unfold Buffered.init, bind, call_native, assign, ret.
    cbn [this native trace Buffered.set_isInitialized Buffered.isReady
         Buffered.wrappers].
    rewrite Hr, Hbi, Hi. cbn [negb Z.eqb Pos.eqb].
    cbn [this native trace]. rewrite <- app_assoc. cbn [app].
    change (Buffered.set_isInitialized true
              {| Buffered.module := Buffered.module (this w);
                 Buffered.isReady := Buffered.isReady (this w);
                 Buffered.isInitialized := false;
                 Buffered.wrappers := Buffered.wrappers (this w);
                 Buffered._malloc := Buffered._malloc (this w);
                 Buffered._free := Buffered._free (this w);
                 Buffered._decodeCString :=
                   Buffered._decodeCString (this w) |})
      with (Buffered.set_isInitialized true
              (Buffered.set_isInitialized false (this w))).
    rewrite (Buffered_reinitialized_same _ Hs). reflexivity.
Qed.

Lemma cleanup_then_init_restores_witness :
  this (snd (Direct.init Samples.direct_good
               (snd (Direct.cleanup Samples.direct_good
                       (Samples.direct_ready Samples.direct_good)))))
    = this (Samples.direct_ready Samples.direct_good) /\
  this (snd (Buffered.init Samples.buffered_good
               (snd (Buffered.cleanup Samples.buffered_good
                       (Samples.buffered_ready Samples.buffered_good)))))
    = this (Samples.buffered_ready Samples.buffered_good).
Proof.
  split.
  - rewrite (proj1 cleanup_then_init_restores _ Samples.direct_good
               (Samples.direct_ready Samples.direct_good) 1%nat 1%nat
               ltac:(vm_compute; reflexivity) ltac:(vm_compute; reflexivity)
               ltac:(vm_compute; reflexivity) ltac:(vm_compute; reflexivity)
               ltac:(vm_compute; reflexivity) ltac:(vm_compute; reflexivity)).
    reflexivity.
  - rewrite (proj2 cleanup_then_init_restores _ Samples.buffered_good
               (Samples.buffered_ready Samples.buffered_good)
               (1%nat, []) (1%nat, [])
               ltac:(vm_compute; reflexivity) ltac:(vm_compute; reflexivity)
               ltac:(vm_compute; reflexivity) ltac:(vm_compute; reflexivity)
               ltac:(vm_compute; reflexivity) ltac:(vm_compute; reflexivity)).
    reflexivity.
Defined.

(** ** The operations that map one native answer *)

(** A guarded method that enters one wrapped native function. *)
Ltac run_wrapped Hi Hb Hn :=
  unfold Direct.setPosition, Direct.makeMove, Direct.undoMove,
    Direct.isCheckmate, Direct.isStalemate, Direct.isInCheck,
    Direct.evaluatePosition, Direct.getCurrentFen,
    Buffered.setPosition, Buffered.makeMove, Buffered.undoMove,
    Buffered.isCheckmate, Buffered.isStalemate, Buffered.isInCheck,
    Buffered.evaluatePosition,
    bind, Direct.require_initialized, Buffered.require_initialized,
    Direct.wrapped, Buffered.wrapped, call_native, ret, after_call,
    map_outcome;
  rewrite Hi; cbn [this native trace]; rewrite Hb, Hn;
  match goal with
  | |- context [match ?r with Ret _ => _ | Throw _ => _ end] =>
      destruct r; reflexivity
  | _ => reflexivity
  end.

(** X5.  On an Initialized engine, [setPosition], [makeMove] and [undoMove]
    enter their native function once and answer true exactly when its
    status is the success code, which is 1 in the direct generation and 0
    in the buffered one; any other status gives false, and an exception of
    the native function reaches the caller as it is. *)
Theorem status_operations :
  (forall N (E : Direct.Engine N) (w : World Direct.ChessEngineWASM N),
      Direct.state_of (this w) = Initialized ->
      (forall fen r n',
          Direct.wrappers (this w) sym_chess_set_position = true ->
          Direct.chess_set_position E fen (native w) = (r, n') ->
          Direct.setPosition E fen w
            = (map_outcome (fun status => (status =? 1)%Z) r,
               after_call w sym_chess_set_position n')) /\
      (forall move r n',
          Direct.wrappers (this w) sym_chess_make_move = true ->
          Direct.chess_make_move E move (native w) = (r, n') ->
          Direct.makeMove E move w
            = (map_outcome (fun status => (status =? 1)%Z) r,
               after_call w sym_chess_make_move n')) /\
      (forall r n',
          Direct.wrappers (this w) sym_chess_undo_move = true ->
          Direct.chess_undo_move E (native w) = (r, n') ->
          Direct.undoMove E w
            = (map_outcome (fun status => (status =? 1)%Z) r,
               after_call w sym_chess_undo_move n'))) /\
  (forall N (E : Buffered.Engine N) (w : World Buffered.ChessEngineWASM N),
      Buffered.state_of (this w) = Initialized ->
      (forall fen r n',
          Buffered.wrappers (this w) sym_chess_set_position = true ->
          Buffered.chess_set_position E fen (native w) = (r, n') ->
          Buffered.setPosition E fen w
            = (map_outcome (fun status => (status =? 0)%Z) r,
               after_call w sym_chess_set_position n')) /\
      (forall move r n',
          Buffered.wrappers (this w) sym_chess_make_move = true ->
          Buffered.chess_make_move E move (native w) = (r, n') ->
          Buffered.makeMove E move w
            = (map_outcome (fun status => (status =? 0)%Z) r,
               after_call w sym_chess_make_move n')) /\
      (forall r n',
          Buffered.wrappers (this w) sym_chess_undo_move = true ->
          Buffered.chess_undo_move E (native w) = (r, n') ->
          Buffered.undoMove E w
            = (map_outcome (fun status => (status =? 0)%Z) r,
               after_call w sym_chess_undo_move n'))).
Proof.
  split; intros N E w Hs.
  - apply Direct_state_initialized in Hs.
    split; [| split]; intros; run_wrapped Hs H H0.
  - apply Buffered_state_initialized in Hs.
    split; [| split]; intros; run_wrapped Hs H H0.
Qed.

(** X6.  The three state queries read their native answer in the same way
    in both generations, also in the buffered one whose status code for
    success is 0: the answer is true exactly when the native function
    returns 1.  [evaluatePosition] hands the native integer over as it is.
    An exception of the native function reaches the caller as it is. *)
Theorem state_queries :
  (forall N (E : Direct.Engine N) (w : World Direct.ChessEngineWASM N),
      Direct.state_of (this w) = Initialized ->
      (forall r n',
          Direct.wrappers (this w) sym_chess_is_checkmate = true ->
          Direct.chess_is_checkmate E (native w) = (r, n') ->
          Direct.isCheckmate E w
            = (map_outcome (fun code => (code =? 1)%Z) r,
               after_call w sym_chess_is_checkmate n')) /\
      (forall r n',
          Direct.wrappers (this w) sym_chess_is_stalemate = true ->
          Direct.chess_is_stalemate E (native w) = (r, n') ->
          Direct.isStalemate E w
            = (map_outcome (fun code => (code =? 1)%Z) r,
               after_call w sym_chess_is_stalemate n')) /\
      (forall r n',
          Direct.wrappers (this w) sym_chess_is_in_check = true ->
          Direct.chess_is_in_check E (native w) = (r, n') ->
          Direct.isInCheck E w
            = (map_outcome (fun code => (code =? 1)%Z) r,
               after_call w sym_chess_is_in_check n')) /\
      (forall r n',
          Direct.wrappers (this w) sym_chess_evaluate_position = true ->
          Direct.chess_evaluate_position E (native w) = (r, n') ->
          Direct.evaluatePosition E w
            = (r, after_call w sym_chess_evaluate_position n'))) /\
  (forall N (E : Buffered.Engine N) (w : World Buffered.ChessEngineWASM N),
      Buffered.state_of (this w) = Initialized ->
      (forall r n',
          Buffered.wrappers (this w) sym_chess_is_checkmate = true ->
          Buffered.chess_is_checkmate E (native w) = (r, n') ->
          Buffered.isCheckmate E w
            = (map_outcome (fun code => (code =? 1)%Z) r,
               after_call w sym_chess_is_checkmate n')) /\
      (forall r n',
          Buffered.wrappers (this w) sym_chess_is_stalemate = true ->
          Buffered.chess_is_stalemate E (native w) = (r, n') ->
          Buffered.isStalemate E w
            = (map_outcome (fun code => (code =? 1)%Z) r,
               after_call w sym_chess_is_stalemate n')) /\
      (forall r n',
          Buffered.wrappers (this w) sym_chess_is_in_check = true ->
          Buffered.chess_is_in_check E (native w) = (r, n') ->
          Buffered.isInCheck E w
            = (map_outcome (fun code => (code =? 1)%Z) r,
               after_call w sym_chess_is_in_check n')) /\
      (forall r n',
          Buffered.wrappers (this w) sym_chess_evaluate_position = true ->
          Buffered.chess_evaluate_position E (native w) = (r, n') ->
          Buffered.evaluatePosition E w
            = (r, after_call w sym_chess_evaluate_position n'))).
Proof.
  split; intros N E w Hs.
  - apply Direct_state_initialized in Hs.
    split; [| split; [| split]]; intros; run_wrapped Hs H H0.
  - apply Buffered_state_initialized in Hs.
    split; [| split; [| split]]; intros; run_wrapped Hs H H0.
Qed.

Lemma status_operations_witness :
  fst (Direct.setPosition Samples.direct_good Samples.start_fen
         (Samples.direct_ready Samples.direct_good)) = Ret true /\
  fst (Buffered.setPosition Samples.buffered_good []
         (Samples.buffered_ready Samples.buffered_good)) = Ret false.
Proof.
  split.
  - rewrite (proj1 (proj1 status_operations _ Samples.direct_good
               (Samples.direct_ready Samples.direct_good)
               ltac:(vm_compute; reflexivity))
               Samples.start_fen (Ret 1%Z) 0%nat
               ltac:(vm_compute; reflexivity) ltac:(vm_compute; reflexivity)).
    reflexivity.
  - rewrite (proj1 (proj2 status_operations _ Samples.buffered_good
               (Samples.buffered_ready Samples.buffered_good)
               ltac:(vm_compute; reflexivity))
               [] (Ret (-1)%Z) (0%nat, [])
               ltac:(vm_compute; reflexivity) ltac:(vm_compute; reflexivity)).
    reflexivity.
Defined.

Lemma state_queries_witness :
  fst (Direct.isCheckmate Samples.direct_good
         (Samples.direct_ready Samples.direct_good)) = Ret false /\
  fst (Buffered.evaluatePosition Samples.buffered_good
         (Samples.buffered_ready Samples.buffered_good)) = Ret 25%Z.
Proof.
  split.
  - rewrite (proj1 (proj1 state_queries _ Samples.direct_good
               (Samples.direct_ready Samples.direct_good)
               ltac:(vm_compute; reflexivity))
               (Ret 0%Z) 0%nat
               ltac:(vm_compute; reflexivity) ltac:(vm_compute; reflexivity)).
    reflexivity.
  - rewrite (proj2 (proj2 (proj2 (proj2 state_queries _ Samples.buffered_good
               (Samples.buffered_ready Samples.buffered_good)
               ltac:(vm_compute; reflexivity))))
               (Ret 25%Z) (0%nat, [])
               ltac:(vm_compute; reflexivity) ltac:(vm_compute; reflexivity)).
    reflexivity.
Defined.

(** ** The scratch region at its edges *)

Lemma Buffered_getBestMove_shape {N} (E : Buffered.Engine N)
    (depth : option Z) :
  Buffered.getBestMove E depth
  = Buffered_with_scratch E 32
      "Failed to allocate memory for best move buffer"
      (fun bufferPtr =>
         (status <- Buffered.wrapped sym_chess_get_best_move
            (Buffered.chess_get_best_move E bufferPtr 32
               (default_arg 4 depth)) ;;
          if negb (status =? 0)%Z then ret None
          else
            move <- Buffered.decodeCString E bufferPtr ;;
            ret (if truthy move && negb (jsstring_eqb move (lit "0000"))
                 then Some move else None))%js).
Proof. reflexivity. Qed.

Lemma Buffered_getLegalMoves_shape {N} (E : Buffered.Engine N) :
  Buffered.getLegalMoves E
  = Buffered_with_scratch E 4096
      "Failed to allocate memory for legal moves buffer"
      (fun bufferPtr =>
         (count <- Buffered.wrapped sym_chess_get_legal_moves
            (Buffered.chess_get_legal_moves E bufferPtr 4096) ;;
          if (count <? 0)%Z then ret []
          else
            decoded <- Buffered.decodeCString E bufferPtr ;;
            let movesStr := trim decoded in
            if negb (truthy movesStr) then ret []
            else ret (filter truthy (split_whitespace movesStr)))%js).
Proof. reflexivity. Qed.

Lemma Buffered_getCurrentFen_shape {N} (E : Buffered.Engine N) :
  Buffered.getCurrentFen E
  = Buffered_with_scratch E 128
      "Failed to allocate memory for FEN buffer"
      (fun bufferPtr =>
         (status <- Buffered.wrapped sym_chess_get_fen
            (Buffered.chess_get_fen E bufferPtr 128) ;;
          if negb (status =? 0)%Z then ret []
          else Buffered.decodeCString E bufferPtr)%js).
Proof. reflexivity. Qed.

(** A call that uses a scratch region, when the allocator has none. *)
Lemma Buffered_with_scratch_exhausted {N A} (E : Buffered.Engine N)
    (bufferSize : Z) (message : string)
    (body : Z -> M (World Buffered.ChessEngineWASM N) A)
    (w : World Buffered.ChessEngineWASM N) (n1 : N) :
  Buffered.isInitialized (this w) = true ->
  Buffered._malloc (this w) = true ->
  Buffered.malloc E bufferSize (native w) = (0%Z, n1) ->
  Buffered_with_scratch E bufferSize message body w
    = (Throw (JsError message),
       {| this := this w; native := n1;
          trace := trace w ++ [EvMalloc bufferSize 0] |}).
Proof.
  intros Hi Hm Ha.
  unfold Buffered_with_scratch, bind, Buffered.require_initialized,
    Buffered.call_malloc.
  rewrite Hi, Hm, Ha. reflexivity.
Qed.

(** X7.  In the buffered generation, when the native allocator answers the
    null handle, [getBestMove], [getLegalMoves] and [getCurrentFen] throw
    their own "Failed to allocate memory ..." error.  The request (of 32,
    4096 and 128 bytes) is the only native activity: the chess function is
    not entered and nothing is released. *)
Theorem allocation_failure :
  forall N (E : Buffered.Engine N) (w : World Buffered.ChessEngineWASM N),
    Buffered.state_of (this w) = Initialized ->
    Buffered._malloc (this w) = true ->
    (forall depth n1,
        Buffered.malloc E 32 (native w) = (0%Z, n1) ->
        Buffered.getBestMove E depth w
          = (Throw (JsError "Failed to allocate memory for best move buffer"),
             {| this := this w; native := n1;
                trace := trace w ++ [EvMalloc 32 0] |})) /\
    (forall n1,
        Buffered.malloc E 4096 (native w) = (0%Z, n1) ->
        Buffered.getLegalMoves E w
          = (Throw
               (JsError "Failed to allocate memory for legal moves buffer"),
             {| this := this w; native := n1;
                trace := trace w ++ [EvMalloc 4096 0] |})) /\
    (forall n1,
        Buffered.malloc E 128 (native w) = (0%Z, n1) ->
        Buffered.getCurrentFen E w
          = (Throw (JsError "Failed to allocate memory for FEN buffer"),
             {| this := this w; native := n1;
                trace := trace w ++ [EvMalloc 128 0] |})).
Proof.
  intros N E w Hs Hm. apply Buffered_state_initialized in Hs.
  split; [| split]; intros.
  - rewrite Buffered_getBestMove_shape.
    apply Buffered_with_scratch_exhausted; assumption.
  - rewrite Buffered_getLegalMoves_shape.
    apply Buffered_with_scratch_exhausted; assumption.
  - rewrite Buffered_getCurrentFen_shape.
    apply Buffered_with_scratch_exhausted; assumption.
Qed.

Lemma allocation_failure_witness :
  fst (Buffered.getCurrentFen Samples.buffered_exhausted
         (Samples.buffered_ready Samples.buffered_exhausted))
    = Throw (JsError "Failed to allocate memory for FEN buffer") /\
  calls_of (trace (snd (Buffered.getCurrentFen Samples.buffered_exhausted
              (Samples.buffered_ready Samples.buffered_exhausted))))
    = [sym_chess_init].
Proof.
  rewrite (proj2 (proj2 (allocation_failure Samples.buffered_exhausted
             (Samples.buffered_ready Samples.buffered_exhausted)
             ltac:(vm_compute; reflexivity) ltac:(vm_compute; reflexivity)))
             (0%nat, []) ltac:(vm_compute; reflexivity)).
  split; vm_compute; reflexivity.
Defined.

(** A call that uses a scratch region, once the region is granted and the
    release helper is bound: whatever the body does, its outcome is the
    outcome of the call and the region is released after it. *)
Lemma Buffered_with_scratch_finally {N A} (E : Buffered.Engine N)
    (bufferSize : Z) (message : string)
    (body : Z -> M (World Buffered.ChessEngineWASM N) A)
    (w : World Buffered.ChessEngineWASM N) (ptr : Z) (n1 n2 : N)
    (r : outcome A) (t : list Event) :
  Buffered.isInitialized (this w) = true ->
  Buffered._malloc (this w) = true ->
  Buffered._free (this w) = true ->
  Buffered.malloc E bufferSize (native w) = (ptr, n1) ->
  ptr <> 0%Z ->
  body ptr {| this := this w; native := n1;
              trace := trace w ++ [EvMalloc bufferSize ptr] |}
    = (r, {| this := this w; native := n2;
             trace := trace w ++ EvMalloc bufferSize ptr :: t |}) ->
  Buffered_with_scratch E bufferSize message body w
    = (r, {| this := this w; native := Buffered.free E ptr n2;
             trace := trace w ++ EvMalloc bufferSize ptr :: t
                        ++ [EvFree ptr] |}).
Proof.
  intros Hi Hm Hf Ha Hp Hbody.
  rewrite (@Buffered_with_scratch_run _ _ E _ _ _ _ _ _ Hi Hm Ha Hp).
  unfold try_finally. rewrite Hbody. unfold Buffered.call_free.
  cbn [this native trace]. rewrite Hf.
  rewrite <- app_assoc. reflexivity.
Qed.

(** The first step of the body of a scratch call: the wrapped native
    function, entered in the world that holds the region. *)
Lemma Buffered_wrapped_in_region {N A} (s : Sym) (f : N -> outcome A * N)
    (w : World Buffered.ChessEngineWASM N) (size ptr : Z) (n1 n2 : N)
    (r : outcome A) :
  Buffered.wrappers (this w) s = true ->
  f n1 = (r, n2) ->
  Buffered.wrapped s f
    {| this := this w; native := n1;
       trace := trace w ++ [EvMalloc size ptr] |}
  = (r, {| this := this w; native := n2;
           trace := trace w ++ [EvMalloc size ptr; EvCall s] |}).
Proof.
  intros Hb Hf. unfold Buffered.wrapped, call_native.
  cbn [this native trace]. rewrite Hb, Hf.
  rewrite <- app_assoc. reflexivity.
Qed.

(** X8.  In the buffered generation, on an Initialized engine whose helpers
    [_malloc] and [_free] are bound, when the native function throws inside
    [getBestMove], [getLegalMoves] or [getCurrentFen], the caller receives
    that very exception, and it receives it after the scratch region was
    released: the native activity is the request, the call and the release
    of the handle that was granted. *)
Theorem native_exception_releases_region :
  forall N (E : Buffered.Engine N) (w : World Buffered.ChessEngineWASM N)
         (e : js_exn),
    Buffered.state_of (this w) = Initialized ->
    Buffered._malloc (this w) = true ->
    Buffered._free (this w) = true ->
    (forall depth ptr n1 n2,
        Buffered.wrappers (this w) sym_chess_get_best_move = true ->
        Buffered.malloc E 32 (native w) = (ptr, n1) ->
        ptr <> 0%Z ->
        Buffered.chess_get_best_move E ptr 32 (default_arg 4 depth) n1
          = (Throw e, n2) ->
        Buffered.getBestMove E depth w
          = (Throw e,
             {| this := this w; native := Buffered.free E ptr n2;
                trace := trace w ++ [EvMalloc 32 ptr;
                                     EvCall sym_chess_get_best_move;
                                     EvFree ptr] |})) /\
    (forall ptr n1 n2,
        Buffered.wrappers (this w) sym_chess_get_legal_moves = true ->
        Buffered.malloc E 4096 (native w) = (ptr, n1) ->
        ptr <> 0%Z ->
        Buffered.chess_get_legal_moves E ptr 4096 n1 = (Throw e, n2) ->
        Buffered.getLegalMoves E w
          = (Throw e,
             {| this := this w; native := Buffered.free E ptr n2;
                trace := trace w ++ [EvMalloc 4096 ptr;
                                     EvCall sym_chess_get_legal_moves;
                                     EvFree ptr] |})) /\
    (forall ptr n1 n2,
        Buffered.wrappers (this w) sym_chess_get_fen = true ->
        Buffered.malloc E 128 (native w) = (ptr, n1) ->
        ptr <> 0%Z ->
        Buffered.chess_get_fen E ptr 128 n1 = (Throw e, n2) ->
        Buffered.getCurrentFen E w
          = (Throw e,
             {| this := this w; native := Buffered.free E ptr n2;
                trace := trace w ++ [EvMalloc 128 ptr;
                                     EvCall sym_chess_get_fen;
                                     EvFree ptr] |})).
Proof.
  intros N E w e Hs Hm Hf. apply Buffered_state_initialized in Hs.
  split; [| split]; intros.
  - rewrite Buffered_getBestMove_shape.
    apply (@Buffered_with_scratch_finally _ _ E _ _ _ w ptr n1 n2 _
             [EvCall sym_chess_get_best_move] Hs Hm Hf H0 H1).
    apply bind_throw_eq. apply Buffered_wrapped_in_region; assumption.
  - rewrite Buffered_getLegalMoves_shape.
    apply (@Buffered_with_scratch_finally _ _ E _ _ _ w ptr n1 n2 _
             [EvCall sym_chess_get_legal_moves] Hs Hm Hf H0 H1).
    apply bind_throw_eq. apply Buffered_wrapped_in_region; assumption.
  - rewrite Buffered_getCurrentFen_shape.
    apply (@Buffered_with_scratch_finally _ _ E _ _ _ w ptr n1 n2 _
             [EvCall sym_chess_get_fen] Hs Hm Hf H0 H1).
    apply bind_throw_eq. apply Buffered_wrapped_in_region; assumption.
Qed.

Lemma native_exception_releases_region_witness :
  Buffered.getCurrentFen Samples.buffered_crashing
    (Samples.buffered_ready Samples.buffered_crashing)
  = (Throw (JsError "memory access out of bounds"),
     {| this := this (Samples.buffered_ready Samples.buffered_crashing);
        native := (0%nat, []);
        trace := [EvCall sym_chess_init; EvMalloc 128 1024;
                  EvCall sym_chess_get_fen; EvFree 1024] |}).
Proof.
  rewrite (proj2 (proj2 (native_exception_releases_region
             Samples.buffered_crashing
             (Samples.buffered_ready Samples.buffered_crashing)
             (JsError "memory access out of bounds")
             ltac:(vm_compute; reflexivity) ltac:(vm_compute; reflexivity)
             ltac:(vm_compute; reflexivity)))
             1024%Z (0%nat, []) (0%nat, [])
             ltac:(vm_compute; reflexivity) ltac:(vm_compute; reflexivity)
             ltac:(discriminate) ltac:(vm_compute; reflexivity)).
  vm_compute. reflexivity.
Defined.






(** X10.  [getCurrentFen] on an Initialized engine.  The direct generation
    hands over the text, or the exception, of the native function.  The
    buffered generation, with its helpers [_malloc] and [_free] bound and
    once the region is granted, answers the empty string when the native
    status is not 0 and the decoded text of the region when it is 0; in
    both cases the region is released. *)
Theorem getCurrentFen_result :
  (forall N (E : Direct.Engine N) (w : World Direct.ChessEngineWASM N)
          (r : outcome jsstring) (n' : N),
      Direct.state_of (this w) = Initialized ->
      Direct.wrappers (this w) sym_chess_get_fen = true ->
      Direct.chess_get_fen E (native w) = (r, n') ->
      Direct.getCurrentFen E w = (r, after_call w sym_chess_get_fen n')) /\
  (forall N (E : Buffered.Engine N) (w : World Buffered.ChessEngineWASM N)
          (ptr status : Z) (n1 n2 : N),
      Buffered.state_of (this w) = Initialized ->
      Buffered._malloc (this w) = true ->
      Buffered._free (this w) = true ->
      Buffered.wrappers (this w) sym_chess_get_fen = true ->
      Buffered.malloc E 128 (native w) = (ptr, n1) ->
      ptr <> 0%Z ->
      Buffered.chess_get_fen E ptr 128 n1 = (Ret status, n2) ->
      let w2 := {| this := this w; native := n2;
                   trace := trace w ++ [EvMalloc 128 ptr;
                                        EvCall sym_chess_get_fen] |} in
      let w' := {| this := this w; native := Buffered.free E ptr n2;
                   trace := trace w ++ [EvMalloc 128 ptr;
                                        EvCall sym_chess_get_fen;
                                        EvFree ptr] |} in
      (status <> 0%Z -> Buffered.getCurrentFen E w = (Ret [], w')) /\
      (forall r,
          status = 0%Z ->
          Buffered.decodeCString E ptr w2 = (r, w2) ->
          Buffered.getCurrentFen E w = (r, w'))).
Proof.
  split.
  - intros N E w r n' Hs Hb Hn. apply Direct_state_initialized in Hs.
    run_wrapped Hs Hb Hn.
  - intros N E w ptr status n1 n2 Hs Hm Hf Hb Ha Hp Hn w2 w'.
    apply Buffered_state_initialized in Hs.
    rewrite Buffered_getCurrentFen_shape. split.
    + intros Hst.
      apply (@Buffered_with_scratch_finally _ _ E _ _ _ w ptr n1 n2 _
               [EvCall sym_chess_get_fen] Hs Hm Hf Ha Hp).
      erewrite bind_ret_eq
        by (apply Buffered_wrapped_in_region; eassumption).
      apply Z.eqb_neq in Hst. rewrite Hst. reflexivity.
    + intros r -> Hd.
      apply (@Buffered_with_scratch_finally _ _ E _ _ _ w ptr n1 n2 _
               [EvCall sym_chess_get_fen] Hs Hm Hf Ha Hp).
      erewrite bind_ret_eq
        by (apply Buffered_wrapped_in_region; eassumption).
      cbn [Z.eqb negb]. exact Hd.
Qed.

Lemma getCurrentFen_result_witness :
  fst (Direct.getCurrentFen Samples.direct_good
         (Samples.direct_ready Samples.direct_good))
    = Ret Samples.start_fen /\
  fst (Buffered.getCurrentFen Samples.buffered_good
         (Samples.buffered_ready Samples.buffered_good))
    = Ret Samples.start_fen.
Proof.
  split.
  - rewrite (proj1 getCurrentFen_result _ Samples.direct_good
               (Samples.direct_ready Samples.direct_good)
               (Ret Samples.start_fen) 0%nat
               ltac:(vm_compute; reflexivity) ltac:(vm_compute; reflexivity)
               ltac:(vm_compute; reflexivity)).
    reflexivity.
  - destruct (proj2 getCurrentFen_result _ Samples.buffered_good
                (Samples.buffered_ready Samples.buffered_good)
                1024%Z 0%Z (0%nat, []) (0%nat, Samples.start_fen)
                ltac:(vm_compute; reflexivity) ltac:(vm_compute; reflexivity)
                ltac:(vm_compute; reflexivity) ltac:(vm_compute; reflexivity)
                ltac:(vm_compute; reflexivity) ltac:(discriminate)
                ltac:(vm_compute; reflexivity)) as [_ Hok].
    rewrite (Hok (Ret Samples.start_fen) eq_refl
               ltac:(vm_compute; reflexivity)).
    reflexivity.
Defined.

(** ** The native functions behind each operation *)

Lemma calls_of_app (t1 t2 : list Event) :
  calls_of (t1 ++ t2) = calls_of t1 ++ calls_of t2.
Proof.
  induction t1 as [| [s | size ptr | ptr] t1 IH]; cbn; auto.
  rewrite IH. reflexivity.
Qed.

(** Case analysis on the next test of an unfolded method. *)
Ltac case_step :=
  match goal with
  | |- context [match ?X with _ => _ end] =>
      lazymatch X with
      | context [match _ with _ => _ end] => fail
      | _ => destruct X eqn:?
      end
  end.

(** The record of native activity after a run, as an extension of the
    record before it. *)
Ltac trace_extension :=
  first
    [ exists []; split; [cbn; rewrite app_nil_r; reflexivity |]
    | eexists; split;
      [cbn [snd trace]; rewrite <- ?app_assoc; cbn [app]; reflexivity |] ].

Ltac prove_enters :=
  intros w; cbv zeta;
  unfold bind, ret, throw, try_finally,
    Direct.require_initialized, Direct.wrapped,
    Buffered.require_initialized, Buffered.wrapped, Buffered.call_malloc,
    Buffered.call_free, Buffered.decodeCString;
  unfold call_native;
  repeat case_step;
  (split; [reflexivity |]); trace_extension; cbn; eauto.

Lemma Direct_invoke_enters {N} (E : Direct.Engine N) (c : Direct.call) :
  enters (Direct_symbol_of c) (Direct.invoke E c).
Proof.
  destruct c; cbn [Direct_symbol_of];
    unfold Direct.invoke, Direct.setPosition, Direct.getBestMove,
      Direct.makeMove, Direct.undoMove, Direct.getLegalMoves,
      Direct.isCheckmate, Direct.isStalemate, Direct.isInCheck,
      Direct.evaluatePosition, Direct.getCurrentFen;
    prove_enters.
Qed.

Lemma Buffered_invoke_enters {N} (E : Buffered.Engine N) (c : Buffered.call) :
  enters (Buffered_symbol_of c) (Buffered.invoke E c).
Proof.
  destruct c; cbn [Buffered_symbol_of];
    unfold Buffered.invoke, Buffered.setPosition, Buffered.getBestMove,
      Buffered.makeMove, Buffered.undoMove, Buffered.getLegalMoves,
      Buffered.isCheckmate, Buffered.isStalemate, Buffered.isInCheck,
      Buffered.evaluatePosition, Buffered.getCurrentFen;
    prove_enters.
Qed.

Lemma in_order_ret {O N A} (l : list Sym) (a : A) :
  in_order l (@ret (World O N) A a).
Proof.
  intros w. cbn. split; [reflexivity |].
  exists []. rewrite app_nil_r. split; [reflexivity |]. exists 0%nat.
  reflexivity.
Qed.

Lemma in_order_bind {O N A B} (s : Sym) (l : list Sym)
    (m : M (World O N) A) (k : A -> M (World O N) B) :
  enters s m -> (forall a, in_order l (k a)) -> in_order (s :: l) (bind m k).
Proof.
  intros Hm Hk w. unfold bind. specialize (Hm w).
  destruct (m w) as [[a | e] w1]; cbn [fst snd] in *.
  - destruct Hm as [Ho [t1 [Ht1 Hc1]]].
    destruct (Hk a w1) as [Ho2 [t2 [Ht2 [k2 Hc2]]]].
    split; [congruence |]. exists (t1 ++ t2).
    rewrite Ht2, Ht1, app_assoc. split; [reflexivity |].
    destruct Hc1 as [Hc1 | [_ [e He]]]; [| discriminate He].
    exists (S k2). rewrite calls_of_app, Hc1, Hc2. reflexivity.
  - destruct Hm as [Ho [t1 [Ht1 Hc1]]].
    split; [exact Ho |]. exists t1. split; [exact Ht1 |].
    destruct Hc1 as [Hc1 | [Hc1 _]]; rewrite Hc1.
    + exists 1%nat. reflexivity.
    + exists 0%nat. reflexivity.
Qed.

Lemma in_order_catch {O N A} (l : list Sym) (m : M (World O N) A)
    (h : js_exn -> A) :
  in_order l m -> in_order l (try_catch m (fun e => ret (h e))).
Proof.
  intros Hm w. unfold try_catch, ret. specialize (Hm w).
  destruct (m w) as [[a | e] w1]; exact Hm.
Qed.

Ltac prove_in_order :=
  repeat first
    [ apply in_order_ret
    | apply in_order_catch
    | apply in_order_bind;
      [ unfold Direct.setPosition, Direct.getBestMove,
          Direct.getLegalMoves, Direct.isCheckmate, Direct.isStalemate,
          Direct.isInCheck, Direct.evaluatePosition, Direct.getCurrentFen,
          Buffered.setPosition, Buffered.getBestMove,
          Buffered.getLegalMoves, Buffered.isCheckmate,
          Buffered.isStalemate, Buffered.isInCheck,
          Buffered.evaluatePosition, Buffered.getCurrentFen;
        prove_enters
      | intros ? ]
    | match goal with
      | |- in_order _ (if ?b then _ else _) => destruct b
      end ].

Lemma Direct_analyzePosition_in_order {N} (E : Direct.Engine N)
    (fen : jsstring) (depth : option Z) :
  in_order analysis_order (Direct.analyzePosition E fen depth).
Proof.
  unfold Direct.analyzePosition, analysis_order. cbv zeta. prove_in_order.
Qed.

Lemma Buffered_analyzePosition_in_order {N} (E : Buffered.Engine N)
    (fen : jsstring) (depth : option Z) :
  in_order analysis_order (Buffered.analyzePosition E fen depth).
Proof.
  unfold Buffered.analyzePosition, analysis_order. cbv zeta. prove_in_order.
Qed.

(** X11.  In both generations a Call Surface operation never changes a
    field of the object, and the only native function it enters is its
    own: once when it returns, at most once when it throws (not at all when
    it throws from the guard, from an unbound wrapper or helper, or from an
    allocator without a region). *)
Theorem operation_enters_own_function :
  (forall N (E : Direct.Engine N) (c : Direct.call)
          (w : World Direct.ChessEngineWASM N),
      this (snd (Direct.invoke E c w)) = this w /\
      exists t,
        trace (snd (Direct.invoke E c w)) = trace w ++ t /\
        (calls_of t = [Direct_symbol_of c] \/
         (calls_of t = [] /\
          exists e, fst (Direct.invoke E c w) = Throw e))) /\
  (forall N (E : Buffered.Engine N) (c : Buffered.call)
          (w : World Buffered.ChessEngineWASM N),
      this (snd (Buffered.invoke E c w)) = this w /\
      exists t,
        trace (snd (Buffered.invoke E c w)) = trace w ++ t /\
        (calls_of t = [Buffered_symbol_of c] \/
         (calls_of t = [] /\
          exists e, fst (Buffered.invoke E c w) = Throw e))).
Proof.
  split; intros N E c w.
  - apply Direct_invoke_enters.
  - apply Buffered_invoke_enters.
Qed.

(** X12.  In both generations [analyzePosition] never changes a field of
    the object, and the native functions it enters are an initial part of
    the fixed order set_position, get_best_move, evaluate_position,
    get_legal_moves, is_checkmate, is_stalemate, is_in_check, get_fen:
    nothing else is entered, nothing is entered twice or out of order, and
    nothing after the call at which the analysis stopped. *)
Theorem analyzePosition_call_order :
  (forall N (E : Direct.Engine N) (fen : jsstring) (depth : option Z)
          (w : World Direct.ChessEngineWASM N),
      this (snd (Direct.analyzePosition E fen depth w)) = this w /\
      exists t k,
        trace (snd (Direct.analyzePosition E fen depth w)) = trace w ++ t /\
        calls_of t = firstn k analysis_order) /\
  (forall N (E : Buffered.Engine N) (fen : jsstring) (depth : option Z)
          (w : World Buffered.ChessEngineWASM N),
      this (snd (Buffered.analyzePosition E fen depth w)) = this w /\
      exists t k,
        trace (snd (Buffered.analyzePosition E fen depth w)) = trace w ++ t /\
        calls_of t = firstn k analysis_order).
Proof.
  split; intros N E fen depth w.
  - destruct (Direct_analyzePosition_in_order E fen depth w)
      as [Ho [t [Ht [k Hk]]]].
    split; [exact Ho |]. exists t, k. auto.
  - destruct (Buffered_analyzePosition_in_order E fen depth w)
      as [Ho [t [Ht [k Hk]]]].
    split; [exact Ho |]. exists t, k. auto.
Qed.

(** X13.  In both generations, when [setPosition] answers true and each of
    the seven operations that follow returns, each in the world the one
    before it left, [analyzePosition] returns the success report whose
    fields are exactly their results ([moveCount] being the length of the
    legal moves and [depth] the depth handed to [getBestMove]), and the
    world it leaves is the one [getCurrentFen] left. *)
Theorem analyzePosition_success :
  (forall N (E : Direct.Engine N) (fen : jsstring) (depth : option Z)
          (w w1 w2 w3 w4 w5 w6 w7 w8 : World Direct.ChessEngineWASM N)
          bestMove evaluation legalMoves isCheckmate isStalemate isInCheck
          fen',
      Direct.setPosition E fen w = (Ret true, w1) ->
      Direct.getBestMove E (Some (default_arg 4 depth)) w1
        = (Ret bestMove, w2) ->
      Direct.evaluatePosition E w2 = (Ret evaluation, w3) ->
      Direct.getLegalMoves E w3 = (Ret legalMoves, w4) ->
      Direct.isCheckmate E w4 = (Ret isCheckmate, w5) ->
      Direct.isStalemate E w5 = (Ret isStalemate, w6) ->
      Direct.isInCheck E w6 = (Ret isInCheck, w7) ->
      Direct.getCurrentFen E w7 = (Ret fen', w8) ->
      Direct.analyzePosition E fen depth w
        = (Ret (SuccessReport true bestMove evaluation legalMoves
                  (List.length legalMoves)
                  {| gs_isCheckmate := isCheckmate;
                     gs_isStalemate := isStalemate;
                     gs_isInCheck := isInCheck |}
                  (default_arg 4 depth) fen'), w8)) /\
  (forall N (E : Buffered.Engine N) (fen : jsstring) (depth : option Z)
          (w w1 w2 w3 w4 w5 w6 w7 w8 : World Buffered.ChessEngineWASM N)
          bestMove evaluation legalMoves isCheckmate isStalemate isInCheck
          fen',
      Buffered.setPosition E fen w = (Ret true, w1) ->
      Buffered.getBestMove E (Some (default_arg 4 depth)) w1
        = (Ret bestMove, w2) ->
      Buffered.evaluatePosition E w2 = (Ret evaluation, w3) ->
      Buffered.getLegalMoves E w3 = (Ret legalMoves, w4) ->
      Buffered.isCheckmate E w4 = (Ret isCheckmate, w5) ->
      Buffered.isStalemate E w5 = (Ret isStalemate, w6) ->
      Buffered.isInCheck E w6 = (Ret isInCheck, w7) ->
      Buffered.getCurrentFen E w7 = (Ret fen', w8) ->
      Buffered.analyzePosition E fen depth w
        = (Ret (SuccessReport true bestMove evaluation legalMoves
                  (List.length legalMoves)
                  {| gs_isCheckmate := isCheckmate;
                     gs_isStalemate := isStalemate;
                     gs_isInCheck := isInCheck |}
                  (default_arg 4 depth) fen'), w8)).
Proof.
  split; intros N E fen depth w w1 w2 w3 w4 w5 w6 w7 w8
    bestMove evaluation legalMoves isCheckmate isStalemate isInCheck fen'
    H1 H2 H3 H4 H5 H6 H7 H8.
  - unfold Direct.analyzePosition, try_catch.
    rewrite (bind_ret_eq _ _ _ H1). cbn [negb].
    rewrite (bind_ret_eq _ _ _ H2), (bind_ret_eq _ _ _ H3),
      (bind_ret_eq _ _ _ H4), (bind_ret_eq _ _ _ H5),
      (bind_ret_eq _ _ _ H6), (bind_ret_eq _ _ _ H7),
      (bind_ret_eq _ _ _ H8).
    reflexivity.
  - unfold Buffered.analyzePosition, try_catch.
    rewrite (bind_ret_eq _ _ _ H1). cbn [negb].
    rewrite (bind_ret_eq _ _ _ H2), (bind_ret_eq _ _ _ H3),
      (bind_ret_eq _ _ _ H4), (bind_ret_eq _ _ _ H5),
      (bind_ret_eq _ _ _ H6), (bind_ret_eq _ _ _ H7),
      (bind_ret_eq _ _ _ H8).
    reflexivity.
Qed.

(** The worlds of a run of the sample engine, one after each operation. *)
Lemma analyzePosition_success_witness :
  fst (Buffered.analyzePosition Samples.buffered_good Samples.start_fen
         (Some 2%Z) (Samples.buffered_ready Samples.buffered_good))
  = Ret (SuccessReport true (Some (lit "e2e4")) 25
           [lit "e2e4"; lit "d2d4"] 2
           {| gs_isCheckmate := false; gs_isStalemate := false;
              gs_isInCheck := false |}
           2 Samples.start_fen).
Proof.
  pose (E := Samples.buffered_good).
  pose (w := Samples.buffered_ready E).
  pose (w1 := snd (Buffered.setPosition E Samples.start_fen w)).
  pose (w2 := snd (Buffered.getBestMove E (Some 2%Z) w1)).
  pose (w3 := snd (Buffered.evaluatePosition E w2)).
  pose (w4 := snd (Buffered.getLegalMoves E w3)).
  pose (w5 := snd (Buffered.isCheckmate E w4)).
  pose (w6 := snd (Buffered.isStalemate E w5)).
  pose (w7 := snd (Buffered.isInCheck E w6)).
  pose (w8 := snd (Buffered.getCurrentFen E w7)).
  pose proof (proj2 analyzePosition_success _ E Samples.start_fen (Some 2%Z)
                w w1 w2 w3 w4 w5 w6 w7 w8
                (Some (lit "e2e4")) 25%Z [lit "e2e4"; lit "d2d4"]
                false false false Samples.start_fen
                ltac:(vm_compute; reflexivity) ltac:(vm_compute; reflexivity)
                ltac:(vm_compute; reflexivity) ltac:(vm_compute; reflexivity)
                ltac:(vm_compute; reflexivity) ltac:(vm_compute; reflexivity)
                ltac:(vm_compute; reflexivity) ltac:(vm_compute; reflexivity))
    as Hrun.
  unfold w, E in Hrun. rewrite Hrun. reflexivity.
Defined.

(** X14.  In both generations [analyzePosition] on an engine that is not
    Initialized returns the report whose only field is the error "Engine
    not initialized" and leaves the world as it was: the guard of
    [setPosition] stops it before any native call. *)
Theorem analyzePosition_requires_initialized :
  (forall N (E : Direct.Engine N) (fen : jsstring) (depth : option Z)
          (w : World Direct.ChessEngineWASM N),
      Direct.state_of (this w) <> Initialized ->
      Direct.analyzePosition E fen depth w
        = (Ret (ErrorReport (Some "Engine not initialized"%string)), w)) /\
  (forall N (E : Buffered.Engine N) (fen : jsstring) (depth : option Z)
          (w : World Buffered.ChessEngineWASM N),
      Buffered.state_of (this w) <> Initialized ->
      Buffered.analyzePosition E fen depth w
        = (Ret (ErrorReport (Some "Engine not initialized"%string)), w)).
Proof.
  split; intros N E fen depth w Hs.
  - apply Direct_not_initialized in Hs.
    assert (Hset : Direct.setPosition E fen w = (Throw not_initialized, w))
      by (apply bind_throw_eq; apply Direct_guard_throws; exact Hs).
    unfold Direct.analyzePosition, try_catch.
    rewrite (bind_throw_eq _ _ _ Hset). reflexivity.
  - apply Buffered_not_initialized in Hs.
    assert (Hset : Buffered.setPosition E fen w = (Throw not_initialized, w))
      by (apply bind_throw_eq; apply Buffered_guard_throws; exact Hs).
    unfold Buffered.analyzePosition, try_catch.
    rewrite (bind_throw_eq _ _ _ Hset). reflexivity.
Qed.

Lemma analyzePosition_requires_initialized_witness :
  Direct.analyzePosition Samples.direct_good Samples.start_fen None
    Samples.direct_loaded
  = (Ret (ErrorReport (Some "Engine not initialized"%string)),
     Samples.direct_loaded) /\
  Buffered.analyzePosition Samples.buffered_good Samples.start_fen None
    Samples.buffered_new
  = (Ret (ErrorReport (Some "Engine not initialized"%string)),
     Samples.buffered_new).
Proof.
  split.
  - apply (proj1 analyzePosition_requires_initialized).
    vm_compute. discriminate.
  - apply (proj2 analyzePosition_requires_initialized).
    vm_compute. discriminate.
Defined.

(** ** Loading and the lifecycle as a whole *)

(** X15.  In both generations [loadModule] never throws and never touches
    the native side: it answers false exactly when the load met a fault and
    true otherwise, the native state, the record of native activity and the
    flag [isInitialized] are as they were, and the binding is marked ready
    afterwards exactly when it was ready before or the load answered true:
    a failed load never unloads a binding. *)
Theorem loadModule_outcome :
  (forall N (H : Direct.Host) (wasmPath jsPath : jsstring)
          (w : World Direct.ChessEngineWASM N),
      exists b w',
        Direct.loadModule H wasmPath jsPath w = (Ret b, w') /\
        b = negb (Direct_load_fault H jsPath) /\
        native w' = native w /\ trace w' = trace w /\
        Direct.isInitialized (this w') = Direct.isInitialized (this w) /\
        Direct.isReady (this w') = Direct.isReady (this w) || b) /\
  (forall N (H : Buffered.Host) (baseUrl : option jsstring)
          (w : World Buffered.ChessEngineWASM N),
      exists b w',
        Buffered.loadModule H baseUrl w = (Ret b, w') /\
        b = negb (Buffered_load_fault H baseUrl) /\
        native w' = native w /\ trace w' = trace w /\
        Buffered.isInitialized (this w') = Buffered.isInitialized (this w) /\
        Buffered.isReady (this w') = Buffered.isReady (this w) || b).
Proof.
  split.
  - intros N H wasmPath jsPath w.
    destruct (Direct_loadModule_spec H wasmPath jsPath w)
      as [Hres [[Hn [Ht Hi]] Hr]].
    destruct (Direct.loadModule H wasmPath jsPath w) as [r w'].
    cbn [fst snd] in *. subst r.
    exists (negb (Direct_load_fault H jsPath)), w'.
    repeat split; auto. rewrite Hr.
    destruct (Direct_load_fault H jsPath), (Direct.isReady (this w));
      reflexivity.
  - intros N H baseUrl w.
    destruct (Buffered_loadModule_spec H baseUrl w)
      as [Hres [[Hn [Ht Hi]] Hr]].
    destruct (Buffered.loadModule H baseUrl w) as [r w'].
    cbn [fst snd] in *. subst r.
    exists (negb (Buffered_load_fault H baseUrl)), w'.
    repeat split; auto. rewrite Hr.
    destruct (Buffered_load_fault H baseUrl), (Buffered.isReady (this w));
      reflexivity.
Qed.

(** X16.  After a load that answered true every wrapper is bound and the
    binding is marked ready; in the buffered generation the memory helpers
    and the decoder are bound as well. *)
Lemma loadModule_binds_everything :
  (forall N (H : Direct.Host) (wasmPath jsPath : jsstring)
          (w w' : World Direct.ChessEngineWASM N),
      Direct.loadModule H wasmPath jsPath w = (Ret true, w') ->
      Direct.isReady (this w') = true /\
      forall s, Direct.wrappers (this w') s = true) /\
  (forall N (H : Buffered.Host) (baseUrl : option jsstring)
          (w w' : World Buffered.ChessEngineWASM N),
      Buffered.loadModule H baseUrl w = (Ret true, w') ->
      Buffered.isReady (this w') = true /\
      Buffered._malloc (this w') = true /\
      Buffered._free (this w') = true /\
      Buffered._decodeCString (this w') <> None /\
      forall s, Buffered.wrappers (this w') s = true).
Proof.
  split.
  - intros N H wasmPath jsPath w w'.
    unfold Direct.loadModule, try_catch, bind.
    destruct (Direct.dynamic_import H jsPath) as [[m | e] | e];
      [| cbn; discriminate ..].
    unfold assign at 1, Direct.setupFunctionWrappers.
    cbn [this Direct.set_module Direct.module].
    match goal with
    | |- context [Direct.bind_wrappers ?m ?l ?w] =>
        destruct (Direct.bind_wrappers m l w) as [[[] | e1] w1] eqn:Hbw
    end; [| cbn; discriminate].
    cbn. intros [= <-]. cbn. split; [reflexivity |].
    intros s. eapply Direct_bind_wrappers_bound; [exact Hbw |].
    left. apply all_syms_complete.
  - intros N H baseUrl w w'.
    unfold Buffered.loadModule, try_catch, bind, Buffered.loadScript.
    cbv zeta.
    destruct (Buffered.script_error H _) as [e |]; [cbn; discriminate |].
    unfold ret at 1.
    destruct (Buffered.ChessEngine H _) as [factory |];
      [| cbn; discriminate].
    destruct (factory _) as [m | e]; [| cbn; discriminate].
    unfold assign at 1, Buffered.setupFunctionWrappers.
    cbn [this Buffered.set_module Buffered.module]. unfold bind.
    match goal with
    | |- context [Buffered.bind_wrappers ?m ?l ?w] =>
        destruct (Buffered.bind_wrappers m l w) as [[[] | e1] w1] eqn:Hbw
    end; [| cbn; discriminate].
    unfold assign.
    destruct (has_malloc m), (has_free m); cbn; try discriminate.
    intros [= <-]. cbn. repeat split; try discriminate.
    intros s. eapply Buffered_bind_wrappers_bound; [exact Hbw |].
    left. apply all_syms_complete.
Qed.

Lemma loadModule_binds_everything_witness :
  (forall s, Direct.wrappers (this Samples.direct_loaded) s = true) /\
  Buffered._free (this Samples.buffered_loaded) = true.
Proof.
  split.
  - destruct (proj1 loadModule_binds_everything _
                (Samples.direct_host (Ret (Ret Samples.full_module)))
                (lit "chess_wasm.wasm") (lit "chess_wasm.js")
                Samples.direct_new Samples.direct_loaded
                ltac:(vm_compute; reflexivity)) as [_ Hall].
    exact Hall.
  - destruct (proj2 loadModule_binds_everything _
                (Samples.buffered_host None (Some (Ret Samples.full_module)))
                None Samples.buffered_new Samples.buffered_loaded
                ltac:(vm_compute; reflexivity)) as [_ [_ [Hfree _]]].
    exact Hfree.
Defined.









(** ** The base URL *)

Lemma normalizeBaseUrl_slash (u : jsstring) :
  normalizeBaseUrl (u ++ [47%N]) = u.
Proof.
  unfold normalizeBaseUrl. rewrite rev_app_distr. cbn.
  apply rev_involutive.
Qed.

Lemma normalizeBaseUrl_plain (u : jsstring) :
  last u 0%N <> 47%N -> normalizeBaseUrl u = u.
Proof.
  intros Hl. unfold normalizeBaseUrl.
  destruct (rev u) as [| c r] eqn:Hrev; [reflexivity |].
  assert (Hu : u = rev r ++ [c]).
  { rewrite <- (rev_involutive u), Hrev. reflexivity. }
  destruct (N.eqb_spec c 47) as [-> | Hc]; [| reflexivity].
  exfalso. apply Hl. rewrite Hu. apply last_last.
Qed.

(** X18.  In the script-loading generation the base URL may be given with
    or without its final slash: for a base that does not end in a slash,
    loading from it and loading from it followed by "/" are the same run,
    asking the host for the same two files.  An omitted base, which
    defaults to "./", loads as "." does. *)
Theorem loadModule_trailing_slash :
  forall N (H : Buffered.Host) (w : World Buffered.ChessEngineWASM N),
    (forall u,
        last u 0%N <> 47%N ->
        Buffered.loadModule H (Some (u ++ lit "/")) w
          = Buffered.loadModule H (Some u) w) /\
    Buffered.loadModule H None w = Buffered.loadModule H (Some (lit ".")) w.
Proof.
  intros N H w. split.
  - intros u Hl. unfold Buffered.loadModule. cbv zeta.
    change (lit "/") with [47%N].
    rewrite normalizeBaseUrl_slash, (normalizeBaseUrl_plain u Hl).
    reflexivity.
  - reflexivity.
Qed.

Lemma loadModule_trailing_slash_witness :
  Buffered.loadModule Samples.buffered_host_missing (Some (lit "/engine/"))
    Samples.buffered_new
  = Buffered.loadModule Samples.buffered_host_missing (Some (lit "/engine"))
      Samples.buffered_new.
Proof.
  apply (proj1 (loadModule_trailing_slash Samples.buffered_host_missing
                  Samples.buffered_new) (lit "/engine")).
  vm_compute. discriminate.
Defined.

(** ** The tokens of the legal-move payload *)

Lemma split_on_token (sep : N) (t rest cur : jsstring) :
  ~ In sep t ->
  split_on sep cur (t ++ rest) = split_on sep (rev t ++ cur) rest.
Proof.
  revert cur. induction t as [| c t IH]; intros cur Hn; [reflexivity |].
  cbn [app split_on].
  destruct (N.eqb_spec c sep) as [-> | Hc]; [exfalso; apply Hn; left; auto |].
  rewrite IH by (intros Hin; apply Hn; right; exact Hin).
  cbn [rev]. rewrite <- app_assoc. reflexivity.
Qed.

Lemma split_on_join (sep : N) (l : list jsstring) (t cur : jsstring) :
  Forall (fun t => ~ In sep t) (t :: l) ->
  split_on sep cur (join sep (t :: l))
    = (rev cur ++ t) :: l.
Proof.
  revert t cur. induction l as [| t2 l IH]; intros t cur Hall.
  - cbn [join]. rewrite <- (app_nil_r t) at 1.
    rewrite split_on_token by (inversion Hall; assumption).
    cbn [split_on]. rewrite rev_app_distr, rev_involutive. reflexivity.
  - change (join sep (t :: t2 :: l)) with (t ++ sep :: join sep (t2 :: l)).
    rewrite split_on_token by (inversion Hall; assumption).
    cbn [split_on]. rewrite N.eqb_refl.
    rewrite rev_app_distr, rev_involutive.
    rewrite IH by (inversion Hall; assumption). reflexivity.
Qed.

Lemma filter_all {A} (f : A -> bool) (l : list A) :
  Forall (fun x => f x = true) l -> filter f l = l.
Proof.
  induction 1 as [| x l Hx _ IH]; [reflexivity |].
  cbn. rewrite Hx, IH. reflexivity.
Qed.

(** What the comma-separated generation makes of the text of a list of
    tokens. *)
Lemma comma_round_trip (l : list jsstring) :
  Forall (fun t => t <> [] /\ ~ In 44%N t) l ->
  (if truthy (join 44 l)
   then filter (fun m : jsstring => (0 <? List.length m)%nat)
          (split 44 (join 44 l))
   else []) = l.
Proof.
  intros Hall. destruct l as [| t l].
  - reflexivity.
  - assert (Hsplit : split 44 (join 44 (t :: l)) = t :: l).
    { unfold split. rewrite split_on_join; [reflexivity |].
      eapply Forall_impl; [| exact Hall]. cbn. tauto. }
    rewrite Hsplit.
    assert (Hne : truthy (join 44 (t :: l)) = true).
    { inversion Hall as [| ? ? [Ht _] _]. destruct t; [congruence |].
      destruct l; reflexivity. }
    rewrite Hne. apply filter_all.
    eapply Forall_impl; [| exact Hall]. cbn. intros a [Ha _].
    destruct a; [congruence | reflexivity].
Qed.

Lemma split_on_no_separator (sep : N) (s cur t : jsstring) :
  ~ In sep cur -> In t (split_on sep cur s) -> ~ In sep t.
Proof.
  revert cur. induction s as [| c s IH]; intros cur Hcur.
  - cbn. intros [<- | []]. rewrite <- in_rev. exact Hcur.
  - cbn [split_on]. destruct (N.eqb_spec c sep) as [-> | Hc].
    + intros [<- | Hin].
      * rewrite <- in_rev. exact Hcur.
      * apply (IH [] (fun H => H) Hin).
    + apply IH. intros [Heq | Hin]; [congruence | exact (Hcur Hin)].
Qed.

Lemma split_ws_no_whitespace (s cur t : jsstring) (inrun : bool) :
  (forall c, In c cur -> isWhiteSpace c = false) ->
  In t (split_ws inrun cur s) ->
  forall c, In c t -> isWhiteSpace c = false.
Proof.
  revert cur inrun. induction s as [| c0 s IH]; intros cur inrun Hcur.
  - cbn. intros [<- | []] c Hc. apply Hcur. rewrite in_rev. exact Hc.
  - cbn [split_ws]. destruct (isWhiteSpace c0) eqn:Hw.
    + destruct inrun.
      * apply IH. intros c [].
      * intros [<- | Hin].
        -- intros c Hc. apply Hcur. rewrite in_rev. exact Hc.
        -- revert Hin. apply IH. intros c [].
    + apply IH. intros c [<- | Hc]; [exact Hw | exact (Hcur c Hc)].
Qed.

Lemma split_ws_token (c : N) (t rest cur : jsstring) (inrun : bool) :
  (forall x, In x (c :: t) -> isWhiteSpace x = false) ->
  split_ws inrun cur ((c :: t) ++ rest)
    = split_ws false (rev (c :: t) ++ cur) rest.
Proof.
  revert c cur inrun. induction t as [| c2 t IH]; intros c cur inrun Hs.
  - cbn [app split_ws rev]. rewrite (Hs c) by (left; reflexivity).
    reflexivity.
  - change ((c :: c2 :: t) ++ rest) with (c :: ((c2 :: t) ++ rest)).
    cbn [split_ws]. rewrite (Hs c) by (left; reflexivity).
    rewrite IH by (intros x Hx; apply Hs; right; exact Hx).
    cbn [rev]. rewrite <- !app_assoc. reflexivity.
Qed.

Lemma split_ws_join (sep : N) (l : list jsstring) (t : jsstring)
    (inrun : bool) :
  isWhiteSpace sep = true ->
  Forall (fun t => t <> [] /\ forall x, In x t -> isWhiteSpace x = false)
    (t :: l) ->
  split_ws inrun [] (join sep (t :: l)) = t :: l.
Proof.
  intros Hsep. revert t inrun.
  induction l as [| t2 l IH]; intros t inrun Hall;
    inversion Hall as [| ? ? [Hne Hsolid] Hrest]; subst;
    destruct t as [| c t]; try congruence.
  - cbn [join]. rewrite <- (app_nil_r (c :: t)) at 1.
    rewrite split_ws_token by exact Hsolid.
    cbn [split_ws]. rewrite app_nil_r, rev_involutive. reflexivity.
  - change (join sep ((c :: t) :: t2 :: l))
      with ((c :: t) ++ sep :: join sep (t2 :: l)).
    rewrite split_ws_token by exact Hsolid.
    cbn [split_ws]. rewrite Hsep, app_nil_r, rev_involutive.
    rewrite IH by exact Hrest. reflexivity.
Qed.

Lemma trimStart_blank_app (lead s : jsstring) :
  forallb isWhiteSpace lead = true -> trimStart (lead ++ s) = trimStart s.
Proof.
  induction lead as [| c lead IH]; [reflexivity |].
  cbn [forallb app trimStart]. intros Hb.
  apply andb_true_iff in Hb as [Hc Hl]. rewrite Hc. exact (IH Hl).
Qed.

Lemma forallb_rev {A} (f : A -> bool) (l : list A) :
  forallb f l = true -> forallb f (rev l) = true.
Proof.
  rewrite !forallb_forall. intros Hl x Hx. apply Hl. rewrite in_rev.
  exact Hx.
Qed.

(** The text of a non-empty list of tokens starts and ends with a code
    unit that is not white space. *)
Lemma join_solid (sep : N) (l : list jsstring) (t : jsstring) :
  Forall (fun t => t <> [] /\ forall x, In x t -> isWhiteSpace x = false)
    (t :: l) ->
  (exists c r, join sep (t :: l) = c :: r /\ isWhiteSpace c = false) /\
  (exists c r, rev (join sep (t :: l)) = c :: r /\ isWhiteSpace c = false).
Proof.
  revert t. induction l as [| t2 l IH]; intros t Hall;
    inversion Hall as [| ? ? [Hne Hsolid] Hrest]; subst.
  - cbn [join]. split.
    + destruct t as [| c t]; [congruence |].
      exists c, t. split; [reflexivity |]. apply Hsolid. left. reflexivity.
    + destruct (rev t) as [| c r] eqn:Hrev.
      * apply (f_equal (@rev N)) in Hrev. rewrite rev_involutive in Hrev.
        contradiction.
      * exists c, r. split; [reflexivity |]. apply Hsolid.
        rewrite in_rev, Hrev. left. reflexivity.
  - change (join sep (t :: t2 :: l)) with (t ++ sep :: join sep (t2 :: l)).
    split.
    + destruct t as [| c t]; [congruence |].
      exists c, (t ++ sep :: join sep (t2 :: l)).
      split; [reflexivity |]. apply Hsolid. left. reflexivity.
    + destruct (IH t2 Hrest) as [_ [c [r [Hrev Hc]]]].
      exists c, (r ++ sep :: rev t).
      split; [| exact Hc].
      rewrite rev_app_distr. cbn [rev]. rewrite Hrev.
      rewrite <- !app_assoc. reflexivity.
Qed.

Lemma trim_padded (lead s trail : jsstring) :
  forallb isWhiteSpace lead = true ->
  forallb isWhiteSpace trail = true ->
  (exists c r, s = c :: r /\ isWhiteSpace c = false) ->
  (exists c r, rev s = c :: r /\ isWhiteSpace c = false) ->
  trim (lead ++ s ++ trail) = s.
Proof.
  intros Hlead Htrail [c [r [Hs Hc]]] [c' [r' [Hrev Hc']]].
  unfold trim. rewrite trimStart_blank_app by assumption.
  assert (H1 : trimStart (s ++ trail) = s ++ trail).
  { rewrite Hs. cbn [app trimStart]. rewrite Hc. reflexivity. }
  rewrite H1, rev_app_distr.
  rewrite trimStart_blank_app by (apply forallb_rev; assumption).
  rewrite Hrev. cbn [trimStart]. rewrite Hc'. rewrite <- Hrev.
  apply rev_involutive.
Qed.

(** What the buffered generation makes of the text of a list of tokens,
    padded with white space. *)
Lemma whitespace_round_trip (sep : N) (lead trail : jsstring)
    (l : list jsstring) :
  isWhiteSpace sep = true ->
  forallb isWhiteSpace lead = true ->
  forallb isWhiteSpace trail = true ->
  Forall (fun t => t <> [] /\ forall x, In x t -> isWhiteSpace x = false) l ->
  (let movesStr := trim (lead ++ join sep l ++ trail) in
   if negb (truthy movesStr) then []
   else filter truthy (split_whitespace movesStr)) = l.
Proof.
  intros Hsep Hlead Htrail Hall. cbv zeta. destruct l as [| t l].
  - cbn [join app]. rewrite trim_blank; [reflexivity |].
    rewrite forallb_app, Hlead, Htrail. reflexivity.
  - destruct (@join_solid sep l t Hall) as [Hhead Hlast].
    rewrite trim_padded by assumption.
    destruct Hhead as [c [r [Hj _]]].
    assert (Ht : truthy (join sep (t :: l)) = true)
      by (rewrite Hj; reflexivity).
    rewrite Ht. cbn [negb]. unfold split_whitespace.
    rewrite split_ws_join by assumption. apply filter_all.
    eapply Forall_impl; [| exact Hall]. cbn. intros a [Ha _].
    destruct a; [congruence | reflexivity].
Qed.

(** X19.  The comma-separated generation gives back the tokens the native
    side listed: when the payload is a list of tokens, none empty and none
    holding a comma, written with a comma between them, [getLegalMoves]
    returns exactly that list, in order (the empty list for the empty
    payload). *)
Theorem getLegalMoves_comma_round_trip :
  forall N (E : Direct.Engine N) (w : World Direct.ChessEngineWASM N)
         (l : list jsstring) (n' : N),
    Direct.state_of (this w) = Initialized ->
    Direct.wrappers (this w) sym_chess_get_legal_moves = true ->
    Forall (fun t => t <> [] /\ ~ In 44%N t) l ->
    Direct.chess_get_legal_moves E (native w) = (Ret (join 44 l), n') ->
    Direct.getLegalMoves E w
      = (Ret l, after_call w sym_chess_get_legal_moves n').
Proof.
  intros N E w l n' Hs Hb Hall Hn. apply Direct_state_initialized in Hs.
  unfold Direct.getLegalMoves, bind, Direct.require_initialized,
    Direct.wrapped, call_native, ret, after_call.
  rewrite Hs. cbn [this native trace]. rewrite Hb, Hn.
  pose proof (comma_round_trip Hall) as Hround.
  unfold jsstring in Hround |- *. cbv beta iota zeta.
  rewrite Hround. reflexivity.
Qed.

Lemma getLegalMoves_comma_round_trip_witness :
  fst (Direct.getLegalMoves Samples.direct_good
         (Samples.direct_ready Samples.direct_good))
    = Ret [lit "e2e4"; lit "d2d4"].
Proof.
  rewrite (@getLegalMoves_comma_round_trip _ Samples.direct_good
             (Samples.direct_ready Samples.direct_good)
             [lit "e2e4"; lit "d2d4"] 0%nat
             ltac:(vm_compute; reflexivity) ltac:(vm_compute; reflexivity)).
  - reflexivity.
  - repeat constructor; try discriminate;
      vm_compute; intuition discriminate.
  - vm_compute. reflexivity.
Defined.

(** X20.  The buffered generation gives back the tokens the native side
    listed: on an Initialized engine whose helpers [_malloc] and [_free]
    are bound, when the decoded payload is a list of tokens, none empty and
    none holding white space, written with one white-space code unit
    between them and any white space before and after, [getLegalMoves]
    returns exactly that list, in order, whatever the non-negative count
    says, and releases the region. *)
Theorem getLegalMoves_whitespace_round_trip :
  forall N (E : Buffered.Engine N) (w : World Buffered.ChessEngineWASM N)
         (l : list jsstring) (sep : BinNums.N) (lead trail : jsstring)
         (ptr count : Z) (n1 n2 : N),
    Buffered.state_of (this w) = Initialized ->
    Buffered._malloc (this w) = true ->
    Buffered._free (this w) = true ->
    Buffered.wrappers (this w) sym_chess_get_legal_moves = true ->
    Buffered.malloc E 4096 (native w) = (ptr, n1) ->
    ptr <> 0%Z ->
    Buffered.chess_get_legal_moves E ptr 4096 n1 = (Ret count, n2) ->
    (0 <= count)%Z ->
    isWhiteSpace sep = true ->
    forallb isWhiteSpace lead = true ->
    forallb isWhiteSpace trail = true ->
    Forall (fun t => t <> [] /\ forall x, In x t -> isWhiteSpace x = false)
      l ->
    let w2 := {| this := this w; native := n2;
                 trace := trace w ++ [EvMalloc 4096 ptr;
                                      EvCall sym_chess_get_legal_moves] |} in
    Buffered.decodeCString E ptr w2
      = (Ret (lead ++ join sep l ++ trail), w2) ->
    Buffered.getLegalMoves E w
      = (Ret l,
         {| this := this w; native := Buffered.free E ptr n2;
            trace := trace w ++ [EvMalloc 4096 ptr;
                                 EvCall sym_chess_get_legal_moves;
                                 EvFree ptr] |}).
Proof.
  intros N E w l sep lead trail ptr count n1 n2 Hs Hm Hf Hb Ha Hp Hn Hc
    Hsep Hlead Htrail Hall w2 Hd.
  apply Buffered_state_initialized in Hs.
  rewrite Buffered_getLegalMoves_shape.
  apply (@Buffered_with_scratch_finally _ _ E _ _ _ w ptr n1 n2 _
           [EvCall sym_chess_get_legal_moves] Hs Hm Hf Ha Hp).
  erewrite bind_ret_eq by (apply Buffered_wrapped_in_region; eassumption).
  apply Z.ltb_ge in Hc. rewrite Hc.
  erewrite bind_ret_eq by exact Hd.
  pose proof (@whitespace_round_trip sep lead trail l Hsep Hlead Htrail
                Hall) as Hround.
  cbv zeta in Hround |- *.
  destruct (negb (truthy (trim (lead ++ join sep l ++ trail))));
    unfold ret; [rewrite <- Hround | rewrite Hround]; reflexivity.
Qed.

Lemma getLegalMoves_whitespace_round_trip_witness :
  fst (Buffered.getLegalMoves Samples.buffered_good
         (Samples.buffered_ready Samples.buffered_good))
    = Ret [lit "e2e4"; lit "d2d4"].
Proof.
  rewrite (@getLegalMoves_whitespace_round_trip _ Samples.buffered_good
             (Samples.buffered_ready Samples.buffered_good)
             [lit "e2e4"; lit "d2d4"] 32%N [] []
             1024%Z 2%Z (0%nat, []) (0%nat, lit "e2e4 d2d4")
             ltac:(vm_compute; reflexivity) ltac:(vm_compute; reflexivity)
             ltac:(vm_compute; reflexivity) ltac:(vm_compute; reflexivity)
             ltac:(vm_compute; reflexivity) ltac:(discriminate)
             ltac:(vm_compute; reflexivity) ltac:(lia)
             ltac:(vm_compute; reflexivity) ltac:(vm_compute; reflexivity)
             ltac:(vm_compute; reflexivity)).
  - reflexivity.
  - repeat constructor; try discriminate;
      intros x Hx; vm_compute in Hx;
      repeat (destruct Hx as [<- | Hx]; [reflexivity |]); destruct Hx.
  - vm_compute. reflexivity.
Defined.

(** X21.  No separator survives in a token.  In the comma-separated
    generation no token returned by [getLegalMoves] holds a comma; in the
    buffered generation no token holds a white-space code unit. *)
Theorem getLegalMoves_tokens_have_no_separator :
  (forall N (E : Direct.Engine N) (w w' : World Direct.ChessEngineWASM N)
          (l : list jsstring) (t : jsstring),
      Direct.getLegalMoves E w = (Ret l, w') ->
      In t l -> ~ In 44%N t) /\
  (forall N (E : Buffered.Engine N) (w w' : World Buffered.ChessEngineWASM N)
          (l : list jsstring) (t : jsstring) (c : BinNums.N),
      Buffered.getLegalMoves E w = (Ret l, w') ->
      In t l -> In c t -> isWhiteSpace c = false).
Proof.
  split.
  - intros N E w w' l t.
    unfold Direct.getLegalMoves, bind, ret.
    destruct (Direct.require_initialized w) as [[[] | e] w1];
      [| discriminate].
    destruct (Direct.wrapped _ _ w1) as [[payload | e] w2]; [| discriminate].
    intros [= <- _]. destruct (truthy payload); [| intros []].
    intros Hin. apply filter_In in Hin as [Hin _].
    apply (split_on_no_separator 44 payload [] t (fun H => H) Hin).
  - intros N E w w' l t c.
    unfold Buffered.getLegalMoves, bind, ret, try_finally.
    destruct (Buffered.require_initialized w) as [[[] | e] w1];
      [| discriminate].
    destruct (Buffered.call_malloc E 4096 w1) as [[ptr | e] w2];
      [| discriminate].
    destruct (ptr =? 0)%Z; [discriminate |].
    destruct (Buffered.wrapped _ _ w2) as [[count | e] w3].
    + destruct (count <? 0)%Z.
      * destruct (Buffered.call_free E ptr w3) as [[[] | e] w4];
          [| discriminate].
        intros [= <- _]. intros [].
      * destruct (Buffered.decodeCString E ptr w3) as [[payload | e] w4].
        -- destruct (negb (truthy (trim payload)));
             destruct (Buffered.call_free E ptr w4) as [[[] | e'] w5];
             try discriminate; intros [= <- _]; [intros [] |].
           intros Hin. apply filter_In in Hin as [Hin _].
           apply (split_ws_no_whitespace (trim payload) [] t false
                    (fun c H => match H with end) Hin).
        -- destruct (Buffered.call_free E ptr w4) as [[[] | e'] w5];
             discriminate.
    + destruct (Buffered.call_free E ptr w3) as [[[] | e'] w4];
        discriminate.
Qed.

Lemma getLegalMoves_tokens_have_no_separator_witness :
  ~ In 44%N (lit "e2e4") /\ isWhiteSpace 101 = false.
Proof.
  destruct getLegalMoves_tokens_have_no_separator as [Hd Hb]. split.
  - apply (Hd _ Samples.direct_good
             (Samples.direct_ready Samples.direct_good)
             (snd (Direct.getLegalMoves Samples.direct_good
                     (Samples.direct_ready Samples.direct_good)))
             [lit "e2e4"; lit "d2d4"] (lit "e2e4")).
    + vm_compute. reflexivity.
    + left. reflexivity.
  - apply (Hb _ Samples.buffered_good
             (Samples.buffered_ready Samples.buffered_good)
             (snd (Buffered.getLegalMoves Samples.buffered_good
                     (Samples.buffered_ready Samples.buffered_good)))
             [lit "e2e4"; lit "d2d4"] (lit "e2e4") 101%N).
    + vm_compute. reflexivity.
    + left. reflexivity.
    + left. reflexivity.
Defined.

(** ** A reload that fails on the memory helpers *)

(** X22.  In the buffered generation [setupFunctionWrappers] assigns
    [_malloc] and [_free] before it checks them.  So a load from a module
    that binds every symbol and lacks a memory helper answers false and
    leaves the flags as they were, but leaves the two fields as the module
    had them.  On an engine that was Initialized this unbinds the
    allocator: from then on [getBestMove], [getLegalMoves] and
    [getCurrentFen] throw on the call of the missing helper, before any
    native activity. *)
Theorem failed_reload_unbinds_allocator :
  forall N (E : Buffered.Engine N) (H : Buffered.Host)
         (baseUrl : option jsstring) (w : World Buffered.ChessEngineWASM N)
         (Module : EmModule),
    Buffered_module_of H baseUrl = Some Module ->
    (forall s, cwrap Module s = None) ->
    has_malloc Module = false ->
    let w' := snd (Buffered.loadModule H baseUrl w) in
    fst (Buffered.loadModule H baseUrl w) = Ret false /\
    Buffered.isReady (this w') = Buffered.isReady (this w) /\
    Buffered.isInitialized (this w') = Buffered.isInitialized (this w) /\
    Buffered._malloc (this w') = false /\
    Buffered._free (this w') = has_free Module /\
    (Buffered.isInitialized (this w) = true ->
     (forall depth,
         Buffered.getBestMove E depth w' = (Throw not_a_function, w')) /\
     Buffered.getLegalMoves E w' = (Throw not_a_function, w') /\
     Buffered.getCurrentFen E w' = (Throw not_a_function, w')).
Proof.
  intros N E H baseUrl w Module Hmod Hcw Hm w'.
  assert (Hfields :
    fst (Buffered.loadModule H baseUrl w) = Ret false /\
    Buffered.isReady (this w') = Buffered.isReady (this w) /\
    Buffered.isInitialized (this w') = Buffered.isInitialized (this w) /\
    Buffered._malloc (this w') = false /\
    Buffered._free (this w') = has_free Module).
  { unfold w'. clear w'.
    destruct (Buffered.loadModule H baseUrl w) as [r w'] eqn:Hrun.
    revert Hrun Hmod.
    unfold Buffered.loadModule, Buffered_module_of, try_catch, bind,
      Buffered.loadScript.
    cbv zeta.
    destruct (Buffered.script_error H _) as [e |]; [discriminate 2 |].
    unfold ret at 1.
    destruct (Buffered.ChessEngine H _) as [factory |]; [| discriminate 2].
    destruct (factory _) as [m | e]; [| discriminate 2].
    intros Hrun [= ->]. revert Hrun.
    unfold assign at 1, Buffered.setupFunctionWrappers.
    cbn [this Buffered.set_module Buffered.module]. unfold bind.
    set (w0 := {| this := Buffered.set_module Module (this w);
                  native := native w; trace := trace w |}).
    pose proof (Buffered_bind_wrappers_frame Module all_syms w0)
      as [[_ [_ Hi]] [Hr Hres]].
    assert (Hnone : existsb (throws Module) all_syms = false).
    { apply not_true_is_false. intros Hex.
      apply existsb_exists in Hex as [s [_ Hs]]. unfold throws in Hs.
      rewrite Hcw in Hs. discriminate Hs. }
    rewrite Hnone in Hres. unfold all_syms in *.
    match goal with
    | |- context [Buffered.bind_wrappers ?m ?l ?w] =>
        destruct (Buffered.bind_wrappers m l w) as [r1 w1]
    end.
    cbn [fst snd this w0 Buffered.set_module Buffered.isReady
         Buffered.isInitialized] in Hi, Hr, Hres.
    subst r1. unfold assign. rewrite Hm. cbn [negb orb].
    cbn. intros [= <- <-]. cbn. auto. }
  destruct Hfields as [Hres [Hr [Hi [Hmal Hfree]]]].
  repeat split; try assumption.
  - intros depth. rewrite Buffered_getBestMove_shape.
    unfold Buffered_with_scratch, bind, Buffered.require_initialized,
      Buffered.call_malloc.
    rewrite Hi, H0, Hmal. reflexivity.
  - rewrite Buffered_getLegalMoves_shape.
    unfold Buffered_with_scratch, bind, Buffered.require_initialized,
      Buffered.call_malloc.
    rewrite Hi, H0, Hmal. reflexivity.
  - rewrite Buffered_getCurrentFen_shape.
    unfold Buffered_with_scratch, bind, Buffered.require_initialized,
      Buffered.call_malloc.
    rewrite Hi, H0, Hmal. reflexivity.
Qed.

Lemma failed_reload_unbinds_allocator_witness :
  let w' := snd (Buffered.loadModule Samples.buffered_host_helpless None
                   (Samples.buffered_ready Samples.buffered_good)) in
  Buffered.state_of (this w') = Initialized /\
  Buffered.getCurrentFen Samples.buffered_good w'
    = (Throw not_a_function, w').
Proof.
  destruct (failed_reload_unbinds_allocator Samples.buffered_good
              Samples.buffered_host_helpless None
              (Samples.buffered_ready Samples.buffered_good)
              (Module := Samples.module_without_malloc)
              ltac:(vm_compute; reflexivity) ltac:(intros s; reflexivity)
              ltac:(reflexivity))
    as [_ [_ [_ [_ [_ Hcalls]]]]].
  split.
  - vm_compute. reflexivity.
  - apply (Hcalls ltac:(vm_compute; reflexivity)).
Defined.

(** ** A binding that lost its release helper *)

(** A call that uses a scratch region on a binding whose release helper is
    not bound: once a region is granted, the call of the helper in the
    finally block throws in the place of whatever the body did, and what
    was acquired is not released. *)
Lemma Buffered_with_scratch_unreleased {N A} (E : Buffered.Engine N)
    (bufferSize : Z) (message : string)
    (body : Z -> M (World Buffered.ChessEngineWASM N) A)
    (w : World Buffered.ChessEngineWASM N) (ptr : Z) (n1 : N) :
  (forall p, quiet (body p)) ->
  Buffered.isInitialized (this w) = true ->
  Buffered._malloc (this w) = true ->
  Buffered._free (this w) = false ->
  Buffered.malloc E bufferSize (native w) = (ptr, n1) ->
  ptr <> 0%Z ->
  fst (Buffered_with_scratch E bufferSize message body w)
    = Throw not_a_function /\
  this (snd (Buffered_with_scratch E bufferSize message body w)) = this w /\
  exists t,
    trace (snd (Buffered_with_scratch E bufferSize message body w))
      = trace w ++ EvMalloc bufferSize ptr :: t /\
    acquired t = 0%nat /\ released t = 0%nat.
Proof.
  intros Hbody Hi Hm Hf Ha Hp.
  rewrite (@Buffered_with_scratch_run _ _ E _ _ _ _ _ _ Hi Hm Ha Hp).
  unfold try_finally.
  set (w1 := {| this := this w; native := n1;
                trace := trace w ++ [EvMalloc bufferSize ptr] |}).
  destruct (Hbody ptr w1) as [Ho [t [Ht [Hacq Hrel]]]].
  destruct (body ptr w1) as [r w2]. cbn [snd] in Ho, Ht.
  unfold Buffered.call_free. rewrite Ho. cbn [this w1]. rewrite Hf.
  cbn [fst snd]. split; [reflexivity |]. split; [exact Ho |].
  exists t. rewrite Ht. cbn [trace w1]. rewrite <- app_assoc.
  auto.
Qed.

(** X24.  In the buffered generation, on an Initialized engine whose
    allocator is bound and whose release helper [_free] is not (the state a
    failed reload can leave), each of [getBestMove], [getLegalMoves] and
    [getCurrentFen], once it is granted a region, throws the TypeError of
    the call of [_free] in its finally block, whatever the native function
    and the decoding did: a value they returned and an exception they threw
    are both lost.  The object is as it was, and the region is recorded as
    acquired and never as released. *)
Theorem unbound_release_masks_outcome :
  forall N (E : Buffered.Engine N) (w : World Buffered.ChessEngineWASM N),
    Buffered.state_of (this w) = Initialized ->
    Buffered._malloc (this w) = true ->
    Buffered._free (this w) = false ->
    (forall depth ptr n1,
        Buffered.malloc E 32 (native w) = (ptr, n1) ->
        ptr <> 0%Z ->
        fst (Buffered.getBestMove E depth w) = Throw not_a_function /\
        this (snd (Buffered.getBestMove E depth w)) = this w /\
        exists t,
          trace (snd (Buffered.getBestMove E depth w))
            = trace w ++ EvMalloc 32 ptr :: t /\
          acquired t = 0%nat /\ released t = 0%nat) /\
    (forall ptr n1,
        Buffered.malloc E 4096 (native w) = (ptr, n1) ->
        ptr <> 0%Z ->
        fst (Buffered.getLegalMoves E w) = Throw not_a_function /\
        this (snd (Buffered.getLegalMoves E w)) = this w /\
        exists t,
          trace (snd (Buffered.getLegalMoves E w))
            = trace w ++ EvMalloc 4096 ptr :: t /\
          acquired t = 0%nat /\ released t = 0%nat) /\
    (forall ptr n1,
        Buffered.malloc E 128 (native w) = (ptr, n1) ->
        ptr <> 0%Z ->
        fst (Buffered.getCurrentFen E w) = Throw not_a_function /\
        this (snd (Buffered.getCurrentFen E w)) = this w /\
        exists t,
          trace (snd (Buffered.getCurrentFen E w))
            = trace w ++ EvMalloc 128 ptr :: t /\
          acquired t = 0%nat /\ released t = 0%nat).
Proof.
  intros N E w Hs Hm Hf. apply Buffered_state_initialized in Hs.
  split; [| split].
  - intros depth ptr n1 Ha Hp. rewrite Buffered_getBestMove_shape.
    apply (@Buffered_with_scratch_unreleased _ _ E _ _ _ w ptr n1);
      try assumption.
    intros p. unfold Buffered.wrapped. prove_quiet.
  - intros ptr n1 Ha Hp. rewrite Buffered_getLegalMoves_shape.
    apply (@Buffered_with_scratch_unreleased _ _ E _ _ _ w ptr n1);
      try assumption.
    intros p. unfold Buffered.wrapped. cbv zeta. prove_quiet.
  - intros ptr n1 Ha Hp. rewrite Buffered_getCurrentFen_shape.
    apply (@Buffered_with_scratch_unreleased _ _ E _ _ _ w ptr n1);
      try assumption.
    intros p. unfold Buffered.wrapped. prove_quiet.
Qed.

Lemma unbound_release_masks_outcome_witness :
  fst (Buffered.getCurrentFen Samples.buffered_crashing
         (Samples.buffered_reloaded Samples.buffered_crashing))
    = Throw not_a_function /\
  fst (Buffered.getLegalMoves Samples.buffered_good
         (Samples.buffered_reloaded Samples.buffered_good))
    = Throw not_a_function.
Proof.
  split.
  - destruct (unbound_release_masks_outcome Samples.buffered_crashing
                (Samples.buffered_reloaded Samples.buffered_crashing)
                ltac:(vm_compute; reflexivity) ltac:(vm_compute; reflexivity)
                ltac:(vm_compute; reflexivity)) as [_ [_ Hfen]].
    destruct (Hfen 1024%Z (0%nat, []) ltac:(vm_compute; reflexivity)
                ltac:(discriminate)) as [Hout _].
    exact Hout.
  - destruct (unbound_release_masks_outcome Samples.buffered_good
                (Samples.buffered_reloaded Samples.buffered_good)
                ltac:(vm_compute; reflexivity) ltac:(vm_compute; reflexivity)
                ltac:(vm_compute; reflexivity)) as [_ [Hlegal _]].
    destruct (Hlegal 1024%Z (0%nat, []) ltac:(vm_compute; reflexivity)
                ltac:(discriminate)) as [Hout _].
    exact Hout.
Defined.
